(** * Vibecraft inter-agent messaging: registry and router

    A shallow embedding of [src/server/AgentRegistry.ts] and
    [src/server/AgentMessageRouter.ts].

    Conventions of the embedding.
    - A JavaScript [Map] is an insertion-ordered association list
      ([JSMap]); [Array.from(map.values())] is the list of its values
      in that order.
    - [Date.now()], [randomUUID()] and [Math.random()] are inputs of
      the operation that calls them.
    - Strings are sequences of bytes, the UTF-8 encoding of the
      JavaScript string.
    - Timestamps and timeouts are integers ([Z], milliseconds).  The
      numbers of the retry delay are binary64 numbers, taken as the
      rationals they are, and every operation on them rounds to the
      nearest one ([roundDouble]); the value of [Math.random()] is a
      rational in [0,1).
    - The external callbacks ([deliverMessage], [broadcastEvent], the
      registry change callbacks) are recorded in logs kept next to the
      state; the logger is not modelled.  A registry change callback
      is taken to be an observer: it does not subscribe, unsubscribe or
      change the registry while it is called, as the one subscriber of
      the server, which sends the list to the clients, does not.
    - An [async] method is cut at its [await]s: one function for each
      synchronous segment. *)

From Stdlib Require Import List String Ascii Bool Arith ZArith QArith Qminmax Lia Lqa.
From Stdlib Require Import Qround Qpower.
From Stdlib Require Import DecimalString.
From Equations Require Import Equations.
Import ListNotations.

Local Open Scope string_scope.
Local Open Scope Z_scope.

(* ------------------------------------------------------------------ *)
(** ** Strings *)

(** The lower case of an ASCII character. *)
Definition lowerAscii (c : ascii) : ascii :=
  let n := nat_of_ascii c in
  if (Nat.leb 65 n && Nat.leb n 90)%bool then ascii_of_nat (n + 32) else c.

Definition isByte (n : nat) (c : ascii) : bool := Nat.eqb (nat_of_ascii c) n.

(** [String.prototype.toLowerCase], on the UTF-8 encoding.  Besides
    the capitals A-Z, two characters have an ASCII letter in their
    lower case: U+0130 (bytes C4 B0) becomes "i" followed by U+0307
    (CC 87), and the Kelvin sign U+212A (E2 84 AA) becomes "k".  The
    lower case of any other character outside ASCII lies outside
    ASCII; such a character is left as it is, which neither makes nor
    breaks an occurrence of an ASCII keyword. *)
Fixpoint toLowerCase (s : string) : string :=
  match s with
  | EmptyString => EmptyString
  | String c1 s1 =>
      match s1 with
      | EmptyString => String (lowerAscii c1) EmptyString
      | String c2 s2 =>
          if isByte 196 c1 && isByte 176 c2 then
            String "i" (String (ascii_of_nat 204) (String (ascii_of_nat 135)
                                                     (toLowerCase s2)))
          else
            match s2 with
            | EmptyString => String (lowerAscii c1) (toLowerCase s1)
            | String c3 s3 =>
                if isByte 226 c1 && isByte 132 c2 && isByte 170 c3 then
                  String "k" (toLowerCase s3)
                else String (lowerAscii c1) (toLowerCase s1)
            end
      end
  end.

(** [s.includes(kw)]: [kw] occurs in [s] at some position. *)
Fixpoint includes (s kw : string) : bool :=
  String.prefix kw s
  || match s with
     | EmptyString => false
     | String _ s' => includes s' kw
     end.

(** [xs.includes(x)] on an array of strings. *)
Definition array_includes (xs : list string) (x : string) : bool :=
  existsb (String.eqb x) xs.

(** [[...new Set(xs)]]: the first occurrence of every element, in order. *)
Fixpoint dedupe_from (seen : list string) (xs : list string) : list string :=
  match xs with
  | [] => []
  | x :: xs' =>
      if array_includes seen x then dedupe_from seen xs'
      else x :: dedupe_from (x :: seen) xs'
  end.

Definition dedupe (xs : list string) : list string := dedupe_from [] xs.

(** Case-insensitive matching, as the specification has it: [a] is
    the character [b], or [b] is a small letter and [a] its capital. *)
Definition sameLetter (a b : ascii) : Prop :=
  a = b
  \/ ((97 <= nat_of_ascii b <= 122)%nat
      /\ (nat_of_ascii a + 32)%nat = nat_of_ascii b).

Fixpoint sameUpToCase (s kw : string) : Prop :=
  match s, kw with
  | EmptyString, EmptyString => True
  | String a s', String b kw' => sameLetter a b /\ sameUpToCase s' kw'
  | _, _ => False
  end.

(** [name] contains [kw] up to letter case. *)
Definition occursUpToCase (name kw : string) : Prop :=
  exists pre mid post, name = pre ++ mid ++ post /\ sameUpToCase mid kw.

(** A keyword of small ASCII letters and digits. *)
Fixpoint lowerAsciiOnly (kw : string) : bool :=
  match kw with
  | EmptyString => true
  | String c kw' =>
      Nat.ltb (nat_of_ascii c) 128 && Ascii.eqb (lowerAscii c) c
      && lowerAsciiOnly kw'
  end.

(* ------------------------------------------------------------------ *)
(** ** JavaScript [Map] with string keys *)

Module JSMap.

Definition t (V : Type) : Type := list (string * V).

Definition empty {V} : t V := [].

Fixpoint get {V} (k : string) (m : t V) : option V :=
  match m with
  | [] => None
  | (k', v) :: m' => if String.eqb k k' then Some v else get k m'
  end.

Definition has {V} (k : string) (m : t V) : bool :=
  match get k m with Some _ => true | None => false end.

(** [map.set(k, v)]: an existing key keeps its place, a new one goes
    last. *)
Fixpoint set {V} (k : string) (v : V) (m : t V) : t V :=
  match m with
  | [] => [(k, v)]
  | (k', v') :: m' =>
      if String.eqb k k' then (k, v) :: m' else (k', v') :: set k v m'
  end.

(** [map.delete(k)] (the map after it; the boolean it returns is
    [has k m] before). *)
Definition delete {V} (k : string) (m : t V) : t V :=
  filter (fun kv => negb (String.eqb k (fst kv))) m.

Definition keys {V} (m : t V) : list string := map fst m.
Definition values {V} (m : t V) : list V := map snd m.
Definition size {V} (m : t V) : nat := List.length m.

End JSMap.

(* ------------------------------------------------------------------ *)
(** ** Shared types ([src/shared/types.ts]) *)

Inductive SessionStatus := idle | working | waiting | offline.

Inductive SessionBackend := tmux | sdk.

Definition AgentCapability := string.

(** [Record<string, unknown>]: an opaque bag of key/value pairs. *)
Definition JsonObject := list (string * string).

Definition SessionStatus_eqb (a b : SessionStatus) : bool :=
  match a, b with
  | idle, idle | working, working | waiting, waiting | offline, offline => true
  | _, _ => false
  end.

Record AgentRegistryEntry := {
  agentId : string;
  name : string;
  capabilities : list AgentCapability;
  status : SessionStatus;
  backend : SessionBackend;
  cwd : option string;
  lastActivity : Z;
  acceptsMessages : bool;
  metadata : option JsonObject;
}.

Record AgentRegistrationRequest := {
  reg_agentId : string;
  reg_name : string;
  reg_capabilities : list AgentCapability;
  reg_acceptsMessages : option bool;
  reg_metadata : option JsonObject;
}.

(** The fields of [ManagedSession] that the registry reads. *)
Record ManagedSession := {
  session_id : string;
  session_name : string;
  session_backend : SessionBackend;
  session_status : SessionStatus;
  session_lastActivity : Z;
  session_cwd : option string;
}.

(* ------------------------------------------------------------------ *)
(** ** AgentRegistry *)

(** A subscribed change callback, by the order of subscription. *)
Definition CallbackId := nat.

Record AgentRegistry := {
  agents : JSMap.t AgentRegistryEntry;
  changeCallbacks : list CallbackId;
  (** every invocation of a change callback so far, with its argument *)
  notifications : list (CallbackId * list AgentRegistryEntry);
}.

Definition newRegistry : AgentRegistry :=
  {| agents := JSMap.empty; changeCallbacks := []; notifications := [] |}.

Definition with_agents (r : AgentRegistry) (a : JSMap.t AgentRegistryEntry) :=
  {| agents := a; changeCallbacks := changeCallbacks r;
     notifications := notifications r |}.

Definition get (r : AgentRegistry) (id : string) : option AgentRegistryEntry :=
  JSMap.get id (agents r).

Definition getAll (r : AgentRegistry) : list AgentRegistryEntry :=
  JSMap.values (agents r).

(** Each subscribed callback is called with the current agent list; a
    callback that throws is caught, so every one of them is called.
    The callbacks are observers.  The code walks the live array of
    callbacks: one that unsubscribes while it is called makes the walk
    skip the subscriber after it, and one that calls back into the
    registry changes it under the walk; neither is described here. *)
Definition notifyChange (r : AgentRegistry) : AgentRegistry :=
  {| agents := agents r; changeCallbacks := changeCallbacks r;
     notifications :=
       (notifications r ++ map (fun cb => (cb, getAll r)) (changeCallbacks r))%list |}.

Definition onChange (r : AgentRegistry) (cb : CallbackId) : AgentRegistry :=
  {| agents := agents r; changeCallbacks := (changeCallbacks r ++ [cb])%list;
     notifications := notifications r |}.

Definition register (r : AgentRegistry) (request : AgentRegistrationRequest)
    (session : ManagedSession) : AgentRegistry * AgentRegistryEntry :=
  let entry :=
    {| agentId := reg_agentId request;
       name := reg_name request;
       capabilities := reg_capabilities request;
       status := session_status session;
       backend := session_backend session;
       cwd := session_cwd session;
       lastActivity := session_lastActivity session;
       acceptsMessages :=
         match reg_acceptsMessages request with Some b => b | None => true end;
       metadata := reg_metadata request |} in
  (notifyChange (with_agents r (JSMap.set (reg_agentId request) entry (agents r))),
   entry).

Definition inferCapabilities (session : ManagedSession) : list AgentCapability :=
  let capabilities := ["general"] in
  let nameLower := toLowerCase (session_name session) in
  let capabilities :=
    if includes nameLower "frontend" || includes nameLower "ui"
       || includes nameLower "react" || includes nameLower "vue"
    then (capabilities ++ ["frontend"])%list else capabilities in
  let capabilities :=
    if includes nameLower "backend" || includes nameLower "api"
       || includes nameLower "server"
    then (capabilities ++ ["backend"])%list else capabilities in
  let capabilities :=
    if includes nameLower "database" || includes nameLower "db"
       || includes nameLower "sql" || includes nameLower "postgres"
    then (capabilities ++ ["database"])%list else capabilities in
  let capabilities :=
    if includes nameLower "test" || includes nameLower "spec"
       || includes nameLower "e2e"
    then (capabilities ++ ["testing"])%list else capabilities in
  let capabilities :=
    if includes nameLower "devops" || includes nameLower "deploy"
       || includes nameLower "ci" || includes nameLower "docker"
    then (capabilities ++ ["devops"])%list else capabilities in
  let capabilities :=
    if includes nameLower "security" || includes nameLower "auth"
       || includes nameLower "secure"
    then (capabilities ++ ["security"])%list else capabilities in
  dedupe capabilities.

Definition registerFromSession (r : AgentRegistry) (session : ManagedSession)
    : AgentRegistry * AgentRegistryEntry :=
  let capabilities := inferCapabilities session in
  let entry :=
    {| agentId := session_id session;
       name := session_name session;
       capabilities := capabilities;
       status := session_status session;
       backend := session_backend session;
       cwd := session_cwd session;
       lastActivity := session_lastActivity session;
       acceptsMessages := true;
       metadata := Some [] |} in
  (notifyChange (with_agents r (JSMap.set (session_id session) entry (agents r))),
   entry).

(** [agents.delete(agentId)] runs in either case; the callbacks only
    when it removed something. *)
Definition unregister (r : AgentRegistry) (id : string) : AgentRegistry * bool :=
  let existed := JSMap.has id (agents r) in
  let r' := with_agents r (JSMap.delete id (agents r)) in
  if existed then (notifyChange r', existed) else (r', existed).

(** The entry is updated where it stands; [now] is [Date.now()]. *)
Definition updateStatus (r : AgentRegistry) (id : string) (st : SessionStatus)
    (now : Z) : AgentRegistry :=
  match JSMap.get id (agents r) with
  | Some entry =>
      let entry' :=
        {| agentId := agentId entry; name := name entry;
           capabilities := capabilities entry;
           status := st; backend := backend entry; cwd := cwd entry;
           lastActivity := now;
           acceptsMessages := acceptsMessages entry;
           metadata := metadata entry |} in
      notifyChange (with_agents r (JSMap.set id entry' (agents r)))
  | None => r
  end.

Definition updateFromSession (r : AgentRegistry) (session : ManagedSession)
    : AgentRegistry :=
  match JSMap.get (session_id session) (agents r) with
  | Some entry =>
      let entry' :=
        {| agentId := agentId entry; name := name entry;
           capabilities := capabilities entry;
           status := session_status session; backend := backend entry;
           cwd := session_cwd session;
           lastActivity := session_lastActivity session;
           acceptsMessages := acceptsMessages entry;
           metadata := metadata entry |} in
      notifyChange (with_agents r (JSMap.set (session_id session) entry' (agents r)))
  | None => fst (registerFromSession r session)
  end.

Definition clear (r : AgentRegistry) : AgentRegistry :=
  notifyChange (with_agents r JSMap.empty).

Definition isOffline (a : AgentRegistryEntry) : bool :=
  SessionStatus_eqb (status a) offline.

Definition getMessageableAgents (r : AgentRegistry) : list AgentRegistryEntry :=
  filter (fun a => acceptsMessages a && negb (isOffline a)) (getAll r).

Definition findByCapability (r : AgentRegistry) (capability : AgentCapability)
    : list AgentRegistryEntry :=
  filter (fun agent => array_includes (capabilities agent) capability
                       && acceptsMessages agent
                       && negb (isOffline agent))
         (getAll r).

Definition isOnline (r : AgentRegistry) (id : string) : bool :=
  match JSMap.get id (agents r) with
  | Some entry => negb (isOffline entry)
  | None => false
  end.

Definition statusPriority (s : SessionStatus) : Z :=
  match s with
  | idle => 0
  | working => 1
  | waiting => 2
  | offline => 3
  end.

(** The comparator handed to [candidates.sort]. *)
Definition compareCandidates (a b : AgentRegistryEntry) : Z :=
  let statusDiff := statusPriority (status a) - statusPriority (status b) in
  if negb (statusDiff =? 0) then statusDiff
  else lastActivity b - lastActivity a.

(** [Array.prototype.sort] is a stable sort (ECMAScript 2019), and
    [compareCandidates] is a consistent comparator, so the sorted array
    is determined: it is the one stable insertion computes. *)
Fixpoint sort_insert {A} (cmp : A -> A -> Z) (x : A) (l : list A) : list A :=
  match l with
  | [] => [x]
  | y :: l' => if cmp x y <=? 0 then x :: y :: l' else y :: sort_insert cmp x l'
  end.

Definition array_sort {A} (cmp : A -> A -> Z) (l : list A) : list A :=
  fold_right (sort_insert cmp) [] l.

(** [a.agentId !== excludeAgentId], with [excludeAgentId] possibly
    [undefined]. *)
Definition notExcluded (excludeAgentId : option string) (a : AgentRegistryEntry)
    : bool :=
  match excludeAgentId with
  | Some x => negb (String.eqb (agentId a) x)
  | None => true
  end.

Definition candidatesFor (r : AgentRegistry) (capability : AgentCapability)
    (excludeAgentId : option string) : list AgentRegistryEntry :=
  filter (notExcluded excludeAgentId) (findByCapability r capability).

Definition findBestForCapability (r : AgentRegistry) (capability : AgentCapability)
    (excludeAgentId : option string) : option AgentRegistryEntry :=
  let candidates := candidatesFor r capability excludeAgentId in
  if Nat.eqb (List.length candidates) 0 then None
  else hd_error (array_sort compareCandidates candidates).

(** The operations that change a registry. *)
Inductive RegistryOp :=
| op_register (request : AgentRegistrationRequest) (session : ManagedSession)
| op_registerFromSession (session : ManagedSession)
| op_unregister (agentId : string)
| op_updateStatus (agentId : string) (st : SessionStatus) (now : Z)
| op_updateFromSession (session : ManagedSession)
| op_clear
| op_onChange (callback : CallbackId).

Definition applyOp (r : AgentRegistry) (op : RegistryOp) : AgentRegistry :=
  match op with
  | op_register request session => fst (register r request session)
  | op_registerFromSession session => fst (registerFromSession r session)
  | op_unregister id => fst (unregister r id)
  | op_updateStatus id st now => updateStatus r id st now
  | op_updateFromSession session => updateFromSession r session
  | op_clear => clear r
  | op_onChange callback => onChange r callback
  end.

(** No two entries share a key, and every entry is stored under its own
    [agentId]. *)
Definition registry_wf (r : AgentRegistry) : Prop :=
  NoDup (JSMap.keys (agents r))
  /\ forall k e, In (k, e) (agents r) -> agentId e = k.

(** The rule table as the specification lists it: keywords, then the
    capability a display name containing one of them receives.  (The
    source's conditions hold two more keywords, "vue" and "postgres".) *)
Definition listed_rules : list (list string * AgentCapability) :=
  [ (["frontend"; "ui"; "react"], "frontend");
    (["backend"; "api"; "server"], "backend");
    (["database"; "db"; "sql"], "database");
    (["test"; "spec"; "e2e"], "testing");
    (["devops"; "deploy"; "ci"; "docker"], "devops");
    (["security"; "auth"; "secure"], "security") ].

(** A session with the display name [name]. *)
Definition session_named (name : string) : ManagedSession :=
  {| session_id := "s"; session_name := name; session_backend := sdk;
     session_status := idle; session_lastActivity := 0; session_cwd := None |}.

(** "BAC", the Kelvin sign U+212A, "END". *)
Definition kelvin_name : string :=
  "BAC" ++ String (ascii_of_nat 226) (String (ascii_of_nat 132)
                                        (String (ascii_of_nat 170) "END")).

(** The order of the specification, written out: idle before working
    before waiting before offline. *)
Definition rankedBefore (a b : SessionStatus) : Prop :=
  match a, b with
  | idle, working | idle, waiting | idle, offline => True
  | working, waiting | working, offline => True
  | waiting, offline => True
  | _, _ => False
  end.

(** [a] is at least as good a target as [b] in that order: an earlier
    status, or the same status and activity at least as recent. *)
Definition atLeastAsGood (a b : AgentRegistryEntry) : Prop :=
  rankedBefore (status a) (status b)
  \/ (status a = status b /\ lastActivity b <= lastActivity a).

(** [a] is at least as good a routing target as [b]: a smaller status
    priority, or the same priority and activity at least as recent. *)
Definition candidate_le (a b : AgentRegistryEntry) : Prop :=
  statusPriority (status a) < statusPriority (status b)
  \/ (statusPriority (status a) = statusPriority (status b)
      /\ lastActivity b <= lastActivity a).

(** The scenario of the specification: A (idle, 5), B (working, 10) and
    C (idle, 8), all with capability "testing". *)
Definition scenario_agent (id : string) (st : SessionStatus) (t : Z)
    : AgentRegistrationRequest * ManagedSession :=
  ({| reg_agentId := id; reg_name := id; reg_capabilities := ["testing"];
      reg_acceptsMessages := None; reg_metadata := None |},
   {| session_id := id; session_name := id; session_backend := sdk;
      session_status := st; session_lastActivity := t; session_cwd := None |}).

Definition register_all (r : AgentRegistry)
    (l : list (AgentRegistrationRequest * ManagedSession)) : AgentRegistry :=
  fold_left (fun r rs => fst (register r (fst rs) (snd rs))) l r.

Definition scenario_registry : AgentRegistry :=
  register_all newRegistry
    [ scenario_agent "A" idle 5; scenario_agent "B" working 10;
      scenario_agent "C" idle 8 ].

(** K (working, 1), W1 (waiting, 3), W2 (waiting, 9) and O (offline,
    100), all with capability "testing". *)
Definition ranking_registry : AgentRegistry :=
  register_all newRegistry
    [ scenario_agent "W1" waiting 3; scenario_agent "K" working 1;
      scenario_agent "O" offline 100; scenario_agent "W2" waiting 9 ].

(* ------------------------------------------------------------------ *)
(** ** Router: messages and results ([src/shared/types.ts]) *)

Inductive AgentMessageRouting := routing_direct | routing_capability | routing_broadcast.

Inductive AgentMessagePriority := low | normal | high | urgent.

(** The [context] of a message: the caller's object, or the object
    [handleResponse] attaches to the message it sends back. *)
Inductive MessageContext :=
| callerContext (obj : JsonObject)
| responseContext (inResponseTo originalMessage : string)
    (responseData : option JsonObject) (success : bool) (error : option string).

Record AgentMessageEvent := {
  msg_id : string;
  msg_timestamp : Z;
  msg_sessionId : string;
  msg_cwd : string;
  msg_fromAgentId : string;
  msg_fromAgentName : string;
  msg_toAgentId : option string;
  msg_toCapability : option AgentCapability;
  msg_routing : AgentMessageRouting;
  msg_message : string;
  msg_context : option MessageContext;
  msg_priority : AgentMessagePriority;
  msg_messageId : string;
  msg_expectsResponse : bool;
  msg_responseTimeout : option Z;
}.

Record AgentMessageResponseEvent := {
  rsp_id : string;
  rsp_timestamp : Z;
  rsp_sessionId : string;
  rsp_cwd : string;
  rsp_fromAgentId : string;
  rsp_fromAgentName : string;
  rsp_toAgentId : string;
  rsp_inResponseTo : string;
  rsp_response : string;
  rsp_data : option JsonObject;
  rsp_success : bool;
  rsp_error : option string;
}.

Record AgentBroadcastEvent := {
  bc_id : string;
  bc_timestamp : Z;
  bc_sessionId : string;
  bc_cwd : string;
  bc_fromAgentId : string;
  bc_fromAgentName : string;
  bc_channel : string;
  bc_message : string;
  bc_data : option JsonObject;
}.

(** The union of the three event types, tagged as their [type] field. *)
Inductive RouterEvent :=
| agent_message (e : AgentMessageEvent)
| agent_message_response (e : AgentMessageResponseEvent)
| agent_broadcast (e : AgentBroadcastEvent).

Record SendAgentMessageRequest := {
  req_toAgentId : option string;
  req_toCapability : option AgentCapability;
  req_message : string;
  req_context : option JsonObject;
  req_priority : option AgentMessagePriority;
  req_expectsResponse : option bool;
  req_responseTimeout : option Z;
}.

Record SendAgentMessageResponse := {
  ok : bool;
  res_messageId : option string;
  res_targetAgentId : option string;
  res_error : option string;
  res_response : option string;
  res_responseData : option JsonObject;
  res_responseSuccess : option bool;
  res_responseReceivedAt : option Z;
}.

(** The result of [handleResponse]. *)
Record ResponseResult := {
  delivered : bool;
  rr_error : option string;
}.

(** The result of [broadcast]. *)
Record BroadcastResult := {
  sent : nat;
  failed : nat;
}.

(** What a rejected delivery carries: an [Error] with its message, or
    some other value. *)
Inductive Thrown := thrownError (message : string) | thrownOther.

(** [error instanceof Error ? error.message : 'Delivery failed'] *)
Definition deliveryErrorMessage (e : Thrown) : string :=
  match e with
  | thrownError m => m
  | thrownOther => "Delivery failed"
  end.

(** A string used as a condition: absent and empty both count as false. *)
Definition truthy (s : option string) : option string :=
  match s with
  | Some EmptyString => None
  | other => other
  end.

(* ------------------------------------------------------------------ *)
(** ** Router: number and message formatting *)

Definition digits (n : Z) : string :=
  DecimalString.NilZero.string_of_uint (N.to_uint (Z.to_N n)).

(** The decimals of [n / 1000] for [0 <= n < 1000], without trailing
    zeros. *)
Definition thousandths (n : Z) : string :=
  if n mod 10 =? 0 then
    if n mod 100 =? 0 then digits (n / 100) else digits (n / 100) ++ digits (n / 10 mod 10)
  else digits (n / 100) ++ digits (n / 10 mod 10) ++ digits (n mod 10).

(** [`${timeout / 1000}`] for a timeout that is a whole number of
    milliseconds below 10^15 in magnitude: the quotient has at most
    three decimals and at most 15 significant digits, and the shortest
    digits that read back as the same double, which JavaScript prints,
    are those of the exact quotient.  From 16 significant digits on
    the two differ (9007199254740991 ms is printed as
    9007199254740.99), and a timeout with a fraction of a millisecond
    has no counterpart here. *)
Definition secondsText (timeout : Z) : string :=
  let a := Z.abs timeout in
  (if timeout <? 0 then "-" else "")
  ++ digits (a / 1000)
  ++ (if a mod 1000 =? 0 then "" else "." ++ thousandths (a mod 1000)).

Definition timeoutMessage (timeout : Z) : string :=
  "Response timeout after " ++ secondsText timeout ++ " seconds".

Definition nl : string := String (ascii_of_nat 10) EmptyString.

Definition rule : string :=
  "================================================================================".

(** [messageId.slice(0, 8)] *)
Definition slice8 (s : string) : string := String.substring 0 8 s.

Definition formatResponseForDelivery (response fromAgentName messageId : string)
    (success : bool) (error : option string) : string :=
  if negb success then
    "[VIBECRAFT RESPONSE - ERROR]" ++ nl ++ rule ++ nl
    ++ "From: " ++ fromAgentName ++ nl
    ++ "In Response To: Message " ++ slice8 messageId ++ nl
    ++ "Status: FAILED" ++ nl
    ++ "Error: " ++ match error with Some e => e | None => "Unknown error" end ++ nl
    ++ rule ++ nl ++ nl ++ response ++ nl ++ nl ++ rule ++ nl ++ "[END RESPONSE]"
  else
    "[VIBECRAFT RESPONSE]" ++ nl ++ rule ++ nl
    ++ "From: " ++ fromAgentName ++ nl
    ++ "In Response To: Message " ++ slice8 messageId ++ nl
    ++ "Status: SUCCESS" ++ nl
    ++ rule ++ nl ++ nl ++ response ++ nl ++ nl ++ rule ++ nl ++ "[END RESPONSE]".

(* ------------------------------------------------------------------ *)
(** ** Numbers: binary64 arithmetic *)

Definition pow2 (z : Z) : Q := Qpower 2 z.

(** The integer part of the binary logarithm of a positive rational. *)
Definition floorLog2 (x : Q) : Z :=
  let l := Z.log2 (Qnum x) - Z.log2 (Zpos (Qden x)) in
  if Qle_bool (pow2 l) x then l else l - 1.

(** The exponent of the last place of the binary64 numbers next to a
    positive [x]: 53 significant bits, and no place below [2^-1074]. *)
Definition lastPlace (x : Q) : Z := Z.max (floorLog2 x - 52) (-1074).

(** The nearest integer, the even one of two that are equally near. *)
Definition roundHalfEven (q : Q) : Z :=
  let f := Qfloor q in
  match (q - inject_Z f ?= 1 # 2)%Q with
  | Lt => f
  | Gt => f + 1
  | Eq => if Z.even f then f else f + 1
  end.

Definition roundPositive (x : Q) : Q :=
  let e := lastPlace x in
  (inject_Z (roundHalfEven (x * pow2 (- e))) * pow2 e)%Q.

(** The binary64 number nearest to [x], ties to even, in lowest terms:
    the result of an arithmetic operation whose exact result is [x].
    (No number of the program comes near the largest binary64 number,
    above which the result would be [Infinity].) *)
Definition roundDouble (x : Q) : Q :=
  Qred (match (x ?= 0)%Q with
        | Eq => 0
        | Gt => roundPositive x
        | Lt => - roundPositive (- x)
        end)%Q.

Arguments roundDouble : simpl never.

(* ------------------------------------------------------------------ *)
(** ** Router: delivery with retry *)

Module RETRY_CONFIG.
Definition maxAttempts : nat := 3.
Definition baseDelayMs : Q := 1000.
Definition maxDelayMs : Q := 10000.
End RETRY_CONFIG.

(** The backoff after a failed [attempt]; [random] is the value of
    [Math.random()].  The power, the two products and the sum are
    binary64 operations. *)
Definition retryDelay (attempt : nat) (random : Q) : Q :=
  Qmin (roundDouble
          (roundDouble (RETRY_CONFIG.baseDelayMs
                        * roundDouble (Qpower 2 (Z.of_nat attempt - 1)))
           + roundDouble (random * 1000)))
       RETRY_CONFIG.maxDelayMs.

Arguments retryDelay : simpl never.

(** What one call of [deliverWithRetry] does, in order: invocations of
    the delivery callback and waits. *)
Inductive DeliveryStep :=
| invoke (attempt : nat)
| sleep (delay : Q).

Record DeliveryRun := {
  steps : list DeliveryStep;
  (** [None]: the promise is fulfilled; [Some e]: it is rejected with [e] *)
  thrown : option Thrown;
}.

Definition after_step (s : list DeliveryStep) (run : DeliveryRun) : DeliveryRun :=
  {| steps := (s ++ steps run)%list; thrown := thrown run |}.

(** [outcome n] is what the delivery callback does when it is invoked
    for attempt [n] ([None]: it succeeds), [random n] the value
    [Math.random()] gives after attempt [n] failed. *)
Equations deliverWithRetry (outcome : nat -> option Thrown) (random : nat -> Q)
    (attempt : nat) : DeliveryRun
    by wf (RETRY_CONFIG.maxAttempts - attempt)%nat lt :=
  deliverWithRetry outcome random attempt with outcome attempt := {
    | None => {| steps := [invoke attempt]; thrown := None |}
    | Some error with le_lt_dec RETRY_CONFIG.maxAttempts attempt := {
        | left _ => {| steps := [invoke attempt]; thrown := Some error |}
        | right _ =>
            after_step [invoke attempt; sleep (retryDelay attempt (random attempt))]
              (deliverWithRetry outcome random (S attempt)) } }.
Next Obligation.
  unfold RETRY_CONFIG.maxAttempts in *.
  destruct attempt as [| [| [| n]]]; lia.
Qed.

Definition invocations (run : DeliveryRun) : list nat :=
  flat_map (fun s => match s with invoke n => [n] | sleep _ => [] end) (steps run).

Definition delays (run : DeliveryRun) : list Q :=
  flat_map (fun s => match s with invoke _ => [] | sleep d => [d] end) (steps run).

(* ------------------------------------------------------------------ *)
(** ** Router: state *)

(** The data of a [PendingMessage].  Its two closures are
    [PendingMessage_resolve] and [PendingMessage_reject] below, applied
    to [pm_messageId]. *)
Record PendingMessage := {
  pm_messageId : string;
  pm_fromAgentId : string;
  pm_fromAgentName : string;
  pm_toAgentId : string;
  pm_toAgentName : string;
  pm_sentAt : Z;
  pm_timeout : Z;
  pm_originalMessage : string;
  pm_deliveryAttempts : nat;
  pm_responseReceived : bool;
}.

(** One activation of [sendMessage] past validation: the variables its
    closures and its continuation read, and the promise it returned. *)
Record SendFrame := {
  sf_messageId : string;
  sf_targetAgentId : string;
  (** [request.expectsResponse] as a condition *)
  sf_expectsResponse : bool;
  (** the activation is at [await this.deliverWithRetry(...)] *)
  sf_awaitingDelivery : bool;
  (** [pendingPromiseResolve] has been assigned *)
  pendingPromiseResolve : bool;
  (** the value the returned promise is resolved with, once it is *)
  sf_result : option SendAgentMessageResponse;
}.

(** One activation of [handleResponse] at its [await]. *)
Record ResponseFrame := {
  rf_pending : PendingMessage;
  rf_fromAgentId : string;
  rf_fromAgentName : string;
  rf_originalSenderName : string;
  rf_messageId : string;
  rf_response : string;
  rf_success : bool;
  rf_error : option string;
  rf_data : option JsonObject;
}.

Inductive Closure := closure_resolve | closure_reject.

Record Router := {
  registry : AgentRegistry;
  pendingMessages : JSMap.t PendingMessage;
  messageHistory : list RouterEvent;
  (** the interval timer of the timeout sweep is armed *)
  timeoutChecker : bool;
  (** calls of the [broadcastEvent] callback *)
  broadcasted : list RouterEvent;
  (** calls of [deliverWithRetry]: target and message *)
  deliveries : list (string * RouterEvent);
  (** activations of [sendMessage], by [messageId] *)
  sendFrames : JSMap.t SendFrame;
  (** activations of [handleResponse] awaiting their delivery, by the
      id of the message they deliver *)
  responseFrames : JSMap.t ResponseFrame;
  (** every call of a pending message's closure so far *)
  closureCalls : list (string * Closure);
}.

Definition maxHistorySize : nat := 100.

Definition newRouter (r : AgentRegistry) : Router :=
  {| registry := r; pendingMessages := JSMap.empty; messageHistory := [];
     timeoutChecker := true; broadcasted := []; deliveries := [];
     sendFrames := JSMap.empty; responseFrames := JSMap.empty;
     closureCalls := [] |}.

Definition with_registry (rt : Router) (r : AgentRegistry) : Router :=
  {| registry := r; pendingMessages := pendingMessages rt;
     messageHistory := messageHistory rt; timeoutChecker := timeoutChecker rt;
     broadcasted := broadcasted rt; deliveries := deliveries rt;
     sendFrames := sendFrames rt; responseFrames := responseFrames rt;
     closureCalls := closureCalls rt |}.

Definition with_pendingMessages (rt : Router) (p : JSMap.t PendingMessage) : Router :=
  {| registry := registry rt; pendingMessages := p;
     messageHistory := messageHistory rt; timeoutChecker := timeoutChecker rt;
     broadcasted := broadcasted rt; deliveries := deliveries rt;
     sendFrames := sendFrames rt; responseFrames := responseFrames rt;
     closureCalls := closureCalls rt |}.

Definition with_sendFrames (rt : Router) (f : JSMap.t SendFrame) : Router :=
  {| registry := registry rt; pendingMessages := pendingMessages rt;
     messageHistory := messageHistory rt; timeoutChecker := timeoutChecker rt;
     broadcasted := broadcasted rt; deliveries := deliveries rt;
     sendFrames := f; responseFrames := responseFrames rt;
     closureCalls := closureCalls rt |}.

Definition with_responseFrames (rt : Router) (f : JSMap.t ResponseFrame) : Router :=
  {| registry := registry rt; pendingMessages := pendingMessages rt;
     messageHistory := messageHistory rt; timeoutChecker := timeoutChecker rt;
     broadcasted := broadcasted rt; deliveries := deliveries rt;
     sendFrames := sendFrames rt; responseFrames := f;
     closureCalls := closureCalls rt |}.

Definition with_timeoutChecker (rt : Router) (b : bool) : Router :=
  {| registry := registry rt; pendingMessages := pendingMessages rt;
     messageHistory := messageHistory rt; timeoutChecker := b;
     broadcasted := broadcasted rt; deliveries := deliveries rt;
     sendFrames := sendFrames rt; responseFrames := responseFrames rt;
     closureCalls := closureCalls rt |}.

(** [messageHistory.push(event)], then [shift()] when over the limit. *)
Definition addToHistory (rt : Router) (event : RouterEvent) : Router :=
  let pushed := (messageHistory rt ++ [event])%list in
  {| registry := registry rt; pendingMessages := pendingMessages rt;
     messageHistory :=
       if Nat.ltb maxHistorySize (List.length pushed) then tl pushed else pushed;
     timeoutChecker := timeoutChecker rt;
     broadcasted := broadcasted rt; deliveries := deliveries rt;
     sendFrames := sendFrames rt; responseFrames := responseFrames rt;
     closureCalls := closureCalls rt |}.

(** A call of the [broadcastEvent] callback. *)
Definition broadcastEvent (rt : Router) (event : RouterEvent) : Router :=
  {| registry := registry rt; pendingMessages := pendingMessages rt;
     messageHistory := messageHistory rt; timeoutChecker := timeoutChecker rt;
     broadcasted := (broadcasted rt ++ [event])%list; deliveries := deliveries rt;
     sendFrames := sendFrames rt; responseFrames := responseFrames rt;
     closureCalls := closureCalls rt |}.

(** A call of [deliverWithRetry], which invokes the delivery callback
    for the first attempt at once. *)
Definition startDelivery (rt : Router) (target : string) (message : RouterEvent)
    : Router :=
  {| registry := registry rt; pendingMessages := pendingMessages rt;
     messageHistory := messageHistory rt; timeoutChecker := timeoutChecker rt;
     broadcasted := broadcasted rt;
     deliveries := (deliveries rt ++ [(target, message)])%list;
     sendFrames := sendFrames rt; responseFrames := responseFrames rt;
     closureCalls := closureCalls rt |}.

Definition logClosure (rt : Router) (messageId : string) (c : Closure) : Router :=
  {| registry := registry rt; pendingMessages := pendingMessages rt;
     messageHistory := messageHistory rt; timeoutChecker := timeoutChecker rt;
     broadcasted := broadcasted rt; deliveries := deliveries rt;
     sendFrames := sendFrames rt; responseFrames := responseFrames rt;
     closureCalls := (closureCalls rt ++ [(messageId, c)])%list |}.

(* ------------------------------------------------------------------ *)
(** ** Router: the closures of a pending message *)

Definition settled (f : SendFrame) (result : SendAgentMessageResponse) : SendFrame :=
  {| sf_messageId := sf_messageId f; sf_targetAgentId := sf_targetAgentId f;
     sf_expectsResponse := sf_expectsResponse f;
     sf_awaitingDelivery := sf_awaitingDelivery f;
     pendingPromiseResolve := pendingPromiseResolve f;
     sf_result := Some result |}.

(** [if (pendingPromiseResolve) pendingPromiseResolve(result)]: nothing
    happens while the variable is unassigned, and resolving a promise a
    second time changes nothing. *)
Definition callPromiseResolve (f : SendFrame) (result : SendAgentMessageResponse)
    : SendFrame :=
  if pendingPromiseResolve f then
    match sf_result f with
    | None => settled f result
    | Some _ => f
    end
  else f.

Definition inFrame (rt : Router) (messageId : string)
    (act : SendFrame -> SendFrame) : Router :=
  match JSMap.get messageId (sendFrames rt) with
  | Some f => with_sendFrames rt (JSMap.set messageId (act f) (sendFrames rt))
  | None => rt
  end.

Definition markReceived (p : PendingMessage) : PendingMessage :=
  {| pm_messageId := pm_messageId p; pm_fromAgentId := pm_fromAgentId p;
     pm_fromAgentName := pm_fromAgentName p; pm_toAgentId := pm_toAgentId p;
     pm_toAgentName := pm_toAgentName p; pm_sentAt := pm_sentAt p;
     pm_timeout := pm_timeout p; pm_originalMessage := pm_originalMessage p;
     pm_deliveryAttempts := pm_deliveryAttempts p;
     pm_responseReceived := true |}.

(** The [resolve] closure of the pending message that the activation
    [messageId] of [sendMessage] created.  The flag is written to the
    object and the entry leaves the map in the same breath, so a lookup
    in the map never shows the flag. *)
Definition PendingMessage_resolve (rt : Router) (messageId : string)
    (result : SendAgentMessageResponse) : Router :=
  let flagged :=
    match JSMap.get messageId (pendingMessages rt) with
    | Some p => JSMap.set messageId (markReceived p) (pendingMessages rt)
    | None => pendingMessages rt
    end in
  let rt := with_pendingMessages rt (JSMap.delete messageId flagged) in
  let rt := inFrame rt messageId (fun f => callPromiseResolve f result) in
  logClosure rt messageId closure_resolve.

(** The [reject] closure; [message] is [error.message]. *)
Definition PendingMessage_reject (rt : Router) (messageId : string)
    (message : string) : Router :=
  let rt := with_pendingMessages rt (JSMap.delete messageId (pendingMessages rt)) in
  let rt :=
    inFrame rt messageId (fun f =>
      callPromiseResolve f
        {| ok := false; res_messageId := Some messageId;
           res_targetAgentId := Some (sf_targetAgentId f);
           res_error := Some message;
           res_response := None; res_responseData := None;
           res_responseSuccess := None; res_responseReceivedAt := None |}) in
  logClosure rt messageId closure_reject.

(* ------------------------------------------------------------------ *)
(** ** Router: [sendMessage] *)

Definition failure (message : string) : SendAgentMessageResponse :=
  {| ok := false; res_messageId := None; res_targetAgentId := None;
     res_error := Some message;
     res_response := None; res_responseData := None;
     res_responseSuccess := None; res_responseReceivedAt := None |}.

(** Where [sendMessage] stands after its first synchronous segment. *)
Inductive SendStarted :=
| sendReturned (result : SendAgentMessageResponse)
| sendAwaitingDelivery (messageId : string)
| sendThrew.

(** The target of a request, or the result that refuses it. *)
Definition resolveTarget (r : AgentRegistry) (fromAgentId : string)
    (request : SendAgentMessageRequest)
    : (AgentMessageRouting * string) + SendAgentMessageResponse :=
  match truthy (req_toAgentId request) with
  | Some targetAgentId =>
      match get r targetAgentId with
      | None => inr (failure ("Target agent not found: " ++ targetAgentId))
      | Some targetAgent =>
          if negb (acceptsMessages targetAgent) then
            inr (failure ("Target agent does not accept messages: " ++ targetAgentId))
          else if isOffline targetAgent then
            inr (failure ("Target agent is offline: " ++ targetAgentId))
          else inl (routing_direct, targetAgentId)
      end
  | None =>
      match truthy (req_toCapability request) with
      | Some toCapability =>
          match findBestForCapability r toCapability (Some fromAgentId) with
          | None => inr (failure ("No agent found with capability: " ++ toCapability))
          | Some bestAgent => inl (routing_capability, agentId bestAgent)
          end
      | None => inr (failure "Must specify either toAgentId or toCapability")
      end
  end.

(** [sendMessage] up to its [await]: validation, the message event,
    history, the observers, the pending message, and the first delivery
    attempt.  [messageId] and [eventId] are the two [randomUUID()]s,
    [timestamp] and [sentAt] the two [Date.now()]s.  [sendThrew] stands
    for the [TypeError] of [this.registry.get(targetAgentId)!] when the
    selected entry is not stored under its own [agentId], which no
    operation of the registry brings about ([registry_wf]). *)
Definition sendMessage_start (rt : Router) (fromAgentId : string)
    (request : SendAgentMessageRequest) (messageId eventId : string)
    (timestamp sentAt : Z) : Router * SendStarted :=
  match get (registry rt) fromAgentId with
  | None => (rt, sendReturned (failure "Sender agent not found in registry"))
  | Some fromAgent =>
      match resolveTarget (registry rt) fromAgentId request with
      | inr refusal => (rt, sendReturned refusal)
      | inl (routing, targetAgentId) =>
          match get (registry rt) targetAgentId with
          | None => (rt, sendThrew)
          | Some targetAgent =>
              let timeout :=
                match req_responseTimeout request with
                | Some t => t
                | None => 300000
                end in
              let messageEvent :=
                {| msg_id := eventId;
                   msg_timestamp := timestamp;
                   msg_sessionId := fromAgentId;
                   msg_cwd := match cwd fromAgent with Some d => d | None => "" end;
                   msg_fromAgentId := fromAgentId;
                   msg_fromAgentName := name fromAgent;
                   msg_toAgentId := Some targetAgentId;
                   msg_toCapability := req_toCapability request;
                   msg_routing := routing;
                   msg_message := req_message request;
                   msg_context := option_map callerContext (req_context request);
                   msg_priority :=
                     match req_priority request with
                     | Some p => p
                     | None => normal
                     end;
                   msg_messageId := messageId;
                   msg_expectsResponse :=
                     match req_expectsResponse request with
                     | Some b => b
                     | None => false
                     end;
                   msg_responseTimeout := Some timeout |} in
              let rt := addToHistory rt (agent_message messageEvent) in
              let rt := broadcastEvent rt (agent_message messageEvent) in
              let expects :=
                match req_expectsResponse request with
                | Some b => b
                | None => false
                end in
              let rt :=
                if expects then
                  let pending :=
                    {| pm_messageId := messageId;
                       pm_fromAgentId := fromAgentId;
                       pm_fromAgentName := name fromAgent;
                       pm_toAgentId := targetAgentId;
                       pm_toAgentName := name targetAgent;
                       pm_sentAt := sentAt;
                       pm_timeout := timeout;
                       pm_originalMessage := req_message request;
                       pm_deliveryAttempts := 1;
                       pm_responseReceived := false |} in
                  with_pendingMessages rt
                    (JSMap.set messageId pending (pendingMessages rt))
                else rt in
              let frame :=
                {| sf_messageId := messageId; sf_targetAgentId := targetAgentId;
                   sf_expectsResponse := expects; sf_awaitingDelivery := true;
                   pendingPromiseResolve := false; sf_result := None |} in
              let rt := with_sendFrames rt (JSMap.set messageId frame (sendFrames rt)) in
              let rt := startDelivery rt targetAgentId (agent_message messageEvent) in
              (rt, sendAwaitingDelivery messageId)
          end
      end
  end.

(** The continuation of [sendMessage] when [deliverWithRetry] is
    fulfilled.  Without an expected response the call returns its
    acknowledgement.  With one it returns a new promise whose executor
    assigns [pendingPromiseResolve]; the executor's look at
    [pending?.responseReceived] has an empty body, and is shown here as
    the match that does nothing in either case. *)
Definition sendMessage_delivered (rt : Router) (messageId : string) : Router :=
  match JSMap.get messageId (sendFrames rt) with
  | Some f =>
      if sf_awaitingDelivery f then
        if negb (sf_expectsResponse f) then
          inFrame rt messageId (fun f =>
            {| sf_messageId := sf_messageId f; sf_targetAgentId := sf_targetAgentId f;
               sf_expectsResponse := sf_expectsResponse f;
               sf_awaitingDelivery := false;
               pendingPromiseResolve := pendingPromiseResolve f;
               sf_result :=
                 Some {| ok := true; res_messageId := Some messageId;
                         res_targetAgentId := Some (sf_targetAgentId f);
                         res_error := None;
                         res_response := None; res_responseData := None;
                         res_responseSuccess := None;
                         res_responseReceivedAt := None |} |})
        else
          let rt :=
            inFrame rt messageId (fun f =>
              {| sf_messageId := sf_messageId f; sf_targetAgentId := sf_targetAgentId f;
                 sf_expectsResponse := sf_expectsResponse f;
                 sf_awaitingDelivery := false;
                 pendingPromiseResolve := true;
                 sf_result := sf_result f |}) in
          match JSMap.get messageId (pendingMessages rt) with
          | Some pending => if pm_responseReceived pending then rt else rt
          | None => rt
          end
      else rt
  | None => rt
  end.

(** The continuation of [sendMessage] when [deliverWithRetry] is
    rejected: the [catch] block. *)
Definition sendMessage_failed (rt : Router) (messageId : string) (error : Thrown)
    : Router :=
  match JSMap.get messageId (sendFrames rt) with
  | Some f =>
      if sf_awaitingDelivery f then
        let rt :=
          with_pendingMessages rt (JSMap.delete messageId (pendingMessages rt)) in
        inFrame rt messageId (fun f =>
          {| sf_messageId := sf_messageId f; sf_targetAgentId := sf_targetAgentId f;
             sf_expectsResponse := sf_expectsResponse f;
             sf_awaitingDelivery := false;
             pendingPromiseResolve := pendingPromiseResolve f;
             sf_result :=
               Some {| ok := false; res_messageId := Some messageId;
                       res_targetAgentId := None;
                       res_error := Some (deliveryErrorMessage error);
                       res_response := None; res_responseData := None;
                       res_responseSuccess := None;
                       res_responseReceivedAt := None |} |})
      else rt
  | None => rt
  end.

(* ------------------------------------------------------------------ *)
(** ** Router: [handleResponse] *)

(** Where [handleResponse] stands after its first synchronous segment. *)
Inductive ResponseStarted :=
| responseReturned (result : ResponseResult)
| responseAwaitingDelivery (deliveryId : string).

(** [handleResponse] up to its [await].  [eventId] and [deliveryId] are
    the ids of the response event and of the message sent back,
    [timestamp] and [deliveryTimestamp] their [Date.now()]s. *)
Definition handleResponse_start (rt : Router) (fromAgentId messageId response : string)
    (success : bool) (error : option string) (data : option JsonObject)
    (eventId deliveryId : string) (timestamp deliveryTimestamp : Z)
    : Router * ResponseStarted :=
  let pending := JSMap.get messageId (pendingMessages rt) in
  let fromAgent := get (registry rt) fromAgentId in
  match fromAgent with
  | None =>
      (rt, responseReturned
             {| delivered := false;
                rr_error := Some "Responding agent not found in registry" |})
  | Some fromAgent =>
      match pending with
      | None =>
          let responseEvent :=
            {| rsp_id := eventId;
               rsp_timestamp := timestamp;
               rsp_sessionId := fromAgentId;
               rsp_cwd := match cwd fromAgent with Some d => d | None => "" end;
               rsp_fromAgentId := fromAgentId;
               rsp_fromAgentName := name fromAgent;
               rsp_toAgentId := "";
               rsp_inResponseTo := messageId;
               rsp_response := response;
               rsp_data := data;
               rsp_success := success;
               rsp_error := error |} in
          let rt := addToHistory rt (agent_message_response responseEvent) in
          let rt := broadcastEvent rt (agent_message_response responseEvent) in
          (rt, responseReturned
                 {| delivered := false;
                    rr_error := Some "No pending message found (may have timed out)" |})
      | Some pending =>
          match get (registry rt) (pm_fromAgentId pending) with
          | None =>
              (PendingMessage_reject rt (pm_messageId pending)
                 "Original sender no longer available",
               responseReturned
                 {| delivered := false;
                    rr_error := Some "Original sender no longer available" |})
          | Some originalSender =>
              let responseEvent :=
                {| rsp_id := eventId;
                   rsp_timestamp := timestamp;
                   rsp_sessionId := pm_fromAgentId pending;
                   rsp_cwd := match cwd originalSender with Some d => d | None => "" end;
                   rsp_fromAgentId := fromAgentId;
                   rsp_fromAgentName := name fromAgent;
                   rsp_toAgentId := pm_fromAgentId pending;
                   rsp_inResponseTo := messageId;
                   rsp_response := response;
                   rsp_data := data;
                   rsp_success := success;
                   rsp_error := error |} in
              let rt := addToHistory rt (agent_message_response responseEvent) in
              let rt := broadcastEvent rt (agent_message_response responseEvent) in
              let responseDeliveryMessage :=
                {| msg_id := deliveryId;
                   msg_timestamp := deliveryTimestamp;
                   msg_sessionId := pm_fromAgentId pending;
                   msg_cwd := match cwd originalSender with Some d => d | None => "" end;
                   msg_fromAgentId := fromAgentId;
                   msg_fromAgentName := name fromAgent;
                   msg_toAgentId := Some (pm_fromAgentId pending);
                   msg_toCapability := None;
                   msg_routing := routing_direct;
                   msg_message :=
                     formatResponseForDelivery response (name fromAgent) messageId
                       success error;
                   msg_context :=
                     Some (responseContext messageId (pm_originalMessage pending)
                             data success error);
                   msg_priority := high;
                   msg_messageId := messageId;
                   msg_expectsResponse := false;
                   msg_responseTimeout := None |} in
              let frame :=
                {| rf_pending := pending; rf_fromAgentId := fromAgentId;
                   rf_fromAgentName := name fromAgent;
                   rf_originalSenderName := name originalSender;
                   rf_messageId := messageId; rf_response := response;
                   rf_success := success; rf_error := error; rf_data := data |} in
              let rt :=
                with_responseFrames rt (JSMap.set deliveryId frame (responseFrames rt)) in
              let rt :=
                startDelivery rt (pm_fromAgentId pending)
                  (agent_message responseDeliveryMessage) in
              (rt, responseAwaitingDelivery deliveryId)
          end
      end
  end.

(** The continuation of [handleResponse] when the delivery to the
    original sender is fulfilled; [now] is [Date.now()]. *)
Definition handleResponse_delivered (rt : Router) (deliveryId : string) (now : Z)
    : Router * option ResponseResult :=
  match JSMap.get deliveryId (responseFrames rt) with
  | Some f =>
      let rt := with_responseFrames rt (JSMap.delete deliveryId (responseFrames rt)) in
      let rt :=
        PendingMessage_resolve rt (pm_messageId (rf_pending f))
          {| ok := true; res_messageId := Some (rf_messageId f);
             res_targetAgentId := Some (pm_toAgentId (rf_pending f));
             res_error := rf_error f;
             res_response := Some (rf_response f);
             res_responseData := rf_data f;
             res_responseSuccess := Some (rf_success f);
             res_responseReceivedAt := Some now |} in
      (rt, Some {| delivered := true; rr_error := None |})
  | None => (rt, None)
  end.

(** The continuation of [handleResponse] when that delivery is
    rejected: the [catch] block. *)
Definition handleResponse_failed (rt : Router) (deliveryId : string)
    (deliveryError : Thrown) : Router * option ResponseResult :=
  match JSMap.get deliveryId (responseFrames rt) with
  | Some f =>
      let errMsg := deliveryErrorMessage deliveryError in
      let rt := with_responseFrames rt (JSMap.delete deliveryId (responseFrames rt)) in
      let rt :=
        PendingMessage_resolve rt (pm_messageId (rf_pending f))
          {| ok := false; res_messageId := Some (rf_messageId f);
             res_targetAgentId := Some (pm_toAgentId (rf_pending f));
             res_error := Some ("Response received but delivery failed: " ++ errMsg);
             res_response := Some (rf_response f);
             res_responseData := rf_data f;
             res_responseSuccess := Some (rf_success f);
             res_responseReceivedAt := None |} in
      (rt, Some {| delivered := false; rr_error := Some errMsg |})
  | None => (rt, None)
  end.

(* ------------------------------------------------------------------ *)
(** ** Router: [broadcast] *)

Definition broadcastTargets (r : AgentRegistry) (fromAgentId : string)
    : list AgentRegistryEntry :=
  filter (fun a => negb (String.eqb (agentId a) fromAgentId) && negb (isOffline a))
         (getMessageableAgents r).

(** [outcome id n] and [random id n] are the delivery callback's
    behaviour and [Math.random()] for attempt [n] of the delivery to
    agent [id].  The deliveries run side by side and share nothing but
    the two counters, which each of them bumps once when it ends. *)
Definition broadcast (rt : Router) (fromAgentId channel message : string)
    (data : option JsonObject) (eventId : string) (timestamp : Z)
    (outcome : string -> nat -> option Thrown) (random : string -> nat -> Q)
    : Router * BroadcastResult :=
  match get (registry rt) fromAgentId with
  | None => (rt, {| sent := 0; failed := 0 |})
  | Some fromAgent =>
      let broadcastEvent_ :=
        {| bc_id := eventId;
           bc_timestamp := timestamp;
           bc_sessionId := fromAgentId;
           bc_cwd := match cwd fromAgent with Some d => d | None => "" end;
           bc_fromAgentId := fromAgentId;
           bc_fromAgentName := name fromAgent;
           bc_channel := channel;
           bc_message := message;
           bc_data := data |} in
      let rt := addToHistory rt (agent_broadcast broadcastEvent_) in
      let rt := broadcastEvent rt (agent_broadcast broadcastEvent_) in
      let targets := broadcastTargets (registry rt) fromAgentId in
      let rt :=
        fold_left (fun rt target =>
                     startDelivery rt (agentId target) (agent_broadcast broadcastEvent_))
                  targets rt in
      let result :=
        fold_left (fun counts target =>
                     match thrown (deliverWithRetry (outcome (agentId target))
                                     (random (agentId target)) 1) with
                     | None => {| sent := S (sent counts); failed := failed counts |}
                     | Some _ => {| sent := sent counts; failed := S (failed counts) |}
                     end)
                  targets {| sent := 0; failed := 0 |} in
      (rt, result)
  end.

(* ------------------------------------------------------------------ *)
(** ** Router: timeouts and shutdown *)

(** The sweep; [now] is [Date.now()].  The loop only deletes entries it
    has reached, so it visits the entries the map held at the start. *)
Definition sweepEntry (now : Z) (rt : Router) (entry : string * PendingMessage)
    : Router :=
  let '(messageId, pending) := entry in
  if pm_timeout pending <? now - pm_sentAt pending then
    let rt :=
      PendingMessage_reject rt (pm_messageId pending)
        (timeoutMessage (pm_timeout pending)) in
    with_pendingMessages rt (JSMap.delete messageId (pendingMessages rt))
  else rt.

Definition checkTimeouts (rt : Router) (now : Z) : Router :=
  fold_left (sweepEntry now) (pendingMessages rt) rt.

Definition clearPending (rt : Router) : Router :=
  let rt :=
    fold_left (fun rt entry =>
                 PendingMessage_reject rt (pm_messageId (snd entry)) "Router cleared")
              (pendingMessages rt) rt in
  with_pendingMessages rt JSMap.empty.

Definition destroy (rt : Router) : Router :=
  clearPending (with_timeoutChecker rt false).

Definition getPendingCount (rt : Router) : nat := JSMap.size (pendingMessages rt).

(* ------------------------------------------------------------------ *)
(** ** Router: executions *)

(** What can happen to a router, one synchronous segment at a time. *)
Inductive Action :=
| call_sendMessage (fromAgentId : string) (request : SendAgentMessageRequest)
    (messageId eventId : string) (timestamp sentAt : Z)
| send_delivered (messageId : string)
| send_failed (messageId : string) (error : Thrown)
| call_handleResponse (fromAgentId messageId response : string) (success : bool)
    (error : option string) (data : option JsonObject)
    (eventId deliveryId : string) (timestamp deliveryTimestamp : Z)
| response_delivered (deliveryId : string) (now : Z)
| response_failed (deliveryId : string) (error : Thrown)
| call_broadcast (fromAgentId channel message : string) (data : option JsonObject)
    (eventId : string) (timestamp : Z)
    (outcome : string -> nat -> option Thrown) (random : string -> nat -> Q)
| sweep (now : Z)
| call_clearPending
| call_destroy
| registry_op (op : RegistryOp).

(** One action.  [randomUUID()] never repeats: a call whose fresh id is
    already in use does not occur, and is shown as a step that changes
    nothing.  The sweep runs only while its timer is armed. *)
Definition step (rt : Router) (a : Action) : Router :=
  match a with
  | call_sendMessage fromAgentId request messageId eventId timestamp sentAt =>
      if JSMap.has messageId (sendFrames rt) then rt
      else fst (sendMessage_start rt fromAgentId request messageId eventId
                  timestamp sentAt)
  | send_delivered messageId => sendMessage_delivered rt messageId
  | send_failed messageId error => sendMessage_failed rt messageId error
  | call_handleResponse fromAgentId messageId response success error data
      eventId deliveryId timestamp deliveryTimestamp =>
      if JSMap.has deliveryId (responseFrames rt) then rt
      else fst (handleResponse_start rt fromAgentId messageId response success
                  error data eventId deliveryId timestamp deliveryTimestamp)
  | response_delivered deliveryId now => fst (handleResponse_delivered rt deliveryId now)
  | response_failed deliveryId error => fst (handleResponse_failed rt deliveryId error)
  | call_broadcast fromAgentId channel message data eventId timestamp
      outcome random =>
      fst (broadcast rt fromAgentId channel message data eventId timestamp
             outcome random)
  | sweep now => if timeoutChecker rt then checkTimeouts rt now else rt
  | call_clearPending => clearPending rt
  | call_destroy => destroy rt
  | registry_op op => with_registry rt (applyOp (registry rt) op)
  end.

Definition run (rt : Router) (actions : list Action) : Router :=
  fold_left step actions rt.

(** The value the promise of the [sendMessage] activation [messageId]
    has been resolved with, if it has been. *)
Definition promiseResult (rt : Router) (messageId : string)
    : option SendAgentMessageResponse :=
  match JSMap.get messageId (sendFrames rt) with
  | Some f => sf_result f
  | None => None
  end.

(** The closure calls an action adds to the log. *)
Definition closuresCalledBy (rt : Router) (a : Action) : list (string * Closure) :=
  skipn (List.length (closureCalls rt)) (closureCalls (step rt a)).

(* ------------------------------------------------------------------ *)
(** ** Scenarios *)

(** A asks B and expects an answer. *)
Definition request_to_B (timeout : Z) : SendAgentMessageRequest :=
  {| req_toAgentId := Some "B"; req_toCapability := None;
     req_message := "run suite"; req_context := None; req_priority := None;
     req_expectsResponse := Some true; req_responseTimeout := Some timeout |}.

(** A's message "m1" is on its way to B, not yet delivered. *)
Definition scenario_sending : Router :=
  fst (sendMessage_start (newRouter scenario_registry) "A" (request_to_B 5000)
         "m1" "e1" 0 0).

(** The message is delivered, B answers, and the answer reaches A. *)
Definition scenario_answered : Router :=
  let rt := sendMessage_delivered scenario_sending "m1" in
  let rt :=
    fst (handleResponse_start rt "B" "m1" "42 passed" true None None
           "e2" "d1" 10 10) in
  fst (handleResponse_delivered rt "d1" 20).

(** B's answer is handled to its end while the delivery of A's message
    is still awaited; that delivery is fulfilled afterwards. *)
Definition scenario_early_answer : Router :=
  let rt :=
    fst (handleResponse_start scenario_sending "B" "m1" "42 passed" true None None
           "e2" "d1" 10 10) in
  let rt := fst (handleResponse_delivered rt "d1" 20) in
  sendMessage_delivered rt "m1".

(** A's message to B has a timeout of 100 ms; the sweep runs while the
    delivery is still awaited, and the delivery is fulfilled afterwards. *)
Definition scenario_early_timeout : Router :=
  let rt :=
    fst (sendMessage_start (newRouter scenario_registry) "A" (request_to_B 100)
           "m1" "e1" 0 0) in
  let rt := checkTimeouts rt 5000 in
  sendMessage_delivered rt "m1".

(** The delivery of A's message to B fails for good. *)
Definition scenario_undelivered : Router :=
  sendMessage_failed scenario_sending "m1" (thrownError "Session not found: B").

(** A's message, with a timeout of 100 ms, is delivered; A waits. *)
Definition scenario_waiting : Router :=
  sendMessage_delivered
    (fst (sendMessage_start (newRouter scenario_registry) "A" (request_to_B 100)
            "m1" "e1" 0 0))
    "m1".

(** The registry of the capability scenario: A, and B the only agent
    with capability "testing". *)
Definition capability_registry : AgentRegistry :=
  register_all newRegistry
    [ ({| reg_agentId := "A"; reg_name := "A"; reg_capabilities := ["general"];
          reg_acceptsMessages := None; reg_metadata := None |},
       {| session_id := "A"; session_name := "A"; session_backend := sdk;
          session_status := working; session_lastActivity := 1;
          session_cwd := None |});
      scenario_agent "B" idle 2 ].

Definition request_testing : SendAgentMessageRequest :=
  {| req_toAgentId := None; req_toCapability := Some "testing";
     req_message := "run suite"; req_context := None; req_priority := None;
     req_expectsResponse := Some true; req_responseTimeout := Some 5000 |}.

(** A asks for "testing", the message is delivered, B answers, and the
    answer reaches A. *)
Definition capability_scenario : Router :=
  run (newRouter capability_registry)
    [ call_sendMessage "A" request_testing "m1" "e1" 0 0;
      send_delivered "m1";
      call_handleResponse "B" "m1" "42 passed" true None None "e2" "d1" 10 10;
      response_delivered "d1" 20 ].





(* ------------------------------------------------------------------ *)
(** ** Properties of router states *)

(** No pending message of the activation [messageId] is left, either in
    the map or in the hands of a [handleResponse] that is under way:
    nothing can call its closures any more. *)
Definition unreferenced (rt : Router) (messageId : string) : Prop :=
  (forall k p, In (k, p) (pendingMessages rt) -> pm_messageId p <> messageId)
  /\ (forall k f, In (k, f) (responseFrames rt) ->
        pm_messageId (rf_pending f) <> messageId).

(** The activation [messageId] of [sendMessage] is past its [await]. *)
Definition pastDelivery (rt : Router) (messageId : string) : Prop :=
  exists f, JSMap.get messageId (sendFrames rt) = Some f
            /\ sf_awaitingDelivery f = false.

(** Every pending message is stored under its own [messageId] and
    belongs to an activation of [sendMessage]. *)
Definition pending_wf (rt : Router) : Prop :=
  (forall k p, In (k, p) (pendingMessages rt) -> pm_messageId p = k)
  /\ (forall k p, In (k, p) (pendingMessages rt) ->
        JSMap.has k (sendFrames rt) = true).


(** What a step other than a new [sendMessage] does to the map: it
    only takes entries away. *)
Definition shrinks (rt rt' : Router) : Prop :=
  (forall k p, In (k, p) (pendingMessages rt') -> In (k, p) (pendingMessages rt))
  /\ (forall k, JSMap.has k (sendFrames rt) = true ->
                JSMap.has k (sendFrames rt') = true)
  /\ (forall k, JSMap.get k (pendingMessages rt) = None ->
                JSMap.get k (pendingMessages rt') = None).

(** The array [inferCapabilities] builds before it removes duplicates,
    as a function of its six conditions. *)
Definition pushed_capabilities (f b d t o s : bool) : list AgentCapability :=
  ((((((["general"] ++ (if f then ["frontend"] else []))
       ++ (if b then ["backend"] else []))
      ++ (if d then ["database"] else []))
     ++ (if t then ["testing"] else []))
    ++ (if o then ["devops"] else []))
   ++ (if s then ["security"] else []))%list.

(* ------------------------------------------------------------------ *)
(** ** Registry: the rest of the interface *)

(** [changeCallbacks.indexOf(callback)], then [splice(index, 1)] when
    the callback is found: its first occurrence goes. *)
Fixpoint remove_first (cb : CallbackId) (l : list CallbackId) : list CallbackId :=
  match l with
  | [] => []
  | x :: l' => if Nat.eqb x cb then l' else x :: remove_first cb l'
  end.

(** The function [onChange] returns, called. *)
Definition unsubscribe (r : AgentRegistry) (cb : CallbackId) : AgentRegistry :=
  {| agents := agents r; changeCallbacks := remove_first cb (changeCallbacks r);
     notifications := notifications r |}.

(** The operations after which [notifyChange] runs: [unregister] and
    [updateStatus] only for a registered agent, [onChange] never. *)
Definition notifies (r : AgentRegistry) (op : RegistryOp) : bool :=
  match op with
  | op_unregister id => JSMap.has id (agents r)
  | op_updateStatus id _ _ => JSMap.has id (agents r)
  | op_onChange _ => false
  | _ => true
  end.

(** An entry after [updateStatus]. *)
Definition withStatus (e : AgentRegistryEntry) (st : SessionStatus) (now : Z)
    : AgentRegistryEntry :=
  {| agentId := agentId e; name := name e; capabilities := capabilities e;
     status := st; backend := backend e; cwd := cwd e; lastActivity := now;
     acceptsMessages := acceptsMessages e; metadata := metadata e |}.

(** An entry after [updateFromSession]. *)
Definition withSession (e : AgentRegistryEntry) (session : ManagedSession)
    : AgentRegistryEntry :=
  {| agentId := agentId e; name := name e; capabilities := capabilities e;
     status := session_status session; backend := backend e;
     cwd := session_cwd session; lastActivity := session_lastActivity session;
     acceptsMessages := acceptsMessages e; metadata := metadata e |}.

(* ------------------------------------------------------------------ *)
(** ** Router: the rest of the interface *)

(** [request.expectsResponse] as a condition. *)
Definition expectsResponse (request : SendAgentMessageRequest) : bool :=
  match req_expectsResponse request with
  | Some b => b
  | None => false
  end.

(** [request.responseTimeout ?? 300000] *)
Definition timeoutOf (request : SendAgentMessageRequest) : Z :=
  match req_responseTimeout request with
  | Some t => t
  | None => 300000
  end.

(** The pending message [sendMessage] registers. *)
Definition pendingFor (fromAgentId fromAgentName targetAgentId targetAgentName : string)
    (request : SendAgentMessageRequest) (messageId : string) (sentAt : Z)
    : PendingMessage :=
  {| pm_messageId := messageId;
     pm_fromAgentId := fromAgentId;
     pm_fromAgentName := fromAgentName;
     pm_toAgentId := targetAgentId;
     pm_toAgentName := targetAgentName;
     pm_sentAt := sentAt;
     pm_timeout := timeoutOf request;
     pm_originalMessage := req_message request;
     pm_deliveryAttempts := 1;
     pm_responseReceived := false |}.

(** The frame of an activation of [sendMessage] at its [await]. *)
Definition frameAtAwait (messageId targetAgentId : string) (expects : bool)
    : SendFrame :=
  {| sf_messageId := messageId; sf_targetAgentId := targetAgentId;
     sf_expectsResponse := expects; sf_awaitingDelivery := true;
     pendingPromiseResolve := false; sf_result := None |}.

(** [getHistory()]: a copy of the history. *)
Definition getHistory (rt : Router) : list RouterEvent := messageHistory rt.

Record PendingDetail := {
  pd_messageId : string;
  pd_from : string;
  pd_to : string;
  pd_waitingFor : Z;
  pd_timeout : Z;
}.

(** [getPendingDetails()]; [now] is [Date.now()]. *)
Definition getPendingDetails (rt : Router) (now : Z) : list PendingDetail :=
  map (fun p =>
         {| pd_messageId := slice8 (pm_messageId p);
            pd_from := pm_fromAgentName p;
            pd_to := pm_toAgentName p;
            pd_waitingFor := now - pm_sentAt p;
            pd_timeout := pm_timeout p |})
      (JSMap.values (pendingMessages rt)).

(** The last [n] elements of a list. *)
Definition lastn {A} (n : nat) (l : list A) : list A :=
  skipn (List.length l - n) l.

(** The result a rejected pending request is resolved with. *)
Definition rejection (messageId targetAgentId message : string)
    : SendAgentMessageResponse :=
  {| ok := false; res_messageId := Some messageId;
     res_targetAgentId := Some targetAgentId;
     res_error := Some message;
     res_response := None; res_responseData := None;
     res_responseSuccess := None; res_responseReceivedAt := None |}.

(** The sender of [messageId] waits on its promise. *)
Definition senderWaits (rt : Router) (messageId : string) : Prop :=
  exists f, JSMap.get messageId (sendFrames rt) = Some f
            /\ pendingPromiseResolve f = true
            /\ sf_result f = None.

(** A later state of the frame of an activation of [sendMessage]: the
    target and the request stay, an assigned resolver stays assigned,
    and a result stays what it is. *)
Definition frameAdvances (f f' : SendFrame) : Prop :=
  sf_targetAgentId f' = sf_targetAgentId f
  /\ sf_expectsResponse f' = sf_expectsResponse f
  /\ (pendingPromiseResolve f = true -> pendingPromiseResolve f' = true)
  /\ (forall result, sf_result f = Some result -> sf_result f' = Some result)
  /\ (sf_awaitingDelivery f = true -> f' = f).

(** A's request for "testing" is on its way, to B. *)
Definition scenario_capability_sending : Router :=
  fst (sendMessage_start (newRouter capability_registry) "A" request_testing
         "m1" "e1" 0 0).

(** The sweep at [now] takes this pending message away. *)
Definition expired (now : Z) (p : PendingMessage) : bool :=
  pm_timeout p <? now - pm_sentAt p.

(** The events that consume the pending message [mid] in the state
    [rt]: the delivery of a response to it comes to its end, fulfilled
    or not; the sweep runs when its time is up; the router is cleared
    or shut down; its own delivery fails for good; a response to it
    finds that the original sender has left the registry.  (The
    delivery id of a new call of [handleResponse] is fresh.) *)
Definition consumingEvent (rt : Router) (mid : string) (a : Action) : Prop :=
  match a with
  | response_delivered deliveryId _ | response_failed deliveryId _ =>
      exists f, JSMap.get deliveryId (responseFrames rt) = Some f
                /\ rf_messageId f = mid
  | sweep now =>
      timeoutChecker rt = true
      /\ exists p, JSMap.get mid (pendingMessages rt) = Some p
                   /\ pm_timeout p < now - pm_sentAt p
  | call_clearPending | call_destroy => True
  | send_failed messageId _ =>
      messageId = mid
      /\ exists f, JSMap.get mid (sendFrames rt) = Some f
                   /\ sf_awaitingDelivery f = true
  | call_handleResponse fromAgentId messageId _ _ _ _ _ deliveryId _ _ =>
      messageId = mid
      /\ JSMap.has deliveryId (responseFrames rt) = false
      /\ get (registry rt) fromAgentId <> None
      /\ exists p, JSMap.get mid (pendingMessages rt) = Some p
                   /\ get (registry rt) (pm_fromAgentId p) = None
  | _ => False
  end.

(** A pending message and the activation of [sendMessage] that created
    it: the caller asked for a response and has no result yet. *)
Definition entry_ok (p : PendingMessage) (f : SendFrame) : Prop :=
  sf_expectsResponse f = true
  /\ sf_result f = None
  /\ sf_targetAgentId f = pm_toAgentId p.

(** An activation of [sendMessage]: until its delivery ends it has
    neither a promise nor a result, and a result names its message. *)
Definition frame_ok (k : string) (f : SendFrame) : Prop :=
  sf_messageId f = k
  /\ (sf_awaitingDelivery f = true ->
      pendingPromiseResolve f = false /\ sf_result f = None)
  /\ (forall result, sf_result f = Some result ->
                     res_messageId result = Some k).

(** The state a router keeps between two segments. *)
Definition router_wf (rt : Router) : Prop :=
  NoDup (JSMap.keys (pendingMessages rt))
  /\ (forall k p, In (k, p) (pendingMessages rt) ->
        pm_messageId p = k
        /\ exists f, JSMap.get k (sendFrames rt) = Some f /\ entry_ok p f)
  /\ (forall k f, JSMap.get k (sendFrames rt) = Some f -> frame_ok k f)
  /\ (forall d f, JSMap.get d (responseFrames rt) = Some f ->
        rf_messageId f = pm_messageId (rf_pending f)).

(** The original sender of "m1" has left the registry while it waits. *)
Definition scenario_sender_gone : Router :=
  run (newRouter scenario_registry)
    [ call_sendMessage "A" (request_to_B 5000) "m1" "e1" 0 0;
      send_delivered "m1";
      registry_op (op_unregister "A") ].

(** The history holds the last [maxHistorySize] events the observers
    were sent. *)
Definition history_inv (rt : Router) : Prop :=
  messageHistory rt = lastn maxHistorySize (broadcasted rt).

(* ------------------------------------------------------------------ *)
(** ** The server: the callers of the registry and of the router *)

(** [syncAgentRegistry()]: every managed session, in the order of the
    session map, updates its agent. *)
Definition syncAgentRegistry (managedSessions : JSMap.t ManagedSession)
    (r : AgentRegistry) : AgentRegistry :=
  fold_left updateFromSession (JSMap.values managedSessions) r.

(** The fields of a managed session that [deliverAgentMessage] reads. *)
Record DeliverySession := {
  ds_backend : SessionBackend;
  ds_tmuxSession : option string;
}.

(** Where [deliverAgentMessage] hands the prompt over. *)
Inductive Handover :=
| toSdkManager
| toTmux (tmuxSession : string).

(** [deliverAgentMessage], the delivery callback of the router, up to
    its [await]: the error it throws, or the backend it hands the
    prompt to.  [sdkManager] says whether the SDK manager exists. *)
Definition deliverAgentMessage (managedSessions : JSMap.t DeliverySession)
    (sdkManager : bool) (agentId : string) : Thrown + Handover :=
  match JSMap.get agentId managedSessions with
  | None => inl (thrownError ("Session not found: " ++ agentId))
  | Some session =>
      match ds_backend session with
      | sdk =>
          if negb sdkManager then inl (thrownError "SDK manager not initialized")
          else inr toSdkManager
      | tmux =>
          match truthy (ds_tmuxSession session) with
          | None => inl (thrownError ("tmux session not found for: " ++ agentId))
          | Some tmuxSession => inr (toTmux tmuxSession)
          end
      end
  end.

(** The callback as [deliverWithRetry] sees it: [managedSessions n] is
    the session map at attempt [n], [handover n] what the backend does
    with the prompt at that attempt. *)
Definition deliveryOutcome (managedSessions : nat -> JSMap.t DeliverySession)
    (sdkManager : bool) (agentId : string) (handover : nat -> option Thrown)
    (attempt : nat) : option Thrown :=
  match deliverAgentMessage (managedSessions attempt) sdkManager agentId with
  | inl error => Some error
  | inr _ => handover attempt
  end.

(** Two sessions, of which "B" has changed since it was registered. *)
Definition scenario_sessions : JSMap.t ManagedSession :=
  [ ("B", {| session_id := "B"; session_name := "B renamed"; session_backend := sdk;
             session_status := offline; session_lastActivity := 99;
             session_cwd := Some "/srv" |});
    ("D", snd (scenario_agent "D" idle 7)) ].


(* ------------------------------------------------------------------ *)
(** ** Facts about strings *)

Lemma toLowerCase_cons (c1 : ascii) (s1 : string) :
  toLowerCase (String c1 s1)
  = match s1 with
    | EmptyString => String (lowerAscii c1) EmptyString
    | String c2 s2 =>
        if isByte 196 c1 && isByte 176 c2 then
          String "i" (String (ascii_of_nat 204) (String (ascii_of_nat 135)
                                                   (toLowerCase s2)))
        else
          match s2 with
          | EmptyString => String (lowerAscii c1) (toLowerCase s1)
          | String c3 s3 =>
              if isByte 226 c1 && isByte 132 c2 && isByte 170 c3 then
                String "k" (toLowerCase s3)
              else String (lowerAscii c1) (toLowerCase s1)
          end
    end.
Proof. reflexivity. Qed.

Lemma isByte_ascii (n : nat) (a : ascii) :
  (nat_of_ascii a < 128)%nat -> (128 <= n)%nat -> isByte n a = false.
Proof. intros H1 H2. unfold isByte. apply Nat.eqb_neq. lia. Qed.

(** An ASCII character is lower-cased by itself. *)
Lemma toLowerCase_ascii (a : ascii) (s : string) :
  (nat_of_ascii a < 128)%nat ->
  toLowerCase (String a s) = String (lowerAscii a) (toLowerCase s).
Proof.
  intros H. rewrite toLowerCase_cons.
  destruct s as [| c2 s2]; [reflexivity |].
  rewrite (isByte_ascii 196 a H) by lia. cbn [andb].
  destruct s2 as [| c3 s3]; [reflexivity |].
  rewrite (isByte_ascii 226 a H) by lia. reflexivity.
Qed.

(** What precedes an ASCII character does not change how the text
    from that character on is lower-cased. *)
Lemma toLowerCase_before (a : ascii) (x : string) :
  (nat_of_ascii a < 128)%nat ->
  forall pre, exists P,
    toLowerCase (pre ++ String a x) = P ++ toLowerCase (String a x).
Proof.
  intros Ha pre.
  assert (G : forall n pre, (String.length pre <= n)%nat ->
              exists P, toLowerCase (pre ++ String a x)
                        = P ++ toLowerCase (String a x)).
  { clear pre. induction n as [| n IH]; intros pre Hlen.
    - destruct pre; [now exists "" | cbn in Hlen; lia].
    - destruct pre as [| c1 pre1]; [now exists "" |].
      cbn [String.length] in Hlen.
      assert (Hstep : exists P,
                String (lowerAscii c1) (toLowerCase (pre1 ++ String a x))
                = P ++ toLowerCase (String a x)).
      { destruct (IH pre1 ltac:(lia)) as [P HP].
        exists (String (lowerAscii c1) P). cbn [append]. now rewrite HP. }
      cbn [append]. rewrite toLowerCase_cons.
      destruct pre1 as [| c2 pre2].
      + cbn [append]. cbn [append] in Hstep.
        rewrite (isByte_ascii 176 a Ha), andb_false_r by lia.
        destruct x as [| c3 x3]; [exact Hstep |].
        rewrite (isByte_ascii 132 a Ha), andb_false_r by lia. exact Hstep.
      + cbn [append]. cbn [append String.length] in Hstep, Hlen.
        destruct (isByte 196 c1 && isByte 176 c2).
        * destruct (IH pre2 ltac:(lia)) as [P HP]. rewrite HP.
          now exists (String "i" (String (ascii_of_nat 204)
                                   (String (ascii_of_nat 135) P))).
        * destruct pre2 as [| c3 pre3].
          -- cbn [append]. cbn [append] in Hstep.
             rewrite (isByte_ascii 170 a Ha), andb_false_r by lia. exact Hstep.
          -- cbn [append]. cbn [append String.length] in Hstep, Hlen.
             destruct (isByte 226 c1 && isByte 132 c2 && isByte 170 c3);
               [| exact Hstep].
             destruct (IH pre3 ltac:(lia)) as [P HP]. rewrite HP.
             now exists (String "k" P). }
  now apply (G (String.length pre)).
Qed.

Lemma sameLetter_lower (a b : ascii) :
  sameLetter a b -> (nat_of_ascii b < 128)%nat -> lowerAscii b = b ->
  (nat_of_ascii a < 128)%nat /\ lowerAscii a = b.
Proof.
  intros [-> | [Hb E]] Hlt Hlow; [now split |].
  split; [lia |]. unfold lowerAscii.
  assert (L : (Nat.leb 65 (nat_of_ascii a) && Nat.leb (nat_of_ascii a) 90)%bool
              = true).
  { apply andb_true_iff. split; apply Nat.leb_le; lia. }
  rewrite L, E. apply ascii_nat_embedding.
Qed.

Lemma sameUpToCase_lower (mid kw post : string) :
  lowerAsciiOnly kw = true -> sameUpToCase mid kw ->
  toLowerCase (mid ++ post) = kw ++ toLowerCase post.
Proof.
  revert kw. induction mid as [| a mid IH]; intros [| b kw] Hkw H;
    try contradiction; [reflexivity |].
  cbn [lowerAsciiOnly] in Hkw.
  apply andb_true_iff in Hkw. destruct Hkw as [Hb Hkw].
  apply andb_true_iff in Hb. destruct Hb as [Hlt Hlow].
  apply Nat.ltb_lt in Hlt. apply Ascii.eqb_eq in Hlow.
  destruct H as [Hl H].
  destruct (sameLetter_lower a b Hl Hlt Hlow) as [Ha E].
  cbn [append]. rewrite (toLowerCase_ascii a _ Ha), E. f_equal. now apply IH.
Qed.

Lemma prefix_app (kw s : string) : String.prefix kw (kw ++ s) = true.
Proof.
  induction kw as [| c kw IH]; simpl; [now destruct s |].
  destruct (ascii_dec c c) as [_ | ne]; [exact IH | now elim ne].
Qed.

Lemma includes_prefix (s kw : string) :
  String.prefix kw s = true -> includes s kw = true.
Proof. intros H. destruct s; cbn [includes]; rewrite H; reflexivity. Qed.

Lemma includes_app (pre kw post : string) :
  includes (pre ++ kw ++ post) kw = true.
Proof.
  induction pre as [| c pre IH]; simpl.
  - apply includes_prefix, prefix_app.
  - rewrite IH. apply orb_true_r.
Qed.

(** A keyword that occurs in the name up to letter case occurs in its
    lower case. *)
Lemma occurs_includes (nm kw : string) :
  kw <> "" -> lowerAsciiOnly kw = true ->
  occursUpToCase nm kw -> includes (toLowerCase nm) kw = true.
Proof.
  intros Hne Hkw (pre & mid & post & -> & H).
  destruct kw as [| b kw]; [now elim Hne |].
  destruct mid as [| a mid]; [contradiction |].
  pose proof (sameUpToCase_lower _ _ post Hkw H) as E.
  cbn [lowerAsciiOnly] in Hkw.
  apply andb_true_iff in Hkw. destruct Hkw as [Hb _].
  apply andb_true_iff in Hb. destruct Hb as [Hlt Hlow].
  apply Nat.ltb_lt in Hlt. apply Ascii.eqb_eq in Hlow.
  destruct H as [Hl _].
  destruct (sameLetter_lower a b Hl Hlt Hlow) as [Ha _].
  cbn [append] in *.
  destruct (toLowerCase_before a (mid ++ post) Ha pre) as [P HP].
  rewrite HP, E. exact (includes_app P (String b kw) (toLowerCase post)).
Qed.

Lemma array_includes_In (xs : list string) (x : string) :
  array_includes xs x = true <-> In x xs.
Proof.
  unfold array_includes. rewrite existsb_exists. split.
  - intros (y & Hy & E). apply String.eqb_eq in E. now subst.
  - intros H. exists x. split; [exact H | apply String.eqb_refl].
Qed.

Lemma dedupe_from_In (seen xs : list string) (x : string) :
  In x (dedupe_from seen xs) <-> In x xs /\ ~ In x seen.
Proof.
  revert seen. induction xs as [| y xs IH]; intros seen; simpl.
  - tauto.
  - destruct (array_includes seen y) eqn:E.
    + apply array_includes_In in E. rewrite IH. split.
      * tauto.
      * intros [[-> | H] Hn]; tauto.
    + assert (Hy : ~ In y seen).
      { intros H. apply array_includes_In in H. congruence. }
      simpl. rewrite IH. simpl. split.
      * intros [-> | [H Hn]]; [tauto |]. split; [tauto |]. tauto.
      * intros [[-> | H] Hn]; [tauto |].
        destruct (string_dec y x) as [-> | ne]; [tauto |]. right. tauto.
Qed.

Lemma dedupe_from_NoDup (seen xs : list string) : NoDup (dedupe_from seen xs).
Proof.
  revert seen. induction xs as [| y xs IH]; intros seen; simpl.
  - constructor.
  - destruct (array_includes seen y); [apply IH |].
    constructor; [| apply IH].
    rewrite dedupe_from_In. simpl. tauto.
Qed.

Lemma dedupe_In (xs : list string) (x : string) : In x (dedupe xs) <-> In x xs.
Proof. unfold dedupe. rewrite dedupe_from_In. simpl. tauto. Qed.

(* ------------------------------------------------------------------ *)
(** ** Facts about [JSMap] *)

Lemma JSMap_get_set_eq {V} (k : string) (v : V) (m : JSMap.t V) :
  JSMap.get k (JSMap.set k v m) = Some v.
Proof.
  induction m as [| [k' v'] m IH]; simpl.
  - now rewrite String.eqb_refl.
  - destruct (String.eqb k k') eqn:E; simpl; rewrite ?String.eqb_refl, ?E; auto.
Qed.

Lemma JSMap_get_set_ne {V} (k k' : string) (v : V) (m : JSMap.t V) :
  k <> k' -> JSMap.get k' (JSMap.set k v m) = JSMap.get k' m.
Proof.
  intros ne. induction m as [| [k0 v0] m IH]; simpl.
  - destruct (String.eqb k' k) eqn:E; [apply String.eqb_eq in E; congruence | reflexivity].
  - destruct (String.eqb k k0) eqn:E; simpl.
    + apply String.eqb_eq in E. subst k0.
      destruct (String.eqb k' k) eqn:E'; [apply String.eqb_eq in E'; congruence | reflexivity].
    + now rewrite IH.
Qed.

Lemma JSMap_get_delete_eq {V} (k : string) (m : JSMap.t V) :
  JSMap.get k (JSMap.delete k m) = None.
Proof.
  induction m as [| [k' v'] m IH]; simpl; [reflexivity |].
  destruct (String.eqb k k') eqn:E; simpl; [exact IH | now rewrite E].
Qed.

Lemma JSMap_get_delete_ne {V} (k k' : string) (m : JSMap.t V) :
  k <> k' -> JSMap.get k' (JSMap.delete k m) = JSMap.get k' m.
Proof.
  intros ne. induction m as [| [k0 v0] m IH]; simpl; [reflexivity |].
  destruct (String.eqb k k0) eqn:E; simpl.
  - apply String.eqb_eq in E. subst k0.
    destruct (String.eqb k' k) eqn:E'; [apply String.eqb_eq in E'; congruence | exact IH].
  - now rewrite IH.
Qed.

Lemma JSMap_delete_absent {V} (k : string) (m : JSMap.t V) :
  JSMap.get k m = None -> JSMap.delete k m = m.
Proof.
  induction m as [| [k' v'] m IH]; simpl; [reflexivity |].
  destruct (String.eqb k k') eqn:E; [discriminate |].
  intros H. simpl. now rewrite (IH H).
Qed.

Lemma JSMap_has_get {V} (k : string) (m : JSMap.t V) :
  JSMap.has k m = false <-> JSMap.get k m = None.
Proof. unfold JSMap.has. destruct (JSMap.get k m); split; congruence. Qed.

(* ------------------------------------------------------------------ *)
(** ** Facts about sorting *)

Section Sorting.

Context {A : Type} (cmp : A -> A -> Z).
Hypothesis cmp_trans :
  forall a b c, cmp a b <= 0 -> cmp b c <= 0 -> cmp a c <= 0.
Hypothesis cmp_total : forall a b, cmp a b <= 0 \/ cmp b a <= 0.

Lemma sort_insert_hd (x : A) (l : list A) :
  hd_error (sort_insert cmp x l) = Some x
  \/ (hd_error (sort_insert cmp x l) = hd_error l
      /\ exists y, hd_error l = Some y /\ cmp y x <= 0).
Proof.
  destruct l as [| y l]; simpl; [now left |].
  destruct (cmp x y <=? 0) eqn:E; [now left |].
  right. split; [reflexivity |]. exists y. split; [reflexivity |].
  apply Z.leb_gt in E. destruct (cmp_total x y); lia.
Qed.

Lemma sort_insert_length (x : A) (l : list A) :
  List.length (sort_insert cmp x l) = S (List.length l).
Proof.
  induction l as [| y l IH]; simpl; [reflexivity |].
  destruct (cmp x y <=? 0); simpl; [reflexivity | now rewrite IH].
Qed.

Lemma array_sort_length (l : list A) :
  List.length (array_sort cmp l) = List.length l.
Proof.
  induction l as [| x l IH]; simpl; [reflexivity |].
  now rewrite sort_insert_length, <- IH.
Qed.

Lemma array_sort_hd (l : list A) (a : A) :
  hd_error (array_sort cmp l) = Some a ->
  In a l /\ forall b, In b l -> cmp a b <= 0.
Proof.
  revert a. induction l as [| x l IH]; intros a; simpl; [discriminate |].
  fold (array_sort cmp l).
  destruct (array_sort cmp l) as [| y s] eqn:E.
  - simpl. intros [= <-].
    assert (l = []) as ->.
    { pose proof (array_sort_length l) as L. rewrite E in L.
      destruct l; [reflexivity | discriminate]. }
    split; [now left |]. intros b [<- | []].
    destruct (cmp_total x x); assumption.
  - destruct (IH y eq_refl) as [Hin Hmin]. simpl.
    destruct (cmp x y <=? 0) eqn:C; simpl; intros [= <-].
    + apply Z.leb_le in C. split; [now left |].
      intros b [<- | Hb].
      * destruct (cmp_total x x); assumption.
      * eapply cmp_trans; [exact C | now apply Hmin].
    + apply Z.leb_gt in C. split; [now right |].
      intros b [<- | Hb]; [| now apply Hmin].
      destruct (cmp_total y x); lia.
Qed.

End Sorting.

Lemma compareCandidates_le (a b : AgentRegistryEntry) :
  compareCandidates a b <= 0 <-> candidate_le a b.
Proof.
  unfold compareCandidates, candidate_le.
  destruct (statusPriority (status a) - statusPriority (status b) =? 0) eqn:E; simpl.
  - apply Z.eqb_eq in E. lia.
  - apply Z.eqb_neq in E. lia.
Qed.

Lemma compareCandidates_trans (a b c : AgentRegistryEntry) :
  compareCandidates a b <= 0 -> compareCandidates b c <= 0 ->
  compareCandidates a c <= 0.
Proof. rewrite !compareCandidates_le. unfold candidate_le. lia. Qed.

Lemma compareCandidates_total (a b : AgentRegistryEntry) :
  compareCandidates a b <= 0 \/ compareCandidates b a <= 0.
Proof. rewrite !compareCandidates_le. unfold candidate_le. lia. Qed.

(* ------------------------------------------------------------------ *)
(** ** Registry: target selection *)

Lemma findBestForCapability_hd (r : AgentRegistry) (cap : AgentCapability)
    (ex : option string) :
  findBestForCapability r cap ex
  = hd_error (array_sort compareCandidates (candidatesFor r cap ex)).
Proof.
  unfold findBestForCapability.
  destruct (candidatesFor r cap ex); reflexivity.
Qed.

Lemma notExcluded_spec (ex : option string) (a : AgentRegistryEntry) :
  notExcluded ex a = true <-> ex <> Some (agentId a).
Proof.
  unfold notExcluded. destruct ex as [x |]; [| split; [discriminate | reflexivity]].
  rewrite negb_true_iff, String.eqb_neq. split; congruence.
Qed.

Lemma candidate_le_spec (a b : AgentRegistryEntry) :
  candidate_le a b <-> atLeastAsGood a b.
Proof.
  unfold candidate_le, atLeastAsGood, rankedBefore, statusPriority.
  destruct (status a), (status b); split; intros [H | [H1 H2]];
    try (left; lia); try (left; exact I); try (right; split; [reflexivity | lia]);
    try lia; try discriminate; try contradiction.
Qed.

Lemma filter_nil_iff {A} (f : A -> bool) (l : list A) :
  filter f l = [] <-> forall x, In x l -> f x = false.
Proof.
  induction l as [| y l IH]; simpl; [split; [intros _ x [] | reflexivity] |].
  destruct (f y) eqn:E; split.
  - discriminate.
  - intros H. specialize (H y (or_introl eq_refl)). congruence.
  - intros H x [<- | Hx]; [exact E | now apply IH].
  - intros H. apply IH. intros x Hx. apply H. now right.
Qed.

(** C5. [findBestForCapability] returns nothing exactly when every
    member of [findByCapability] is the excluded agent; otherwise it
    returns a member that is not the excluded agent and that is at
    least as good as every other such member: its status comes
    earlier in "idle, working, waiting, offline", or is the same with
    activity at least as recent.  With A (idle, 5), B (working, 10)
    and C (idle, 8) it selects C, and A when C is excluded; a working
    agent is preferred to waiting ones of more recent activity, and
    among waiting ones the most recent is taken. *)
Theorem findBestForCapability_minimal :
  forall (r : AgentRegistry) (cap : AgentCapability) (ex : option string),
    (findBestForCapability r cap ex = None
     <-> forall a, In a (findByCapability r cap) -> ex = Some (agentId a))
    /\ (forall a, findBestForCapability r cap ex = Some a ->
          In a (findByCapability r cap)
          /\ ex <> Some (agentId a)
          /\ forall b, In b (findByCapability r cap) -> ex <> Some (agentId b) ->
                       atLeastAsGood a b)
    /\ option_map agentId (findBestForCapability scenario_registry "testing" None)
       = Some "C"
    /\ option_map agentId
         (findBestForCapability scenario_registry "testing" (Some "C"))
       = Some "A"
    /\ option_map agentId
         (findBestForCapability scenario_registry "testing" (Some "B"))
       = Some "C"
    /\ option_map agentId (findBestForCapability ranking_registry "testing" None)
       = Some "K"
    /\ option_map agentId
         (findBestForCapability ranking_registry "testing" (Some "K"))
       = Some "W2"
    /\ findBestForCapability
         (register_all newRegistry [scenario_agent "A" idle 5]) "testing" (Some "A")
       = None.
Proof.
  intros r cap ex. rewrite findBestForCapability_hd. split; [| split].
  - pose proof (array_sort_length compareCandidates (candidatesFor r cap ex)) as L.
    assert (E : hd_error (array_sort compareCandidates (candidatesFor r cap ex))
                = None
                <-> candidatesFor r cap ex = []).
    { destruct (candidatesFor r cap ex) as [| c cs] eqn:E.
      - split; reflexivity.
      - destruct (array_sort compareCandidates (c :: cs)); simpl in *;
          split; discriminate. }
    rewrite E. unfold candidatesFor. rewrite filter_nil_iff.
    split; intros H a Ha; specialize (H a Ha).
    + destruct ex as [x |]; [| discriminate H]. cbn in H.
      apply negb_false_iff, String.eqb_eq in H. now subst.
    + destruct (notExcluded ex a) eqn:N; [| reflexivity].
      apply notExcluded_spec in N. now elim N.
  - intros a Ha.
    apply (array_sort_hd compareCandidates compareCandidates_trans
             compareCandidates_total) in Ha.
    destruct Ha as [Hin Hmin]. unfold candidatesFor in Hin.
    apply filter_In in Hin. destruct Hin as [Hin Hex].
    split; [exact Hin |]. split; [now apply notExcluded_spec |].
    intros b Hb Hbex. apply candidate_le_spec, compareCandidates_le, Hmin.
    unfold candidatesFor. apply filter_In. split; [exact Hb |].
    now apply notExcluded_spec.
  - repeat split; vm_compute; reflexivity.
Qed.

(* ------------------------------------------------------------------ *)
(** ** Registry: capability inference *)

Lemma inferCapabilities_pushed (session : ManagedSession) :
  let nameLower := toLowerCase (session_name session) in
  inferCapabilities session
  = dedupe (pushed_capabilities
      (includes nameLower "frontend" || includes nameLower "ui"
       || includes nameLower "react" || includes nameLower "vue")
      (includes nameLower "backend" || includes nameLower "api"
       || includes nameLower "server")
      (includes nameLower "database" || includes nameLower "db"
       || includes nameLower "sql" || includes nameLower "postgres")
      (includes nameLower "test" || includes nameLower "spec"
       || includes nameLower "e2e")
      (includes nameLower "devops" || includes nameLower "deploy"
       || includes nameLower "ci" || includes nameLower "docker")
      (includes nameLower "security" || includes nameLower "auth"
       || includes nameLower "secure")).
Proof.
  intros nameLower. unfold inferCapabilities. fold nameLower.
  unfold pushed_capabilities.
  repeat match goal with
         | |- context [if ?c then _ else _] =>
             match c with
             | context [includes] => generalize c; intros []
             end
         end; reflexivity.
Qed.

Lemma pushed_capabilities_In (f b d t o s : bool) (cap : AgentCapability) :
  In cap (pushed_capabilities f b d t o s) <->
  cap = "general" \/ (f = true /\ cap = "frontend")
  \/ (b = true /\ cap = "backend") \/ (d = true /\ cap = "database")
  \/ (t = true /\ cap = "testing") \/ (o = true /\ cap = "devops")
  \/ (s = true /\ cap = "security").
Proof.
  unfold pushed_capabilities. rewrite !in_app_iff.
  destruct f, b, d, t, o, s; simpl; intuition congruence.
Qed.

Ltac keyword_hit :=
  match goal with
  | H : includes _ _ = true |- _ =>
      rewrite H; rewrite ?orb_true_r; reflexivity
  end.

(** C9. The capability list of [registerFromSession] always contains
    "general", has no duplicates, and holds the capability of every
    listed rule one of whose keywords occurs in the display name with
    each letter small or capital; every matching rule applies.  So
    "FRONTEND Docker" receives frontend and devops, a name that
    matches all six rules receives all six capabilities, and the
    Kelvin sign counts as a "k". *)
Theorem registerFromSession_capabilities :
  forall (r : AgentRegistry) (session : ManagedSession),
    let caps := capabilities (snd (registerFromSession r session)) in
    In "general" caps
    /\ NoDup caps
    /\ (forall kws cap kw,
          In (kws, cap) listed_rules -> In kw kws ->
          occursUpToCase (session_name session) kw -> In cap caps)
    /\ capabilities (snd (registerFromSession r (session_named "FRONTEND Docker")))
       = ["general"; "frontend"; "devops"]
    /\ capabilities (snd (registerFromSession r
                            (session_named "React API for SQL e2e CI auth")))
       = ["general"; "frontend"; "backend"; "database"; "testing"; "devops";
          "security"]
    /\ capabilities (snd (registerFromSession r (session_named kelvin_name)))
       = ["general"; "backend"]
    /\ capabilities (snd (registerFromSession r (session_named "notes")))
       = ["general"].
Proof.
  intros r session. cbn [registerFromSession snd capabilities].
  split; [| split; [| split]].
  - rewrite inferCapabilities_pushed. apply dedupe_In.
    apply pushed_capabilities_In. now left.
  - apply dedupe_from_NoDup.
  - intros kws cap kw Hrule Hkw Hc.
    rewrite inferCapabilities_pushed. apply dedupe_In.
    apply pushed_capabilities_In. right.
    unfold listed_rules in Hrule. simpl in Hrule.
    repeat (destruct Hrule as [Hrule | Hrule];
            [injection Hrule as <- <-; simpl in Hkw;
             repeat (destruct Hkw as [<- | Hkw]; [| try contradiction]) |]);
      try contradiction.
    all: apply occurs_includes in Hc; [| discriminate | reflexivity].
    all: first
      [ left; split; [keyword_hit | reflexivity]
      | right; left; split; [keyword_hit | reflexivity]
      | right; right; left; split; [keyword_hit | reflexivity]
      | right; right; right; left; split; [keyword_hit | reflexivity]
      | right; right; right; right; left; split; [keyword_hit | reflexivity]
      | right; right; right; right; right; split; [keyword_hit | reflexivity] ].
  - repeat split; vm_compute; reflexivity.
Qed.

(* ------------------------------------------------------------------ *)
(** ** Registry: operations on an unknown agent *)

Lemma with_agents_same (r : AgentRegistry) : with_agents r (agents r) = r.
Proof. now destruct r. Qed.

(** C10. On an [agentId] that is not registered, [updateStatus] leaves
    the registry as it is and calls no change callback, and
    [unregister] returns [false] and calls no change callback.  On a
    registered one both call every subscribed callback once, with the
    agent list as it is after the mutation. *)
Theorem unknown_agent_is_silent :
  forall (r : AgentRegistry) (id : string),
    (get r id = None ->
       (forall st now, updateStatus r id st now = r)
       /\ unregister r id = (r, false))
    /\ (get r id <> None ->
         (forall st now,
            let r' := updateStatus r id st now in
            notifications r'
            = (notifications r
               ++ map (fun cb => (cb, getAll r')) (changeCallbacks r))%list)
         /\ (let r' := fst (unregister r id) in
             snd (unregister r id) = true
             /\ get r' id = None
             /\ notifications r'
                = (notifications r
                   ++ map (fun cb => (cb, getAll r')) (changeCallbacks r))%list)).
Proof.
  intros r id. unfold get. split.
  - intros H. split.
    + intros st now. unfold updateStatus. now rewrite H.
    + unfold unregister.
      assert (Hh : JSMap.has id (agents r) = false) by now apply JSMap_has_get.
      rewrite Hh, JSMap_delete_absent by exact H.
      now rewrite with_agents_same.
  - intros H. split.
    + intros st now. unfold updateStatus.
      destruct (JSMap.get id (agents r)) as [e |]; [reflexivity | congruence].
    + unfold unregister, JSMap.has.
      destruct (JSMap.get id (agents r)) as [e |]; [| congruence].
      cbn. split; [reflexivity |]. split; [| reflexivity].
      apply JSMap_get_delete_eq.
Qed.

(* ------------------------------------------------------------------ *)
(** ** Router: delivery with retry *)

Lemma deliverWithRetry_body (outcome : nat -> option Thrown) (random : nat -> Q)
    (attempt : nat) :
  deliverWithRetry outcome random attempt
  = match outcome attempt with
    | None => {| steps := [invoke attempt]; thrown := None |}
    | Some error =>
        if le_lt_dec RETRY_CONFIG.maxAttempts attempt
        then {| steps := [invoke attempt]; thrown := Some error |}
        else after_step [invoke attempt; sleep (retryDelay attempt (random attempt))]
               (deliverWithRetry outcome random (S attempt))
    end.
Proof.
  funelim (deliverWithRetry outcome random attempt).
  - now rewrite Heq.
  - rewrite Heq0, Heq. reflexivity.
  - rewrite Heq0, Heq. reflexivity.
Qed.

(** Every call ends: it invokes the callback at least once and at most
    [maxAttempts] times when it starts at attempt 1. *)
Lemma deliverWithRetry_total (outcome : nat -> option Thrown) (random : nat -> Q) :
  (1 <= List.length (invocations (deliverWithRetry outcome random 1)) <= 3)%nat.
Proof.
  rewrite (deliverWithRetry_body _ _ 1).
  destruct (outcome 1%nat); cbn; [| lia].
  rewrite (deliverWithRetry_body _ _ 2).
  destruct (outcome 2%nat); cbn; [| lia].
  rewrite (deliverWithRetry_body _ _ 3).
  destruct (outcome 3%nat); cbn; lia.
Qed.

(* ------------------------------------------------------------------ *)
(** ** Numbers: rounding keeps the order *)

Lemma pow2_pos (z : Z) : (0 < pow2 z)%Q.
Proof. apply Qpower_0_lt. reflexivity. Qed.

Lemma pow2_add (a b : Z) : (pow2 (a + b) == pow2 a * pow2 b)%Q.
Proof. apply Qpower_plus. discriminate. Qed.

Lemma pow2_le (a b : Z) : a <= b -> (pow2 a <= pow2 b)%Q.
Proof. intros H. apply Qpower_le_compat_l; [exact H | discriminate]. Qed.

Lemma pow2_lt (a b : Z) : a < b -> (pow2 a < pow2 b)%Q.
Proof. intros H. apply Qpower_lt_compat_l; [exact H | reflexivity]. Qed.

Lemma pow2_cancel (a : Z) : (pow2 a * pow2 (- a) == 1)%Q.
Proof. rewrite <- pow2_add, Z.add_opp_diag_r. reflexivity. Qed.

Lemma pow2_Z (a : Z) : 0 <= a -> (pow2 a == inject_Z (2 ^ a))%Q.
Proof. intros H. unfold pow2. now rewrite Zpower_Qpower. Qed.

Lemma floorLog2_spec (x : Q) :
  (0 < x)%Q -> (pow2 (floorLog2 x) <= x < pow2 (floorLog2 x + 1))%Q.
Proof.
  intros Hx. unfold floorLog2.
  destruct x as [n d]. 
  assert (Hn : 0 < n) by (unfold Qlt in Hx; cbn in Hx; lia).
  cbn [Qnum Qden].
  set (ln := Z.log2 n). set (ld := Z.log2 (Zpos d)).
  destruct (Z.log2_spec n Hn) as [Ln Un]. fold ln in Ln, Un.
  destruct (Z.log2_spec (Zpos d) eq_refl) as [Ld Ud]. fold ld in Ld, Ud.
  assert (Hln : 0 <= ln) by apply Z.log2_nonneg.
  assert (Hld : 0 <= ld) by apply Z.log2_nonneg.
  assert (X : ((n # d) * inject_Z (Zpos d) == inject_Z n)%Q).
  { unfold Qeq, Qmult, inject_Z. cbn. lia. }
  assert (Dpos : (0 < inject_Z (Zpos d))%Q) by reflexivity.
  assert (Ln' : (pow2 ln <= inject_Z n)%Q)
    by (rewrite pow2_Z by lia; now rewrite <- Zle_Qle).
  assert (Un' : (inject_Z n < pow2 (ln + 1))%Q).
  { rewrite pow2_Z by lia. rewrite <- Zlt_Qlt. now rewrite <- Z.add_1_r in Un. }
  assert (Ld' : (pow2 ld <= inject_Z (Zpos d))%Q)
    by (rewrite pow2_Z by lia; now rewrite <- Zle_Qle).
  assert (Ud' : (inject_Z (Zpos d) < pow2 (ld + 1))%Q).
  { rewrite pow2_Z by lia. rewrite <- Zlt_Qlt. now rewrite <- Z.add_1_r in Ud. }
  assert (Up : (n # d < pow2 (ln - ld + 1))%Q).
  { assert (E : (pow2 (ln + 1) == pow2 (ln - ld + 1) * pow2 ld)%Q).
    { rewrite <- pow2_add. now replace (ln - ld + 1 + ld) with (ln + 1) by lia. }
    pose proof (pow2_pos (ln - ld + 1)). pose proof (pow2_pos ld).
    apply Qnot_le_lt. intros C.
    assert ((pow2 (ln - ld + 1) * pow2 ld <= (n # d) * inject_Z (Zpos d))%Q).
    { apply Qle_trans with (pow2 (ln - ld + 1) * inject_Z (Z.pos d))%Q.
      - apply Qmult_le_l; assumption.
      - apply Qmult_le_r; assumption. }
    rewrite <- E, X in H1. apply (Qlt_not_le _ _ Un'). exact H1. }
  assert (Lo : (pow2 (ln - ld - 1) < n # d)%Q).
  { assert (E : (pow2 ln == pow2 (ln - ld - 1) * pow2 (ld + 1))%Q).
    { rewrite <- pow2_add. now replace (ln - ld - 1 + (ld + 1)) with ln by lia. }
    pose proof (pow2_pos (ln - ld - 1)). pose proof (pow2_pos (ld + 1)).
    apply Qnot_le_lt. intros C.
    assert (((n # d) * inject_Z (Zpos d) < pow2 (ln - ld - 1) * pow2 (ld + 1))%Q).
    { apply Qle_lt_trans with (pow2 (ln - ld - 1) * inject_Z (Z.pos d))%Q.
      - apply Qmult_le_r; assumption.
      - apply Qmult_lt_l; assumption. }
    rewrite <- E, X in H1. apply (Qlt_not_le _ _ H1). exact Ln'. }
  destruct (Qle_bool (pow2 (ln - ld)) (n # d)) eqn:T.
  - apply Qle_bool_iff in T. split; assumption.
  - split; [now apply Qlt_le_weak |].
    replace (ln - ld - 1 + 1) with (ln - ld) by lia.
    apply Qnot_le_lt. intros C. apply Qle_bool_iff in C. congruence.
Qed.

(** The three facts that fix [lastPlace]. *)
Lemma lastPlace_upper (x : Q) : (0 < x)%Q -> (x < pow2 (lastPlace x + 53))%Q.
Proof.
  intros Hx. destruct (floorLog2_spec x Hx) as [_ U].
  apply Qlt_le_trans with (1 := U). apply pow2_le. unfold lastPlace. lia.
Qed.

Lemma lastPlace_lower (x : Q) :
  (0 < x)%Q -> -1074 < lastPlace x -> (pow2 (lastPlace x + 52) <= x)%Q.
Proof.
  intros Hx H. destruct (floorLog2_spec x Hx) as [L _].
  apply Qle_trans with (2 := L). apply pow2_le. unfold lastPlace in *. lia.
Qed.

Lemma lastPlace_mono (x y : Q) :
  (0 < x)%Q -> (x <= y)%Q -> lastPlace x <= lastPlace y.
Proof.
  intros Hx Hxy. destruct (Z_le_gt_dec (lastPlace x) (lastPlace y)) as [H | H];
    [exact H | exfalso].
  assert (Hy : (0 < y)%Q) by (eapply Qlt_le_trans; eassumption).
  assert (M : -1074 <= lastPlace y) by (unfold lastPlace; lia).
  pose proof (lastPlace_lower x Hx ltac:(lia)) as L.
  pose proof (lastPlace_upper y Hy) as U.
  assert (P : (pow2 (lastPlace y + 53) <= pow2 (lastPlace x + 52))%Q)
    by (apply pow2_le; lia).
  apply (Qlt_irrefl x).
  eapply Qle_lt_trans; [exact Hxy |]. eapply Qlt_le_trans; [exact U |].
  eapply Qle_trans; eassumption.
Qed.

Lemma roundHalfEven_near (q : Q) :
  Qfloor q <= roundHalfEven q <= Qfloor q + 1.
Proof.
  unfold roundHalfEven.
  destruct (q - inject_Z (Qfloor q) ?= 1 # 2)%Q; [destruct (Z.even _) | |]; lia.
Qed.

Lemma roundHalfEven_mono (q q' : Q) :
  (q <= q')%Q -> roundHalfEven q <= roundHalfEven q'.
Proof.
  intros H. pose proof (Qfloor_resp_le _ _ H) as F.
  pose proof (roundHalfEven_near q). pose proof (roundHalfEven_near q').
  destruct (Z.eq_dec (Qfloor q) (Qfloor q')) as [E | ne]; [| lia].
  unfold roundHalfEven. rewrite <- E.
  destruct (Qcompare_spec (q - inject_Z (Qfloor q)) (1 # 2)) as [C | C | C];
    destruct (Qcompare_spec (q' - inject_Z (Qfloor q)) (1 # 2)) as [C' | C' | C'];
    try destruct (Z.even (Qfloor q)); try lia; exfalso; lra.
Qed.

Lemma roundHalfEven_Z (z : Z) : roundHalfEven (inject_Z z) = z.
Proof.
  unfold roundHalfEven. rewrite Qfloor_Z.
  destruct (Qcompare_spec (inject_Z z - inject_Z z) (1 # 2)) as [C | C | C];
    [exfalso; lra | reflexivity | exfalso; lra].
Qed.

Lemma roundPositive_mono (x y : Q) :
  (0 < x)%Q -> (x <= y)%Q -> (roundPositive x <= roundPositive y)%Q.
Proof.
  intros Hx Hxy.
  assert (Hy : (0 < y)%Q) by (eapply Qlt_le_trans; eassumption).
  pose proof (lastPlace_mono x y Hx Hxy) as M.
  unfold roundPositive.
  set (ex := lastPlace x) in *. set (ey := lastPlace y) in *.
  destruct (Z.eq_dec ex ey) as [E | ne].
  - rewrite <- E. apply Qmult_le_r; [apply pow2_pos |].
    rewrite <- Zle_Qle. apply roundHalfEven_mono.
    apply Qmult_le_r; [apply pow2_pos | exact Hxy].
  - assert (Lt' : ex < ey) by lia.
    apply Qle_trans with (pow2 (ex + 53)).
    + (* the result for x stays within its binade *)
      assert (B : (x * pow2 (- ex) <= inject_Z (2 ^ 53))%Q).
      { rewrite <- pow2_Z by lia.
        assert (E : (pow2 53 == pow2 (ex + 53) * pow2 (- ex))%Q).
        { rewrite <- pow2_add. now replace (ex + 53 + - ex) with 53 by lia. }
        rewrite E. apply Qmult_le_r; [apply pow2_pos |].
        apply Qlt_le_weak. now apply lastPlace_upper. }
      apply roundHalfEven_mono in B. rewrite roundHalfEven_Z in B.
      rewrite Zle_Qle in B. rewrite <- pow2_Z in B by lia.
      rewrite (Z.add_comm ex 53), pow2_add.
      apply Qmult_le_r; [apply pow2_pos | exact B].
    + apply Qle_trans with (pow2 (ey + 52)); [apply pow2_le; lia |].
      assert (B : (inject_Z (2 ^ 52) <= y * pow2 (- ey))%Q).
      { rewrite <- pow2_Z by lia.
        assert (E : (pow2 52 == pow2 (ey + 52) * pow2 (- ey))%Q).
        { rewrite <- pow2_add. now replace (ey + 52 + - ey) with 52 by lia. }
        rewrite E. apply Qmult_le_r; [apply pow2_pos |].
        apply lastPlace_lower; [exact Hy |].
        assert (-1074 <= ex) by (unfold ex, lastPlace; lia). lia. }
      apply roundHalfEven_mono in B. rewrite roundHalfEven_Z in B.
      rewrite Zle_Qle in B. rewrite <- pow2_Z in B by lia.
      rewrite (Z.add_comm ey 52), pow2_add.
      apply Qmult_le_r; [apply pow2_pos | exact B].
Qed.

Lemma roundPositive_nonneg (x : Q) : (0 < x)%Q -> (0 <= roundPositive x)%Q.
Proof.
  intros Hx. unfold roundPositive.
  apply Qmult_le_0_compat; [| apply Qlt_le_weak, pow2_pos].
  change 0%Q with (inject_Z 0). rewrite <- Zle_Qle.
  rewrite <- (roundHalfEven_Z 0). apply roundHalfEven_mono.
  apply Qmult_le_0_compat; apply Qlt_le_weak; [exact Hx | apply pow2_pos].
Qed.

(** Rounding to the nearest binary64 number keeps the order. *)
Lemma roundDouble_mono (x y : Q) :
  (x <= y)%Q -> (roundDouble x <= roundDouble y)%Q.
Proof.
  intros H. unfold roundDouble. rewrite !Qred_correct.
  destruct (Qcompare_spec x 0) as [X | X | X];
    destruct (Qcompare_spec y 0) as [Y | Y | Y].
  - apply Qle_refl.
  - exfalso. lra.
  - now apply roundPositive_nonneg.
  - assert (0 <= roundPositive (- x))%Q by (apply roundPositive_nonneg; lra). lra.
  - assert (roundPositive (- y) <= roundPositive (- x))%Q
      by (apply roundPositive_mono; lra).
    lra.
  - assert (0 <= roundPositive (- x))%Q by (apply roundPositive_nonneg; lra).
    assert (0 <= roundPositive y)%Q by now apply roundPositive_nonneg.
    lra.
  - exfalso. lra.
  - exfalso. lra.
  - now apply roundPositive_mono.
Qed.

Lemma roundDouble_comp (x y : Q) : (x == y)%Q -> roundDouble x = roundDouble y.
Proof.
  intros H.
  assert (L : (roundDouble x <= roundDouble y)%Q)
    by (apply roundDouble_mono; rewrite H; apply Qle_refl).
  assert (U : (roundDouble y <= roundDouble x)%Q)
    by (apply roundDouble_mono; rewrite H; apply Qle_refl).
  unfold roundDouble in *. rewrite !Qred_correct in L, U.
  apply Qred_complete. now apply Qle_antisym.
Qed.

(** A number between two binary64 numbers is rounded to a number
    between them. *)
Lemma roundDouble_between (a b x : Q) :
  roundDouble a = a -> roundDouble b = b ->
  (a <= x <= b)%Q -> (a <= roundDouble x <= b)%Q.
Proof.
  intros Ha Hb [L U]. split.
  - apply Qle_trans with (roundDouble a); [rewrite Ha; apply Qle_refl |].
    now apply roundDouble_mono.
  - apply Qle_trans with (roundDouble b); [| rewrite Hb; apply Qle_refl].
    now apply roundDouble_mono.
Qed.

(** [Math.random() * 1000] *)
Lemma jitter_range (random : Q) :
  (0 <= random < 1)%Q -> (0 <= roundDouble (random * 1000) <= 1000)%Q.
Proof.
  intros H.
  apply (roundDouble_between 0 1000); [reflexivity | reflexivity | lra].
Qed.

Lemma retryDelay_1 (random : Q) :
  (0 <= random < 1)%Q ->
  (retryDelay 1 random
   == Qmin (roundDouble (1000 * 2 ^ 0 + roundDouble (random * 1000))) 10000
   /\ 1000 <= retryDelay 1 random <= 2000)%Q.
Proof.
  intros H. pose proof (jitter_range random H) as J.
  unfold retryDelay, RETRY_CONFIG.baseDelayMs, RETRY_CONFIG.maxDelayMs.
  replace (roundDouble (1000 * roundDouble (Qpower 2 (Z.of_nat 1 - 1))))
    with 1000%Q by (vm_compute; reflexivity).
  rewrite (roundDouble_comp (1000 * 2 ^ 0 + roundDouble (random * 1000))
             (1000 + roundDouble (random * 1000)))
    by (change (2 ^ 0)%Q with 1%Q; ring).
  split; [reflexivity |].
  assert (B : (1000 <= roundDouble (1000 + roundDouble (random * 1000)) <= 2000)%Q).
  { apply (roundDouble_between 1000 2000);
      [vm_compute; reflexivity | vm_compute; reflexivity | lra]. }
  destruct (Q.min_spec (roundDouble (1000 + roundDouble (random * 1000))) 10000)
    as [[L E] | [L E]]; rewrite E; lra.
Qed.

Lemma retryDelay_2 (random : Q) :
  (0 <= random < 1)%Q ->
  (retryDelay 2 random
   == Qmin (roundDouble (1000 * 2 ^ 1 + roundDouble (random * 1000))) 10000
   /\ 2000 <= retryDelay 2 random <= 3000)%Q.
Proof.
  intros H. pose proof (jitter_range random H) as J.
  unfold retryDelay, RETRY_CONFIG.baseDelayMs, RETRY_CONFIG.maxDelayMs.
  replace (roundDouble (1000 * roundDouble (Qpower 2 (Z.of_nat 2 - 1))))
    with 2000%Q by (vm_compute; reflexivity).
  rewrite (roundDouble_comp (1000 * 2 ^ 1 + roundDouble (random * 1000))
             (2000 + roundDouble (random * 1000)))
    by (change (2 ^ 1)%Q with 2%Q; ring).
  split; [reflexivity |].
  assert (B : (2000 <= roundDouble (2000 + roundDouble (random * 1000)) <= 3000)%Q).
  { apply (roundDouble_between 2000 3000);
      [vm_compute; reflexivity | vm_compute; reflexivity | lra]. }
  destruct (Q.min_spec (roundDouble (2000 + roundDouble (random * 1000))) 10000)
    as [[L E] | [L E]]; rewrite E; lra.
Qed.

(** C2, as the code has it.  When the delivery callback fails at every
    invocation, [deliverWithRetry] invokes it exactly three times and
    is rejected with the third failure.  The wait before the second
    attempt is [min(1000 * 2^0 + jitter, 10000)] and lies in
    [1000, 2000]; the wait before the third is
    [min(1000 * 2^1 + jitter, 10000)] and lies in [2000, 3000]; the
    jitter is [Math.random() * 1000] and lies in [0, 1000].  The sums
    and products are binary64 operations, and the upper ends are
    reached: with [Math.random()] at [1 - 2^-53] the first wait is
    2000, and with [1 - 2^-52] the second is 3000. *)
Theorem deliverWithRetry_always_failing
    (outcome : nat -> option Thrown) (random : nat -> Q) (error : nat -> Thrown)
    (Hfail : forall n, outcome n = Some (error n))
    (Hrandom : forall n, (0 <= random n < 1)%Q) :
  let run := deliverWithRetry outcome random 1 in
  let jitter := fun n => roundDouble (random n * 1000) in
  invocations run = [1; 2; 3]%nat
  /\ thrown run = Some (error 3%nat)
  /\ (exists d1 d2,
        delays run = [d1; d2]
        /\ (d1 == Qmin (roundDouble (1000 * 2 ^ 0 + jitter 1%nat)) 10000)%Q
        /\ (d2 == Qmin (roundDouble (1000 * 2 ^ 1 + jitter 2%nat)) 10000)%Q
        /\ (0 <= jitter 1%nat <= 1000)%Q
        /\ (0 <= jitter 2%nat <= 1000)%Q
        /\ (1000 <= d1 <= 2000)%Q
        /\ (2000 <= d2 <= 3000)%Q)
  /\ retryDelay 1 (1 - (1 # 2 ^ 53)) = 2000%Q
  /\ retryDelay 2 (1 - (1 # 2 ^ 52)) = 3000%Q.
Proof.
  cbv zeta.
  assert (Hends : retryDelay 1 (1 - (1 # 2 ^ 53)) = 2000%Q
                  /\ retryDelay 2 (1 - (1 # 2 ^ 52)) = 3000%Q)
    by (split; vm_compute; reflexivity).
  revert Hends. generalize (retryDelay 1 (1 - (1 # 2 ^ 53))).
  generalize (retryDelay 2 (1 - (1 # 2 ^ 52))). intros top2 top1 Hends.
  rewrite (deliverWithRetry_body _ _ 1), Hfail. cbn.
  rewrite (deliverWithRetry_body _ _ 2), Hfail. cbn.
  rewrite (deliverWithRetry_body _ _ 3), Hfail. cbn.
  split; [reflexivity |]. split; [reflexivity |]. split; [| exact Hends].
  exists (retryDelay 1 (random 1%nat)), (retryDelay 2 (random 2%nat)).
  split; [reflexivity |].
  destruct (retryDelay_1 (random 1%nat) (Hrandom 1%nat)) as [E1 B1].
  destruct (retryDelay_2 (random 2%nat) (Hrandom 2%nat)) as [E2 B2].
  split; [exact E1 |]. split; [exact E2 |].
  split; [apply jitter_range, Hrandom |].
  split; [apply jitter_range, Hrandom |].
  split; assumption.
Qed.

Lemma deliverWithRetry_always_failing_witness :
  let run := deliverWithRetry (fun _ => Some thrownOther) (fun _ => (1 # 2)%Q) 1 in
  let jitter := fun n : nat => roundDouble ((1 # 2) * 1000) in
  invocations run = [1; 2; 3]%nat
  /\ thrown run = Some thrownOther
  /\ (exists d1 d2,
        delays run = [d1; d2]
        /\ (d1 == Qmin (roundDouble (1000 * 2 ^ 0 + jitter 1%nat)) 10000)%Q
        /\ (d2 == Qmin (roundDouble (1000 * 2 ^ 1 + jitter 2%nat)) 10000)%Q
        /\ (0 <= jitter 1%nat <= 1000)%Q
        /\ (0 <= jitter 2%nat <= 1000)%Q
        /\ (1000 <= d1 <= 2000)%Q
        /\ (2000 <= d2 <= 3000)%Q)
  /\ retryDelay 1 (1 - (1 # 2 ^ 53)) = 2000%Q
  /\ retryDelay 2 (1 - (1 # 2 ^ 52)) = 3000%Q.
Proof.
  apply (deliverWithRetry_always_failing
           (fun _ => Some thrownOther) (fun _ => (1 # 2)%Q) (fun _ => thrownOther)).
  - reflexivity.
  - intros n. split; [discriminate | reflexivity].
Defined.

(** C2, as the claim words it, fails: without jitter the wait before
    the third attempt is 2000 ms, which is below 3000. *)
Lemma third_attempt_delay_is_not_in_3000_4000 :
  delays (deliverWithRetry (fun _ => Some thrownOther) (fun _ => 0%Q) 1)
  = [1000%Q; 2000%Q]
  /\ ~ (3000 <= 2000 /\ 2000 < 4000)%Q.
Proof.
  split; [vm_compute; reflexivity |]. intros [H _]. now apply H.
Qed.

(* ------------------------------------------------------------------ *)
(** ** Router: validation in [sendMessage] *)

(** A request names a target agent only with a non-empty [toAgentId]:
    the empty string counts as none, as an absent one does. *)
Lemma empty_toAgentId_is_not_a_target (r : AgentRegistry) (fromAgentId : string)
    (request : SendAgentMessageRequest) :
  req_toAgentId request = Some "" -> req_toCapability request = None ->
  resolveTarget r fromAgentId request
  = inr (failure "Must specify either toAgentId or toCapability").
Proof. intros H1 H2. unfold resolveTarget. now rewrite H1, H2. Qed.

(** C6. Every validation failure of [sendMessage] is a returned result
    [{ok: false, error}], with the router left as it was: an unknown
    sender; then, with [toAgentId] given, an unknown target, a target
    that does not accept messages, an offline target, tested in this
    order; with only [toCapability] given, no best agent for it other
    than the sender; with neither given, the missing target.  "Given"
    is the source's test of the field as a condition. *)
Theorem sendMessage_validation_failures :
  forall (rt : Router) (fromAgentId : string) (request : SendAgentMessageRequest)
         (messageId eventId : string) (timestamp sentAt : Z),
    let out :=
      sendMessage_start rt fromAgentId request messageId eventId timestamp sentAt in
    let refused message := (rt, sendReturned (failure message)) in
    (forall message, ok (failure message) = false
                     /\ res_error (failure message) = Some message)
    /\ (get (registry rt) fromAgentId = None ->
        out = refused "Sender agent not found in registry")
    /\ (get (registry rt) fromAgentId <> None ->
        (forall target,
           truthy (req_toAgentId request) = Some target ->
           (get (registry rt) target = None ->
            out = refused ("Target agent not found: " ++ target))
           /\ (forall t, get (registry rt) target = Some t ->
                 acceptsMessages t = false ->
                 out = refused ("Target agent does not accept messages: " ++ target))
           /\ (forall t, get (registry rt) target = Some t ->
                 acceptsMessages t = true -> status t = offline ->
                 out = refused ("Target agent is offline: " ++ target)))
        /\ (forall toCapability,
              truthy (req_toAgentId request) = None ->
              truthy (req_toCapability request) = Some toCapability ->
              findBestForCapability (registry rt) toCapability (Some fromAgentId)
              = None ->
              out = refused ("No agent found with capability: " ++ toCapability))
        /\ (truthy (req_toAgentId request) = None ->
            truthy (req_toCapability request) = None ->
            out = refused "Must specify either toAgentId or toCapability")).
Proof.
  intros rt fromAgentId request messageId eventId timestamp sentAt.
  cbv zeta. unfold sendMessage_start, resolveTarget.
  split; [intros message; split; reflexivity |].
  split; [intros ->; reflexivity |].
  intros Hsender.
  destruct (get (registry rt) fromAgentId) as [fromAgent |]; [| congruence].
  split; [| split].
  - intros target ->. split; [| split].
    + intros ->. reflexivity.
    + intros t -> ->. reflexivity.
    + intros t -> -> Hoff. unfold isOffline. rewrite Hoff. reflexivity.
  - intros toCapability -> -> ->. reflexivity.
  - intros -> ->. reflexivity.
Qed.

(* ------------------------------------------------------------------ *)
(** ** Router: history *)

Lemma addToHistory_last (rt : Router) (event : RouterEvent) :
  exists older, messageHistory (addToHistory rt event) = (older ++ [event])%list.
Proof.
  unfold addToHistory. cbn [messageHistory].
  destruct (Nat.ltb maxHistorySize (List.length (messageHistory rt ++ [event])))
    eqn:E.
  - destruct (messageHistory rt) as [| e h].
    + discriminate E.
    + exists h. reflexivity.
  - now exists (messageHistory rt).
Qed.

Lemma addToHistory_bounded (rt : Router) (event : RouterEvent) :
  (List.length (messageHistory rt) <= maxHistorySize ->
   List.length (messageHistory (addToHistory rt event)) <= maxHistorySize)%nat.
Proof.
  intros H. unfold addToHistory. cbn [messageHistory].
  destruct (Nat.ltb maxHistorySize (List.length (messageHistory rt ++ [event])))
    eqn:E.
  - destruct (messageHistory rt) as [| e h].
    + discriminate E.
    + cbn [app tl]. rewrite length_app. cbn [List.length] in *. lia.
  - apply Nat.ltb_ge in E. exact E.
Qed.

(* ------------------------------------------------------------------ *)
(** ** Router: broadcast *)






(* ------------------------------------------------------------------ *)
(** ** Router: how the operations touch the state *)

Lemma JSMap_get_In {V} (k : string) (v : V) (m : JSMap.t V) :
  JSMap.get k m = Some v -> In (k, v) m.
Proof.
  induction m as [| [k' v'] m IH]; simpl; [discriminate |].
  destruct (String.eqb k k') eqn:E.
  - apply String.eqb_eq in E. intros [= ->]. left. now subst.
  - intros H. right. now apply IH.
Qed.

Lemma JSMap_In_set {V} (k k0 : string) (v v0 : V) (m : JSMap.t V) :
  In (k, v) (JSMap.set k0 v0 m) -> (k, v) = (k0, v0) \/ In (k, v) m.
Proof.
  induction m as [| [k' v'] m IH]; simpl.
  - intros [H | []]. now left.
  - destruct (String.eqb k0 k'); simpl.
    + intros [H | H]; [now left | right; now right].
    + intros [H | H]; [right; now left |].
      destruct (IH H); [now left | right; now right].
Qed.

Lemma JSMap_In_delete {V} (k k0 : string) (v : V) (m : JSMap.t V) :
  In (k, v) (JSMap.delete k0 m) -> In (k, v) m /\ k <> k0.
Proof.
  unfold JSMap.delete. rewrite filter_In. simpl. intros [H E]. split; [exact H |].
  intros ->. now rewrite String.eqb_refl in E.
Qed.

Lemma JSMap_get_delete_None {V} (k k0 : string) (m : JSMap.t V) :
  JSMap.get k m = None -> JSMap.get k (JSMap.delete k0 m) = None.
Proof.
  intros H. destruct (string_dec k0 k) as [-> | ne].
  - apply JSMap_get_delete_eq.
  - now rewrite JSMap_get_delete_ne.
Qed.

Lemma JSMap_has_set {V} (k k0 : string) (v : V) (m : JSMap.t V) :
  JSMap.has k m = true -> JSMap.has k (JSMap.set k0 v m) = true.
Proof.
  unfold JSMap.has. destruct (string_dec k0 k) as [-> | ne].
  - now rewrite JSMap_get_set_eq.
  - now rewrite JSMap_get_set_ne.
Qed.

Lemma JSMap_has_true {V} (k : string) (m : JSMap.t V) :
  JSMap.has k m = true <-> exists v, JSMap.get k m = Some v.
Proof.
  unfold JSMap.has. destruct (JSMap.get k m) as [v |]; split.
  - now exists v.
  - reflexivity.
  - discriminate.
  - intros [v H]. discriminate.
Qed.

(** Reading a field through the functions that rebuild the record. *)
Ltac fields :=
  cbn [registry pendingMessages messageHistory timeoutChecker broadcasted
       deliveries sendFrames responseFrames closureCalls
       with_registry with_pendingMessages with_sendFrames with_responseFrames
       with_timeoutChecker addToHistory broadcastEvent startDelivery logClosure
       fst snd] in *.

Lemma inFrame_fields (rt : Router) (m : string) (act : SendFrame -> SendFrame) :
  pendingMessages (inFrame rt m act) = pendingMessages rt
  /\ responseFrames (inFrame rt m act) = responseFrames rt
  /\ closureCalls (inFrame rt m act) = closureCalls rt
  /\ registry (inFrame rt m act) = registry rt
  /\ timeoutChecker (inFrame rt m act) = timeoutChecker rt.
Proof.
  unfold inFrame. destruct (JSMap.get m (sendFrames rt)); repeat split.
Qed.

Lemma inFrame_get_eq (rt : Router) (m : string) (act : SendFrame -> SendFrame) :
  JSMap.get m (sendFrames (inFrame rt m act))
  = option_map act (JSMap.get m (sendFrames rt)).
Proof.
  unfold inFrame. destruct (JSMap.get m (sendFrames rt)) eqn:E; fields.
  - now rewrite JSMap_get_set_eq.
  - now rewrite E.
Qed.

Lemma inFrame_get_ne (rt : Router) (m k : string) (act : SendFrame -> SendFrame) :
  m <> k ->
  JSMap.get k (sendFrames (inFrame rt m act)) = JSMap.get k (sendFrames rt).
Proof.
  intros ne. unfold inFrame. destruct (JSMap.get m (sendFrames rt)); fields.
  - now rewrite JSMap_get_set_ne.
  - reflexivity.
Qed.

Lemma inFrame_has (rt : Router) (m k : string) (act : SendFrame -> SendFrame) :
  JSMap.has k (sendFrames (inFrame rt m act)) = JSMap.has k (sendFrames rt).
Proof.
  unfold JSMap.has. destruct (string_dec m k) as [-> | ne].
  - rewrite inFrame_get_eq. now destruct (JSMap.get k (sendFrames rt)).
  - now rewrite inFrame_get_ne.
Qed.

Lemma resolve_fields (rt : Router) (m : string) (result : SendAgentMessageResponse) :
  let rt' := PendingMessage_resolve rt m result in
  responseFrames rt' = responseFrames rt
  /\ closureCalls rt' = (closureCalls rt ++ [(m, closure_resolve)])%list
  /\ registry rt' = registry rt
  /\ timeoutChecker rt' = timeoutChecker rt.
Proof.
  cbv zeta. unfold PendingMessage_resolve. fields.
  match goal with
  | |- context [inFrame ?r m ?act] =>
      destruct (inFrame_fields r m act) as (_ & R & C & G & T)
  end.
  rewrite R, C, G, T. repeat split.
Qed.

Lemma reject_fields (rt : Router) (m message : string) :
  let rt' := PendingMessage_reject rt m message in
  responseFrames rt' = responseFrames rt
  /\ closureCalls rt' = (closureCalls rt ++ [(m, closure_reject)])%list
  /\ registry rt' = registry rt
  /\ timeoutChecker rt' = timeoutChecker rt
  /\ pendingMessages rt' = JSMap.delete m (pendingMessages rt).
Proof.
  cbv zeta. unfold PendingMessage_reject. fields.
  match goal with
  | |- context [inFrame ?r m ?act] =>
      destruct (inFrame_fields r m act) as (P & R & C & G & T)
  end.
  rewrite P, R, C, G, T. repeat split.
Qed.

Lemma resolve_pending_In (rt : Router) (m : string) (result : SendAgentMessageResponse)
    (k : string) (p : PendingMessage) :
  In (k, p) (pendingMessages (PendingMessage_resolve rt m result)) ->
  k <> m /\ In (k, p) (pendingMessages rt).
Proof.
  unfold PendingMessage_resolve. fields.
  match goal with
  | |- context [inFrame ?r m ?act] =>
      destruct (inFrame_fields r m act) as (P & _)
  end.
  rewrite P. fields. intros H. apply JSMap_In_delete in H. destruct H as [H ne].
  split; [exact ne |].
  destruct (JSMap.get m (pendingMessages rt)); [| exact H].
  apply JSMap_In_set in H. destruct H as [[= E _] | H]; [congruence | exact H].
Qed.

Lemma resolve_pending_get (rt : Router) (m : string) (result : SendAgentMessageResponse)
    (k : string) :
  JSMap.get k (pendingMessages (PendingMessage_resolve rt m result))
  = if String.eqb m k then None else JSMap.get k (pendingMessages rt).
Proof.
  unfold PendingMessage_resolve. fields.
  match goal with
  | |- context [inFrame ?r m ?act] =>
      destruct (inFrame_fields r m act) as (P & _)
  end.
  rewrite P. fields.
  destruct (String.eqb m k) eqn:E.
  - apply String.eqb_eq in E. subst k. apply JSMap_get_delete_eq.
  - apply String.eqb_neq in E. rewrite JSMap_get_delete_ne by exact E.
    destruct (JSMap.get m (pendingMessages rt)); [| reflexivity].
    now rewrite JSMap_get_set_ne.
Qed.

Lemma resolve_frame_ne (rt : Router) (m k : string) (result : SendAgentMessageResponse) :
  m <> k ->
  JSMap.get k (sendFrames (PendingMessage_resolve rt m result))
  = JSMap.get k (sendFrames rt).
Proof.
  intros ne. unfold PendingMessage_resolve. fields.
  now rewrite inFrame_get_ne.
Qed.

Lemma reject_frame_ne (rt : Router) (m k message : string) :
  m <> k ->
  JSMap.get k (sendFrames (PendingMessage_reject rt m message))
  = JSMap.get k (sendFrames rt).
Proof.
  intros ne. unfold PendingMessage_reject. fields.
  now rewrite inFrame_get_ne.
Qed.

Lemma resolve_has_frame (rt : Router) (m k : string) (result : SendAgentMessageResponse) :
  JSMap.has k (sendFrames (PendingMessage_resolve rt m result))
  = JSMap.has k (sendFrames rt).
Proof. unfold PendingMessage_resolve. fields. now rewrite inFrame_has. Qed.

Lemma reject_has_frame (rt : Router) (m k message : string) :
  JSMap.has k (sendFrames (PendingMessage_reject rt m message))
  = JSMap.has k (sendFrames rt).
Proof. unfold PendingMessage_reject. fields. now rewrite inFrame_has. Qed.

(* ------------------------------------------------------------------ *)
(** ** Router: responses that cannot be delivered *)

(** C7. [handleResponse] from an unknown agent returns
    [{delivered: false, error}] and leaves the router as it was.  From
    a known agent, for a [messageId] with no pending message, it
    returns [{delivered: false, error}], appends a response event to
    the history and hands it to the observers, and changes nothing
    else: no delivery is started and no promise is touched.  A second
    response to a message whose first response has been handled to its
    end is such a call: it returns [{delivered: false, ...}], starts no
    delivery and leaves every promise as it is; in the scenario the
    first answer stays the result of A's promise. *)
Theorem handleResponse_without_delivery :
  forall (rt : Router) (fromAgentId messageId response : string) (success : bool)
         (error : option string) (data : option JsonObject)
         (eventId deliveryId : string) (timestamp deliveryTimestamp : Z),
    let out :=
      handleResponse_start rt fromAgentId messageId response success error data
        eventId deliveryId timestamp deliveryTimestamp in
    (get (registry rt) fromAgentId = None ->
     out = (rt, responseReturned
                  {| delivered := false;
                     rr_error := Some "Responding agent not found in registry" |}))
    /\ (get (registry rt) fromAgentId <> None ->
        JSMap.get messageId (pendingMessages rt) = None ->
        exists ev older,
          snd out
          = responseReturned
              {| delivered := false;
                 rr_error := Some "No pending message found (may have timed out)" |}
          /\ rsp_fromAgentId ev = fromAgentId
          /\ rsp_inResponseTo ev = messageId
          /\ rsp_response ev = response
          /\ fst out
             = broadcastEvent (addToHistory rt (agent_message_response ev))
                 (agent_message_response ev)
          /\ messageHistory (fst out) = (older ++ [agent_message_response ev])%list
          /\ broadcasted (fst out)
             = (broadcasted rt ++ [agent_message_response ev])%list
          /\ deliveries (fst out) = deliveries rt
          /\ responseFrames (fst out) = responseFrames rt
          /\ sendFrames (fst out) = sendFrames rt
          /\ pendingMessages (fst out) = pendingMessages rt)
    /\ (forall (firstDelivery : string) (now : Z) (first : ResponseFrame),
          JSMap.get firstDelivery (responseFrames rt) = Some first ->
          let consumed := pm_messageId (rf_pending first) in
          let rt1 := fst (handleResponse_delivered rt firstDelivery now) in
          let again :=
            handleResponse_start rt1 fromAgentId consumed response success error
              data eventId deliveryId timestamp deliveryTimestamp in
          JSMap.get consumed (pendingMessages rt1) = None
          /\ (exists e,
                snd again = responseReturned {| delivered := false; rr_error := Some e |})
          /\ sendFrames (fst again) = sendFrames rt1
          /\ deliveries (fst again) = deliveries rt1)
    /\ (let first := promiseResult scenario_answered "m1" in
        let second :=
          handleResponse_start scenario_answered "B" "m1" "43 passed" true None None
            "e3" "d2" 30 30 in
        option_map ok first = Some true
        /\ option_map res_response first = Some (Some "42 passed")
        /\ snd second
           = responseReturned
               {| delivered := false;
                  rr_error := Some "No pending message found (may have timed out)" |}
        /\ promiseResult (fst second) "m1" = first
        /\ deliveries (fst second) = deliveries scenario_answered).
Proof.
  intros rt fromAgentId messageId response success error data eventId deliveryId
    timestamp deliveryTimestamp.
  cbv zeta. split; [| split; [| split]].
  - unfold handleResponse_start. intros ->. reflexivity.
  - unfold handleResponse_start. intros Hfrom Hpending.
    destruct (get (registry rt) fromAgentId) as [fromAgent |]; [| congruence].
    rewrite Hpending. cbn [fst snd].
    match goal with
    | |- context [addToHistory rt (agent_message_response ?e)] =>
        destruct (addToHistory_last rt (agent_message_response e)) as [older Hh];
        exists e, older
    end.
    repeat split; try reflexivity. exact Hh.
  - intros firstDelivery now first Hfirst.
    unfold handleResponse_delivered. rewrite Hfirst. cbn [fst].
    match goal with
    | |- context [PendingMessage_resolve ?r ?m ?res] =>
        pose proof (resolve_pending_get r m res m) as G;
        generalize dependent (PendingMessage_resolve r m res)
    end.
    intros rt1 G. rewrite String.eqb_refl in G. split; [exact G |].
    unfold handleResponse_start. rewrite G.
    destruct (get (registry rt1) fromAgentId) as [fromAgent |]; cbn [fst snd].
    + split; [eexists; reflexivity | split; reflexivity].
    + split; [eexists; reflexivity | split; reflexivity].
  - do 4 (split; [vm_compute; reflexivity |]). vm_compute. reflexivity.
Qed.

(* ------------------------------------------------------------------ *)
(** ** Router: a consumed request stays consumed *)

Lemma reject_unreferenced (rt : Router) (m message mid : string) :
  unreferenced rt mid -> unreferenced (PendingMessage_reject rt m message) mid.
Proof.
  intros [HP HR].
  destruct (reject_fields rt m message) as (R & _ & _ & _ & P).
  cbv zeta in R, P. split.
  - intros k p. rewrite P. intros H. apply JSMap_In_delete in H. now apply (HP k).
  - intros k f. rewrite R. apply HR.
Qed.

Lemma resolve_unreferenced (rt : Router) (m mid : string)
    (result : SendAgentMessageResponse) :
  unreferenced rt mid -> unreferenced (PendingMessage_resolve rt m result) mid.
Proof.
  intros [HP HR].
  destruct (resolve_fields rt m result) as (R & _).
  cbv zeta in R. split.
  - intros k p H. apply resolve_pending_In in H. now apply (HP k).
  - intros k f. rewrite R. apply HR.
Qed.

Lemma delete_unreferenced (rt : Router) (k mid : string) :
  unreferenced rt mid ->
  unreferenced (with_pendingMessages rt (JSMap.delete k (pendingMessages rt))) mid.
Proof.
  intros [HP HR]. split; fields.
  - intros k' p H. apply JSMap_In_delete in H. now apply (HP k').
  - exact HR.
Qed.

Lemma sweepEntry_eq (now : Z) (rt : Router) (k : string) (p : PendingMessage) :
  sweepEntry now rt (k, p)
  = if pm_timeout p <? now - pm_sentAt p then
      with_pendingMessages
        (PendingMessage_reject rt (pm_messageId p) (timeoutMessage (pm_timeout p)))
        (JSMap.delete k
           (pendingMessages
              (PendingMessage_reject rt (pm_messageId p)
                 (timeoutMessage (pm_timeout p)))))
    else rt.
Proof. reflexivity. Qed.

Lemma checkTimeouts_frozen (mid : string) (now : Z)
    (l : list (string * PendingMessage)) (rt : Router) :
  (forall k p, In (k, p) l -> pm_messageId p <> mid) ->
  unreferenced rt mid ->
  let rt' :=
    fold_left (sweepEntry now) l rt in
  unreferenced rt' mid
  /\ JSMap.get mid (sendFrames rt') = JSMap.get mid (sendFrames rt).
Proof.
  cbv zeta. revert rt. induction l as [| [k p] l IH]; intros rt Hl Hu.
  - now split.
  - cbn [fold_left]. rewrite sweepEntry_eq.
    assert (Hp : pm_messageId p <> mid) by (apply (Hl k); now left).
    assert (Hl' : forall k p, In (k, p) l -> pm_messageId p <> mid).
    { intros k' p' H. apply (Hl k'). now right. }
    destruct (pm_timeout p <? now - pm_sentAt p).
    + match goal with
      | |- context [fold_left _ l ?r] => destruct (IH r Hl') as [U F]
      end.
      { apply delete_unreferenced. now apply reject_unreferenced. }
      split; [exact U |]. rewrite F. fields. now apply reject_frame_ne.
    + now apply IH.
Qed.

Lemma clearPending_frozen (mid : string)
    (l : list (string * PendingMessage)) (rt : Router) :
  (forall k p, In (k, p) l -> pm_messageId p <> mid) ->
  unreferenced rt mid ->
  let rt' :=
    fold_left (fun rt entry =>
                 PendingMessage_reject rt (pm_messageId (snd entry)) "Router cleared")
              l rt in
  unreferenced rt' mid
  /\ JSMap.get mid (sendFrames rt') = JSMap.get mid (sendFrames rt).
Proof.
  cbv zeta. revert rt. induction l as [| [k p] l IH]; intros rt Hl Hu.
  - now split.
  - cbn [fold_left snd].
    assert (Hp : pm_messageId p <> mid) by (apply (Hl k); now left).
    assert (Hl' : forall k p, In (k, p) l -> pm_messageId p <> mid).
    { intros k' p' H. apply (Hl k'). now right. }
    match goal with
    | |- context [fold_left _ l ?r] => destruct (IH r Hl') as [U F]
    end.
    { now apply reject_unreferenced. }
    split; [exact U |]. rewrite F. now apply reject_frame_ne.
Qed.

Lemma startDelivery_fold_fields (message : RouterEvent)
    (targets : list AgentRegistryEntry) (rt : Router) :
  let rt' :=
    fold_left (fun rt target => startDelivery rt (agentId target) message) targets rt in
  pendingMessages rt' = pendingMessages rt
  /\ sendFrames rt' = sendFrames rt
  /\ responseFrames rt' = responseFrames rt
  /\ closureCalls rt' = closureCalls rt.
Proof.
  cbv zeta. revert rt. induction targets as [| t ts IH]; intros rt; cbn [fold_left].
  - repeat split.
  - destruct (IH (startDelivery rt (agentId t) message)) as (P & F & R & C).
    rewrite P, F, R, C. repeat split.
Qed.

Lemma broadcast_fields (rt : Router) (fromAgentId channel message : string)
    (data : option JsonObject) (eventId : string) (timestamp : Z)
    (outcome : string -> nat -> option Thrown) (random : string -> nat -> Q) :
  let rt' :=
    fst (broadcast rt fromAgentId channel message data eventId timestamp
           outcome random) in
  pendingMessages rt' = pendingMessages rt
  /\ sendFrames rt' = sendFrames rt
  /\ responseFrames rt' = responseFrames rt
  /\ closureCalls rt' = closureCalls rt.
Proof.
  cbv zeta. unfold broadcast.
  destruct (get (registry rt) fromAgentId); [| repeat split].
  cbn [fst].
  match goal with
  | |- context [fold_left _ ?ts ?r] =>
      match type of r with
      | Router =>
          match goal with
          | |- context [agent_broadcast ?e] =>
              destruct (startDelivery_fold_fields (agent_broadcast e) ts r)
                as (P & F & R & C)
          end
      end
  end.
  cbv zeta in P, F, R, C. rewrite P, F, R, C. repeat split.
Qed.

(** Once nothing refers to the pending message of an activation that
    is past its [await], no action changes what the activation's
    promise holds. *)
Lemma step_frozen (rt : Router) (a : Action) (mid : string) :
  unreferenced rt mid -> pastDelivery rt mid ->
  unreferenced (step rt a) mid
  /\ JSMap.get mid (sendFrames (step rt a)) = JSMap.get mid (sendFrames rt).
Proof.
  intros Hu (f0 & Hf0 & Hpast).
  assert (Hu' := Hu). destruct Hu' as [HP HR].
  destruct a; cbn [step].
  - (* sendMessage *)
    destruct (JSMap.has messageId (sendFrames rt)) eqn:Hfresh; [now split |].
    assert (ne : messageId <> mid).
    { intros ->. unfold JSMap.has in Hfresh. now rewrite Hf0 in Hfresh. }
    unfold sendMessage_start.
    destruct (get (registry rt) fromAgentId); [| now split].
    destruct (resolveTarget (registry rt) fromAgentId request) as [[routing target] |];
      [| now split].
    destruct (get (registry rt) target); [| now split].
    fields. split.
    + split.
      * intros k p H.
        destruct (match req_expectsResponse request with
                  | Some b => b
                  | None => false
                  end); fields.
        -- apply JSMap_In_set in H. destruct H as [[= _ ->] | H]; [exact ne |].
           now apply (HP k).
        -- now apply (HP k).
      * destruct (match req_expectsResponse request with
                  | Some b => b
                  | None => false
                  end); fields; exact HR.
    + destruct (match req_expectsResponse request with
                | Some b => b
                | None => false
                end); fields; now rewrite JSMap_get_set_ne.
  - (* delivery of a sent message fulfilled *)
    unfold sendMessage_delivered.
    destruct (JSMap.get messageId (sendFrames rt)) as [f |] eqn:Hf; [| now split].
    destruct (sf_awaitingDelivery f) eqn:Ha; [| now split].
    assert (ne : messageId <> mid).
    { intros ->. rewrite Hf0 in Hf. injection Hf as <-. congruence. }
    destruct (negb (sf_expectsResponse f)).
    + match goal with
      | |- context [inFrame rt messageId ?act] =>
          destruct (inFrame_fields rt messageId act) as (P & R & _);
          split; [split; rewrite ?P, ?R; assumption | now apply inFrame_get_ne]
      end.
    + match goal with
      | |- context [inFrame rt messageId ?act] =>
          destruct (inFrame_fields rt messageId act) as (P & R & _);
          assert (G : forall r : Router,
                     match JSMap.get messageId (pendingMessages r) with
                     | Some pending => if pm_responseReceived pending then r else r
                     | None => r
                     end = r)
      end.
      { intros r. destruct (JSMap.get messageId (pendingMessages r)) as [p |];
          [now destruct (pm_responseReceived p) | reflexivity]. }
      rewrite G.
      split; [split; rewrite ?P, ?R; assumption | now apply inFrame_get_ne].
  - (* delivery of a sent message rejected *)
    unfold sendMessage_failed.
    destruct (JSMap.get messageId (sendFrames rt)) as [f |] eqn:Hf; [| now split].
    destruct (sf_awaitingDelivery f) eqn:Ha; [| now split].
    assert (ne : messageId <> mid).
    { intros ->. rewrite Hf0 in Hf. injection Hf as <-. congruence. }
    match goal with
    | |- context [inFrame ?r messageId ?act] =>
        destruct (inFrame_fields r messageId act) as (P & R & _)
    end.
    split; [split |].
    + rewrite P. fields. intros k p H. apply JSMap_In_delete in H. now apply (HP k).
    + rewrite R. exact HR.
    + rewrite inFrame_get_ne by exact ne. reflexivity.
  - (* handleResponse *)
    destruct (JSMap.has deliveryId (responseFrames rt)); [now split |].
    unfold handleResponse_start.
    destruct (get (registry rt) fromAgentId); [| now split].
    destruct (JSMap.get messageId (pendingMessages rt)) as [p |] eqn:Hp;
      [| now split].
    apply JSMap_get_In in Hp. apply HP in Hp.
    destruct (get (registry rt) (pm_fromAgentId p)); fields.
    + split; [split |]; fields; [exact HP | | reflexivity].
      intros k f H. apply JSMap_In_set in H.
      destruct H as [[= _ ->] | H]; [exact Hp | now apply (HR k)].
    + split; [now apply reject_unreferenced | now apply reject_frame_ne].
  - (* delivery of a response fulfilled *)
    unfold handleResponse_delivered.
    destruct (JSMap.get deliveryId (responseFrames rt)) as [f |] eqn:Hf;
      [| now split].
    apply JSMap_get_In in Hf. apply HR in Hf. fields. split.
    + apply resolve_unreferenced. split; fields; [exact HP |].
      intros k f' H. apply JSMap_In_delete in H. now apply (HR k).
    + now rewrite resolve_frame_ne.
  - (* delivery of a response rejected *)
    unfold handleResponse_failed.
    destruct (JSMap.get deliveryId (responseFrames rt)) as [f |] eqn:Hf;
      [| now split].
    apply JSMap_get_In in Hf. apply HR in Hf. fields. split.
    + apply resolve_unreferenced. split; fields; [exact HP |].
      intros k f' H. apply JSMap_In_delete in H. now apply (HR k).
    + now rewrite resolve_frame_ne.
  - (* broadcast *)
    destruct (broadcast_fields rt fromAgentId channel message data eventId timestamp
                outcome random) as (P & F & R & _).
    cbv zeta in P, F, R. unfold unreferenced. rewrite P, F, R. now split.
  - (* sweep *)
    destruct (timeoutChecker rt); [| now split].
    apply checkTimeouts_frozen; assumption.
  - (* clearPending *)
    unfold clearPending.
    destruct (clearPending_frozen mid (pendingMessages rt) rt HP Hu) as [[_ U] F].
    cbv zeta in U, F. split; [split |]; fields; [intros k p [] | exact U | exact F].
  - (* destroy *)
    unfold destroy, clearPending.
    destruct (clearPending_frozen mid (pendingMessages rt)
                (with_timeoutChecker rt false) HP Hu) as [[_ U] F].
    cbv zeta in U, F. split; [split |]; fields; [intros k p [] | exact U | exact F].
  - now split.
Qed.

Lemma run_frozen (actions : list Action) (rt : Router) (mid : string) :
  unreferenced rt mid -> pastDelivery rt mid ->
  JSMap.get mid (sendFrames (run rt actions)) = JSMap.get mid (sendFrames rt).
Proof.
  revert rt. induction actions as [| a actions IH]; intros rt Hu Hp; [reflexivity |].
  unfold run in *. cbn [fold_left].
  destruct (step_frozen rt a mid Hu Hp) as [U F].
  rewrite IH; [exact F | exact U |].
  destruct Hp as (f & Hf & Ha). exists f. now rewrite F.
Qed.

(* ------------------------------------------------------------------ *)
(** ** Router: the pending map along an execution *)

Lemma skipn_length_app {A} (l new : list A) :
  skipn (List.length l) (l ++ new) = new.
Proof. induction l as [| x l IH]; [reflexivity | exact IH]. Qed.

Lemma newRouter_wf (r : AgentRegistry) : pending_wf (newRouter r).
Proof. split; intros k p []. Qed.

Lemma shrinks_refl (rt : Router) : shrinks rt rt.
Proof. repeat split; auto. Qed.

Lemma shrinks_trans (a b c : Router) : shrinks a b -> shrinks b c -> shrinks a c.
Proof.
  intros (P1 & F1 & G1) (P2 & F2 & G2). repeat split; auto.
Qed.

Lemma shrinks_wf (rt rt' : Router) : shrinks rt rt' -> pending_wf rt -> pending_wf rt'.
Proof.
  intros (P & F & _) [W1 W2]. split; intros k p H.
  - apply W1. now apply P.
  - apply F. apply (W2 k p). now apply P.
Qed.

Lemma reject_shrinks (rt : Router) (m message : string) :
  shrinks rt (PendingMessage_reject rt m message).
Proof.
  destruct (reject_fields rt m message) as (_ & _ & _ & _ & P). cbv zeta in P.
  split; [| split].
  - intros k p. rewrite P. intros H. now apply JSMap_In_delete in H.
  - intros k. now rewrite reject_has_frame.
  - intros k H. rewrite P. now apply JSMap_get_delete_None.
Qed.

Lemma resolve_shrinks (rt : Router) (m : string) (result : SendAgentMessageResponse) :
  shrinks rt (PendingMessage_resolve rt m result).
Proof.
  split; [| split].
  - intros k p H. now apply resolve_pending_In in H.
  - intros k. now rewrite resolve_has_frame.
  - intros k H. rewrite resolve_pending_get. now destruct (String.eqb m k).
Qed.

Lemma delete_shrinks (rt : Router) (k0 : string) :
  shrinks rt (with_pendingMessages rt (JSMap.delete k0 (pendingMessages rt))).
Proof.
  split; [| split]; fields.
  - intros k p H. now apply JSMap_In_delete in H.
  - auto.
  - intros k H. now apply JSMap_get_delete_None.
Qed.

Lemma same_maps_shrinks (rt rt' : Router) :
  pendingMessages rt' = pendingMessages rt -> sendFrames rt' = sendFrames rt ->
  shrinks rt rt'.
Proof. intros P F. unfold shrinks. rewrite P, F. repeat split; auto. Qed.

Lemma inFrame_shrinks (rt : Router) (m : string) (act : SendFrame -> SendFrame) :
  shrinks rt (inFrame rt m act).
Proof.
  destruct (inFrame_fields rt m act) as (P & _).
  split; [| split]; rewrite ?P; auto.
  intros k. now rewrite inFrame_has.
Qed.

(** The sweep, entry by entry: the calls it logs, and why an entry is
    gone afterwards. *)
Lemma checkTimeouts_fold (now : Z) (l : list (string * PendingMessage)) (rt : Router) :
  (forall k p, In (k, p) l -> pm_messageId p = k) ->
  let rt' :=
    fold_left (sweepEntry now) l rt in
  shrinks rt rt'
  /\ exists new,
       closureCalls rt' = (closureCalls rt ++ new)%list
       /\ forall mid, JSMap.has mid (pendingMessages rt) = true ->
                      JSMap.has mid (pendingMessages rt') = false ->
                      In (mid, closure_reject) new.
Proof.
  cbv zeta. revert rt. induction l as [| [k p] l IH]; intros rt Hl.
  - cbn [fold_left]. split; [apply shrinks_refl |]. exists [].
    split; [now rewrite app_nil_r |]. intros mid H1 H2. congruence.
  - cbn [fold_left]. rewrite sweepEntry_eq.
    assert (Hk : pm_messageId p = k) by (apply Hl; now left).
    assert (Hl' : forall k p, In (k, p) l -> pm_messageId p = k).
    { intros k' p' H. apply Hl. now right. }
    destruct (pm_timeout p <? now - pm_sentAt p); [| now apply IH].
    rewrite Hk.
    set (rt1 := PendingMessage_reject rt k (timeoutMessage (pm_timeout p))).
    set (rt2 := with_pendingMessages rt1 (JSMap.delete k (pendingMessages rt1))).
    destruct (IH rt2 Hl') as (S & new & C & Hnew).
    assert (S12 : shrinks rt rt2).
    { eapply shrinks_trans; [apply reject_shrinks | apply delete_shrinks]. }
    split; [eapply shrinks_trans; eassumption |].
    exists ((k, closure_reject) :: new). split.
    + rewrite C. subst rt2 rt1. fields.
      destruct (reject_fields rt k (timeoutMessage (pm_timeout p)))
        as (_ & C1 & _). cbv zeta in C1. rewrite C1.
      now rewrite <- app_assoc.
    + intros mid H1 H2. destruct (string_dec k mid) as [-> | ne]; [now left |].
      right. apply Hnew; [| exact H2].
      subst rt2 rt1. fields.
      destruct (reject_fields rt k (timeoutMessage (pm_timeout p)))
        as (_ & _ & _ & _ & P1). cbv zeta in P1. rewrite P1.
      unfold JSMap.has in *. now rewrite !JSMap_get_delete_ne.
Qed.

Lemma clearPending_fold (l : list (string * PendingMessage)) (rt : Router) :
  let rt' :=
    fold_left (fun rt entry =>
                 PendingMessage_reject rt (pm_messageId (snd entry)) "Router cleared")
              l rt in
  shrinks rt rt'
  /\ closureCalls rt'
     = (closureCalls rt
        ++ map (fun entry => (pm_messageId (snd entry), closure_reject)) l)%list.
Proof.
  cbv zeta. revert rt. induction l as [| [k p] l IH]; intros rt; cbn [fold_left map snd].
  - split; [apply shrinks_refl | now rewrite app_nil_r].
  - destruct (IH (PendingMessage_reject rt (pm_messageId p) "Router cleared"))
      as (S & C).
    split; [eapply shrinks_trans; [apply reject_shrinks | exact S] |].
    rewrite C.
    destruct (reject_fields rt (pm_messageId p) "Router cleared") as (_ & C1 & _).
    cbv zeta in C1. rewrite C1. now rewrite <- app_assoc.
Qed.

Lemma clearPending_effect (rt : Router) :
  pending_wf rt ->
  pendingMessages (clearPending rt) = []
  /\ (forall k, JSMap.has k (sendFrames rt) = true ->
                JSMap.has k (sendFrames (clearPending rt)) = true)
  /\ exists new,
       closureCalls (clearPending rt) = (closureCalls rt ++ new)%list
       /\ forall mid, JSMap.has mid (pendingMessages rt) = true ->
                      In (mid, closure_reject) new.
Proof.
  intros [W _]. unfold clearPending.
  destruct (clearPending_fold (pendingMessages rt) rt) as ((_ & F & _) & C).
  cbv zeta in F, C. fields. split; [reflexivity |]. split; [exact F |].
  eexists. split; [exact C |].
  intros mid H. apply JSMap_has_true in H. destruct H as [p Hp].
  apply JSMap_get_In in Hp. apply in_map_iff. exists (mid, p).
  split; [| exact Hp]. cbn [snd]. now rewrite (W mid p Hp).
Qed.

Lemma sendMessage_start_effect (rt : Router) (fromAgentId : string)
    (request : SendAgentMessageRequest) (messageId eventId : string)
    (timestamp sentAt : Z) :
  let rt' :=
    fst (sendMessage_start rt fromAgentId request messageId eventId timestamp sentAt) in
  rt' = rt
  \/ (closureCalls rt' = closureCalls rt
      /\ responseFrames rt' = responseFrames rt
      /\ (exists frame,
            sendFrames rt' = JSMap.set messageId frame (sendFrames rt))
      /\ (pendingMessages rt' = pendingMessages rt
          \/ exists p, pm_messageId p = messageId
                       /\ pendingMessages rt'
                          = JSMap.set messageId p (pendingMessages rt))).
Proof.
  cbv zeta. unfold sendMessage_start.
  destruct (get (registry rt) fromAgentId); [| now left].
  destruct (resolveTarget (registry rt) fromAgentId request) as [[routing target] |];
    [| now left].
  destruct (get (registry rt) target); [| now left].
  right. fields.
  destruct (match req_expectsResponse request with
            | Some b => b
            | None => false
            end); fields.
  - repeat split; [eexists; reflexivity |]. right. eexists. split; [| reflexivity].
    reflexivity.
  - repeat split; [eexists; reflexivity |]. now left.
Qed.

Lemma sendMessage_delivered_fields (rt : Router) (messageId : string) :
  let rt' := sendMessage_delivered rt messageId in
  pendingMessages rt' = pendingMessages rt
  /\ closureCalls rt' = closureCalls rt
  /\ responseFrames rt' = responseFrames rt
  /\ forall k, JSMap.has k (sendFrames rt') = JSMap.has k (sendFrames rt).
Proof.
  cbv zeta. unfold sendMessage_delivered.
  destruct (JSMap.get messageId (sendFrames rt)) as [f |]; [| repeat split].
  destruct (sf_awaitingDelivery f); [| repeat split].
  destruct (negb (sf_expectsResponse f)).
  - match goal with
    | |- context [inFrame rt messageId ?act] =>
        destruct (inFrame_fields rt messageId act) as (P & R & C & _)
    end.
    rewrite P, R, C. repeat split. intros k. apply inFrame_has.
  - match goal with
    | |- context [inFrame rt messageId ?act] =>
        destruct (inFrame_fields rt messageId act) as (P & R & C & _);
        assert (H : forall k, JSMap.has k (sendFrames (inFrame rt messageId act))
                              = JSMap.has k (sendFrames rt))
          by (intros k; apply inFrame_has);
        generalize dependent (inFrame rt messageId act)
    end.
    intros r P R C H.
    assert (G : match JSMap.get messageId (pendingMessages r) with
                | Some pending => if pm_responseReceived pending then r else r
                | None => r
                end = r).
    { destruct (JSMap.get messageId (pendingMessages r)) as [p |];
        [now destruct (pm_responseReceived p) | reflexivity]. }
    rewrite G, P, R, C. repeat split. intros k. apply H.
Qed.

(** Every action but a new [sendMessage] only takes entries away. *)
Lemma step_shrinks (rt : Router) (a : Action) :
  pending_wf rt ->
  (forall f q m e t s, a <> call_sendMessage f q m e t s) ->
  shrinks rt (step rt a).
Proof.
  intros [W _] Hnot. destruct a; cbn [step].
  - now elim (Hnot fromAgentId request messageId eventId timestamp sentAt).
  - destruct (sendMessage_delivered_fields rt messageId) as (P & _ & _ & F).
    cbv zeta in P, F. unfold shrinks. rewrite P.
    repeat split; auto. intros k. now rewrite F.
  - unfold sendMessage_failed.
    destruct (JSMap.get messageId (sendFrames rt)) as [f |]; [| apply shrinks_refl].
    destruct (sf_awaitingDelivery f); [| apply shrinks_refl].
    eapply shrinks_trans; [apply delete_shrinks | apply inFrame_shrinks].
  - destruct (JSMap.has deliveryId (responseFrames rt)); [apply shrinks_refl |].
    unfold handleResponse_start.
    destruct (get (registry rt) fromAgentId); [| apply shrinks_refl].
    destruct (JSMap.get messageId (pendingMessages rt)) as [p |];
      [| now apply same_maps_shrinks].
    destruct (get (registry rt) (pm_fromAgentId p)); cbn [fst].
    + now apply same_maps_shrinks.
    + apply reject_shrinks.
  - unfold handleResponse_delivered.
    destruct (JSMap.get deliveryId (responseFrames rt)); [| apply shrinks_refl].
    cbn [fst].
    eapply shrinks_trans; [| apply resolve_shrinks]. now apply same_maps_shrinks.
  - unfold handleResponse_failed.
    destruct (JSMap.get deliveryId (responseFrames rt)); [| apply shrinks_refl].
    cbn [fst].
    eapply shrinks_trans; [| apply resolve_shrinks]. now apply same_maps_shrinks.
  - destruct (broadcast_fields rt fromAgentId channel message data eventId timestamp
                outcome random) as (P & F & _).
    now apply same_maps_shrinks.
  - destruct (timeoutChecker rt); [| apply shrinks_refl].
    apply checkTimeouts_fold. intros k p. apply W.
  - unfold clearPending.
    destruct (clearPending_fold (pendingMessages rt) rt) as ((_ & F & _) & _).
    cbv zeta in F. split; [| split]; fields; [intros k p [] | exact F | reflexivity].
  - unfold destroy, clearPending.
    destruct (clearPending_fold (pendingMessages rt) (with_timeoutChecker rt false))
      as ((_ & F & _) & _).
    cbv zeta in F. split; [| split]; fields; [intros k p [] | exact F | reflexivity].
  - now apply same_maps_shrinks.
Qed.

Lemma JSMap_In_has {V} (k : string) (v : V) (m : JSMap.t V) :
  In (k, v) m -> JSMap.has k m = true.
Proof.
  unfold JSMap.has. induction m as [| [k' v'] m IH]; simpl; [intros [] |].
  destruct (String.eqb k k') eqn:E; [reflexivity |].
  intros [[= -> _] | H]; [now rewrite String.eqb_refl in E | now apply IH].
Qed.

Lemma step_wf (rt : Router) (a : Action) : pending_wf rt -> pending_wf (step rt a).
Proof.
  intros W.
  assert (Hother : (forall f q m e t s, a <> call_sendMessage f q m e t s) ->
                   pending_wf (step rt a)).
  { intros H. eapply shrinks_wf; [now apply step_shrinks | exact W]. }
  destruct a; try (apply Hother; discriminate).
  cbn [step]. destruct (JSMap.has messageId (sendFrames rt)) eqn:Hfresh; [exact W |].
  destruct (sendMessage_start_effect rt fromAgentId request messageId eventId
              timestamp sentAt) as [E | (_ & _ & (frame & F) & P)];
    cbv zeta in *; [now rewrite E |].
  destruct W as [W1 W2]. split; intros k p H.
  - destruct P as [P | (pnew & Hid & P)]; rewrite P in H; [now apply W1 |].
    apply JSMap_In_set in H. destruct H as [[= -> ->] | H]; [exact Hid | now apply W1].
  - rewrite F.
    destruct P as [P | (pnew & Hid & P)]; rewrite P in H.
    + apply JSMap_has_set. now apply (W2 k p).
    + apply JSMap_In_set in H. destruct H as [[= -> ->] | H].
      * unfold JSMap.has. now rewrite JSMap_get_set_eq.
      * apply JSMap_has_set. now apply (W2 k p).
Qed.

Lemma run_wf (actions : list Action) (rt : Router) :
  pending_wf rt -> pending_wf (run rt actions).
Proof.
  revert rt. induction actions as [| a actions IH]; intros rt W; [exact W |].
  apply IH, step_wf, W.
Qed.

(** A [messageId] that has been used and has no entry gets none. *)
Lemma step_absent (rt : Router) (a : Action) (mid : string) :
  pending_wf rt ->
  JSMap.has mid (sendFrames rt) = true ->
  JSMap.get mid (pendingMessages rt) = None ->
  JSMap.has mid (sendFrames (step rt a)) = true
  /\ JSMap.get mid (pendingMessages (step rt a)) = None.
Proof.
  intros W Hused Habsent.
  assert (Hother : (forall f q m e t s, a <> call_sendMessage f q m e t s) ->
                   JSMap.has mid (sendFrames (step rt a)) = true
                   /\ JSMap.get mid (pendingMessages (step rt a)) = None).
  { intros H. destruct (step_shrinks rt a W H) as (_ & F & G). split; auto. }
  destruct a; try (apply Hother; discriminate).
  cbn [step]. destruct (JSMap.has messageId (sendFrames rt)) eqn:Hfresh; [now split |].
  assert (ne : messageId <> mid) by (intros ->; congruence).
  destruct (sendMessage_start_effect rt fromAgentId request messageId eventId
              timestamp sentAt) as [E | (_ & _ & (frame & F) & P)];
    cbv zeta in *; [now rewrite E |].
  rewrite F. split; [now apply JSMap_has_set |].
  destruct P as [P | (pnew & Hid & P)]; rewrite P; [exact Habsent |].
  now rewrite JSMap_get_set_ne.
Qed.

Lemma run_absent (actions : list Action) (rt : Router) (mid : string) :
  pending_wf rt ->
  JSMap.has mid (sendFrames rt) = true ->
  JSMap.get mid (pendingMessages rt) = None ->
  JSMap.get mid (pendingMessages (run rt actions)) = None.
Proof.
  revert rt. induction actions as [| a actions IH]; intros rt W Hused Habsent;
    [exact Habsent |].
  destruct (step_absent rt a mid W Hused Habsent) as [U A].
  apply IH; [now apply step_wf | exact U | exact A].
Qed.

(** How an entry leaves the map in one step: a closure of its pending
    message is called, or the delivery of its message has failed. *)
Lemma step_removal (rt : Router) (a : Action) (mid : string) :
  pending_wf rt ->
  JSMap.has mid (pendingMessages rt) = true ->
  JSMap.has mid (pendingMessages (step rt a)) = false ->
  (exists c, In (mid, c) (closuresCalledBy rt a))
  \/ (exists e, a = send_failed mid e).
Proof.
  intros W Hin Hout. unfold closuresCalledBy.
  assert (Hsame : pendingMessages (step rt a) = pendingMessages rt -> False).
  { intros E. rewrite E in Hout. congruence. }
  assert (Hlog : forall new c,
            closureCalls (step rt a) = (closureCalls rt ++ new)%list ->
            In (mid, c) new ->
            exists c, In (mid, c)
                        (skipn (List.length (closureCalls rt))
                           (closureCalls (step rt a)))).
  { intros new c E H. exists c. now rewrite E, skipn_length_app. }
  destruct a; cbn [step] in *; try (now elim Hsame).
  - exfalso.
    destruct (JSMap.has messageId (sendFrames rt)); [now apply Hsame |].
    destruct (sendMessage_start_effect rt fromAgentId request messageId eventId
                timestamp sentAt) as [E | (_ & _ & _ & P)];
      cbv zeta in *; [apply Hsame; now rewrite E |].
    destruct P as [P | (pnew & _ & P)]; [now apply Hsame |].
    rewrite P in Hout. now rewrite JSMap_has_set in Hout.
  - exfalso. apply Hsame. apply sendMessage_delivered_fields.
  - right. unfold sendMessage_failed in Hout.
    destruct (JSMap.get messageId (sendFrames rt)) as [f |]; [| congruence].
    destruct (sf_awaitingDelivery f); [| congruence].
    match type of Hout with
    | context [inFrame ?r messageId ?act] =>
        destruct (inFrame_fields r messageId act) as (P & _)
    end.
    rewrite P in Hout. fields.
    destruct (string_dec messageId mid) as [-> | ne]; [now exists error |].
    unfold JSMap.has in *. rewrite JSMap_get_delete_ne in Hout by exact ne.
    congruence.
  - left.
    destruct (JSMap.has deliveryId (responseFrames rt)); [now elim Hsame |].
    unfold handleResponse_start in *.
    destruct (get (registry rt) fromAgentId); [| now elim Hsame].
    destruct (JSMap.get messageId (pendingMessages rt)) as [p |];
      [| now elim Hsame].
    destruct (get (registry rt) (pm_fromAgentId p)); [now elim Hsame |].
    cbn [fst] in *.
    destruct (reject_fields rt (pm_messageId p) "Original sender no longer available")
      as (_ & C & _ & _ & P).
    cbv zeta in C, P. rewrite P in Hout.
    apply (Hlog _ closure_reject C).
    destruct (string_dec (pm_messageId p) mid) as [-> | ne]; [now left |].
    unfold JSMap.has in *. rewrite JSMap_get_delete_ne in Hout by exact ne.
    congruence.
  - left. unfold handleResponse_delivered in *.
    destruct (JSMap.get deliveryId (responseFrames rt)) as [f |]; [| now elim Hsame].
    cbn [fst] in *.
    match type of Hout with
    | context [PendingMessage_resolve ?r ?m ?res] =>
        destruct (resolve_fields r m res) as (_ & C & _);
        pose proof (resolve_pending_get r m res mid) as G
    end.
    cbv zeta in C. fields. apply (Hlog _ closure_resolve C).
    unfold JSMap.has in Hout, Hin. rewrite G in Hout.
    destruct (String.eqb (pm_messageId (rf_pending f)) mid) eqn:E.
    + apply String.eqb_eq in E. rewrite E. now left.
    + destruct (JSMap.get mid (pendingMessages rt)); congruence.
  - left. unfold handleResponse_failed in *.
    destruct (JSMap.get deliveryId (responseFrames rt)) as [f |]; [| now elim Hsame].
    cbn [fst] in *.
    match type of Hout with
    | context [PendingMessage_resolve ?r ?m ?res] =>
        destruct (resolve_fields r m res) as (_ & C & _);
        pose proof (resolve_pending_get r m res mid) as G
    end.
    cbv zeta in C. fields. apply (Hlog _ closure_resolve C).
    unfold JSMap.has in Hout, Hin. rewrite G in Hout.
    destruct (String.eqb (pm_messageId (rf_pending f)) mid) eqn:E.
    + apply String.eqb_eq in E. rewrite E. now left.
    + destruct (JSMap.get mid (pendingMessages rt)); congruence.
  - exfalso. apply Hsame. apply broadcast_fields.
  - left. destruct (timeoutChecker rt); [| now elim Hsame].
    destruct W as [W _].
    destruct (checkTimeouts_fold now (pendingMessages rt) rt W)
      as (_ & new & C & Hnew).
    apply (Hlog new closure_reject C). now apply Hnew.
  - left. destruct (clearPending_effect rt W) as (_ & _ & new & C & Hnew).
    apply (Hlog new closure_reject C). now apply Hnew.
  - left. unfold destroy in *.
    assert (W' : pending_wf (with_timeoutChecker rt false)) by exact W.
    destruct (clearPending_effect _ W') as (_ & _ & new & C & Hnew).
    apply (Hlog new closure_reject C). now apply Hnew.
Qed.

Lemma step_has_frame (rt : Router) (a : Action) (k : string) :
  pending_wf rt ->
  JSMap.has k (sendFrames rt) = true -> JSMap.has k (sendFrames (step rt a)) = true.
Proof.
  intros W H.
  assert (Hother : (forall f q m e t s, a <> call_sendMessage f q m e t s) ->
                   JSMap.has k (sendFrames (step rt a)) = true).
  { intros Hn. now apply (step_shrinks rt a W Hn). }
  destruct a; try (apply Hother; discriminate).
  cbn [step]. destruct (JSMap.has messageId (sendFrames rt)); [exact H |].
  destruct (sendMessage_start_effect rt fromAgentId request messageId eventId
              timestamp sentAt) as [E | (_ & _ & (frame & F) & _)];
    cbv zeta in *; [now rewrite E |].
  rewrite F. now apply JSMap_has_set.
Qed.

(* ------------------------------------------------------------------ *)
(** ** Router: how a pending request is consumed *)

(** C3, as the claim words it, fails: when the delivery of A's message
    fails, its entry leaves the map and no closure is called; the
    sender gets the failure as the result of the call. *)
Lemma failed_delivery_deletes_the_entry_directly :
  scenario_sending
  = run (newRouter scenario_registry)
      [call_sendMessage "A" (request_to_B 5000) "m1" "e1" 0 0]
  /\ JSMap.has "m1" (pendingMessages scenario_sending) = true
  /\ JSMap.has "m1"
       (pendingMessages
          (step scenario_sending
             (send_failed "m1" (thrownError "Session not found: B"))))
     = false
  /\ closuresCalledBy scenario_sending
       (send_failed "m1" (thrownError "Session not found: B"))
     = []
  /\ step scenario_sending (send_failed "m1" (thrownError "Session not found: B"))
     = scenario_undelivered
  /\ option_map res_error (promiseResult scenario_undelivered "m1")
     = Some (Some "Session not found: B").
Proof.
  split; [reflexivity |]. do 3 (split; [vm_compute; reflexivity |]).
  split; [reflexivity | vm_compute; reflexivity].
Qed.

(* ------------------------------------------------------------------ *)
(** ** Router: a closure called before the sender waits *)

Lemma promise_stays_empty (rt : Router) (mid : string) :
  unreferenced rt mid -> pastDelivery rt mid -> promiseResult rt mid = None ->
  forall actions, promiseResult (run rt actions) mid = None.
Proof.
  intros U P H actions. unfold promiseResult in *.
  now rewrite (run_frozen actions rt mid U P).
Qed.

(** C1 fails on the code.  B's answer is handled to its end, and
    reported as delivered, while [sendMessage] still awaits its own
    delivery: the [resolve] closure runs with [pendingPromiseResolve]
    unassigned and drops the answer.  When [sendMessage] then assigns
    the resolver, the entry is gone, and in no continuation of the
    execution is the sender's promise ever resolved. *)
Theorem early_response_is_lost :
  snd (handleResponse_delivered
         (fst (handleResponse_start scenario_sending "B" "m1" "42 passed" true
                 None None "e2" "d1" 10 10))
         "d1" 20)
  = Some {| delivered := true; rr_error := None |}
  /\ closureCalls scenario_early_answer = [("m1", closure_resolve)]
  /\ option_map pendingPromiseResolve
       (JSMap.get "m1" (sendFrames scenario_early_answer))
     = Some true
  /\ JSMap.get "m1" (pendingMessages scenario_early_answer) = None
  /\ forall actions, promiseResult (run scenario_early_answer actions) "m1" = None.
Proof.
  do 4 (split; [vm_compute; reflexivity |]).
  apply promise_stays_empty.
  - assert (P : pendingMessages scenario_early_answer = [])
      by (vm_compute; reflexivity).
    assert (R : responseFrames scenario_early_answer = [])
      by (vm_compute; reflexivity).
    split; intros k x; rewrite ?P, ?R; intros [].
  - eexists. split; [vm_compute; reflexivity | reflexivity].
  - vm_compute. reflexivity.
Qed.

(** C4 fails on the code in the same way.  A request with a timeout of
    100 ms is swept while [sendMessage] still awaits its delivery: the
    sweep calls [reject] and removes the entry, but the closure finds
    [pendingPromiseResolve] unassigned and resolves nothing.  Once the
    delivery is fulfilled the sender waits on a promise that no
    continuation of the execution resolves. *)
Theorem early_timeout_is_lost :
  (let before :=
     fst (sendMessage_start (newRouter scenario_registry) "A" (request_to_B 100)
            "m1" "e1" 0 0) in
   option_map (fun p => pm_timeout p <? 5000 - pm_sentAt p)
     (JSMap.get "m1" (pendingMessages before))
   = Some true
   /\ JSMap.get "m1" (pendingMessages (checkTimeouts before 5000)) = None
   /\ closureCalls (checkTimeouts before 5000) = [("m1", closure_reject)]
   /\ promiseResult (checkTimeouts before 5000) "m1" = None)
  /\ forall actions, promiseResult (run scenario_early_timeout actions) "m1" = None.
Proof.
  split; [cbv zeta; do 3 (split; [vm_compute; reflexivity |]);
          vm_compute; reflexivity |].
  apply promise_stays_empty.
  - assert (P : pendingMessages scenario_early_timeout = [])
      by (vm_compute; reflexivity).
    assert (R : responseFrames scenario_early_timeout = [])
      by (vm_compute; reflexivity).
    split; intros k x; rewrite ?P, ?R; intros [].
  - eexists. split; [vm_compute; reflexivity | reflexivity].
  - vm_compute. reflexivity.
Qed.

(* ------------------------------------------------------------------ *)
(** ** Router: the sweep when the sender waits *)

Lemma reject_frame_settled (rt : Router) (m message mid : string) (f : SendFrame)
    (result : SendAgentMessageResponse) :
  JSMap.get mid (sendFrames rt) = Some f -> sf_result f = Some result ->
  JSMap.get mid (sendFrames (PendingMessage_reject rt m message)) = Some f.
Proof.
  intros Hf Hr. destruct (string_dec m mid) as [-> | ne].
  - unfold PendingMessage_reject. fields. rewrite inFrame_get_eq. fields.
    rewrite Hf. cbn [option_map]. unfold callPromiseResolve. rewrite Hr.
    now destruct (pendingPromiseResolve f).
  - now rewrite reject_frame_ne.
Qed.






(* ------------------------------------------------------------------ *)
(** ** Registry: one entry per agent *)

Lemma JSMap_keys_set_In {V} (k x : string) (v : V) (m : JSMap.t V) :
  In x (JSMap.keys (JSMap.set k v m)) -> x = k \/ In x (JSMap.keys m).
Proof.
  unfold JSMap.keys. induction m as [| [k' v'] m IH]; simpl.
  - intros [<- | []]. now left.
  - destruct (String.eqb k k') eqn:E; simpl.
    + apply String.eqb_eq in E. subst k'. intros [<- | H]; [now left | right; now right].
    + intros [<- | H]; [right; now left |].
      destruct (IH H); [now left | right; now right].
Qed.

Lemma JSMap_keys_set_NoDup {V} (k : string) (v : V) (m : JSMap.t V) :
  NoDup (JSMap.keys m) -> NoDup (JSMap.keys (JSMap.set k v m)).
Proof.
  unfold JSMap.keys. induction m as [| [k' v'] m IH]; simpl; intros H.
  - constructor; [intros [] | constructor].
  - inversion H as [| ? ? Hn Hd]; subst.
    destruct (String.eqb k k') eqn:E; simpl.
    + apply String.eqb_eq in E. subst k'. now constructor.
    + constructor; [| now apply IH].
      intros Hin. apply JSMap_keys_set_In in Hin. destruct Hin as [-> | Hin].
      * now rewrite String.eqb_refl in E.
      * now apply Hn.
Qed.

Lemma JSMap_keys_delete_NoDup {V} (k : string) (m : JSMap.t V) :
  NoDup (JSMap.keys m) -> NoDup (JSMap.keys (JSMap.delete k m)).
Proof.
  unfold JSMap.keys, JSMap.delete. induction m as [| [k' v'] m IH]; simpl; intros H.
  - constructor.
  - inversion H as [| ? ? Hn Hd]; subst.
    destruct (String.eqb k k'); simpl; [now apply IH |].
    constructor; [| now apply IH].
    intros Hin. apply Hn. apply in_map_iff in Hin.
    destruct Hin as ([k0 v0] & <- & Hin). apply filter_In in Hin.
    apply in_map_iff. exists (k0, v0). now split.
Qed.

Lemma set_registry_wf (r : AgentRegistry) (e : AgentRegistryEntry) :
  registry_wf r -> registry_wf (with_agents r (JSMap.set (agentId e) e (agents r))).
Proof.
  intros [N K]. split; cbn [agents with_agents].
  - now apply JSMap_keys_set_NoDup.
  - intros k e' H. apply JSMap_In_set in H.
    destruct H as [[= -> ->] | H]; [reflexivity | now apply K].
Qed.

Lemma notifyChange_registry_wf (r : AgentRegistry) :
  registry_wf r -> registry_wf (notifyChange r).
Proof. intros H. exact H. Qed.

Lemma applyOp_registry_wf (r : AgentRegistry) (op : RegistryOp) :
  registry_wf r -> registry_wf (applyOp r op).
Proof.
  intros W. destruct op; cbn [applyOp].
  - unfold register. cbn [fst]. apply notifyChange_registry_wf.
    match goal with
    | |- context [JSMap.set (reg_agentId request) ?e _] =>
        apply (set_registry_wf r e W)
    end.
  - unfold registerFromSession. cbn [fst]. apply notifyChange_registry_wf.
    match goal with
    | |- context [JSMap.set (session_id session) ?e _] =>
        apply (set_registry_wf r e W)
    end.
  - unfold unregister.
    assert (D : registry_wf (with_agents r (JSMap.delete agentId0 (agents r)))).
    { destruct W as [N K]. split; cbn [agents with_agents].
      - now apply JSMap_keys_delete_NoDup.
      - intros k e H. apply JSMap_In_delete in H. now apply K. }
    destruct (JSMap.has agentId0 (agents r)); exact D.
  - unfold updateStatus.
    destruct (JSMap.get agentId0 (agents r)) as [e |] eqn:E; [| exact W].
    apply notifyChange_registry_wf.
    apply JSMap_get_In in E. apply (proj2 W) in E.
    match goal with
    | |- context [JSMap.set agentId0 ?e' _] =>
        pose proof (set_registry_wf r e' W) as S
    end.
    cbn [agentId] in S. rewrite <- E. exact S.
  - unfold updateFromSession.
    destruct (JSMap.get (session_id session) (agents r)) as [e |] eqn:E.
    + apply notifyChange_registry_wf.
      apply JSMap_get_In in E. apply (proj2 W) in E.
      match goal with
      | |- context [JSMap.set (session_id session) ?e' _] =>
          pose proof (set_registry_wf r e' W) as S
      end.
      cbn [agentId] in S. rewrite <- E. exact S.
    + unfold registerFromSession. cbn [fst]. apply notifyChange_registry_wf.
      match goal with
      | |- context [JSMap.set (session_id session) ?e _] =>
          apply (set_registry_wf r e W)
      end.
  - split; cbn; [constructor | intros k e []].
  - exact W.
Qed.

Lemma newRegistry_wf : registry_wf newRegistry.
Proof. split; cbn; [constructor | intros k e []]. Qed.

Lemma applyOps_registry_wf (ops : list RegistryOp) (r : AgentRegistry) :
  registry_wf r -> registry_wf (fold_left applyOp ops r).
Proof.
  revert r. induction ops as [| op ops IH]; intros r W; [exact W |].
  cbn [fold_left]. apply IH. now apply applyOp_registry_wf.
Qed.

(** After any sequence of registry operations from the empty registry,
    no two entries have the same key and every entry is stored under
    its own [agentId]: the registry holds one entry per agent. *)
Theorem registry_holds_one_entry_per_agent :
  forall ops : list RegistryOp, registry_wf (fold_left applyOp ops newRegistry).
Proof.
  intros ops. apply applyOps_registry_wf, newRegistry_wf.
Qed.

Lemma findBestForCapability_registered (r : AgentRegistry) (cap : AgentCapability)
    (ex : option string) (a : AgentRegistryEntry) :
  registry_wf r -> findBestForCapability r cap ex = Some a ->
  get r (agentId a) <> None.
Proof.
  intros [_ K] H. rewrite findBestForCapability_hd in H.
  apply (array_sort_hd compareCandidates compareCandidates_trans
           compareCandidates_total) in H.
  destruct H as [Hin _]. unfold candidatesFor, findByCapability, getAll in Hin.
  apply filter_In in Hin. destruct Hin as [Hin _].
  apply filter_In in Hin. destruct Hin as [Hin _].
  unfold JSMap.values in Hin. apply in_map_iff in Hin.
  destruct Hin as ([k e] & <- & Hin). cbn [snd].
  rewrite (K k e Hin). apply JSMap_In_has in Hin.
  unfold get, JSMap.has in *. destruct (JSMap.get k (agents r)); congruence.
Qed.

(** On such a registry [sendMessage] never throws: the lookup of the
    selected target succeeds. *)
Theorem sendMessage_does_not_throw
    (rt : Router) (fromAgentId : string) (request : SendAgentMessageRequest)
    (messageId eventId : string) (timestamp sentAt : Z)
    (Hwf : registry_wf (registry rt)) :
  snd (sendMessage_start rt fromAgentId request messageId eventId timestamp sentAt)
  <> sendThrew.
Proof.
  unfold sendMessage_start.
  destruct (get (registry rt) fromAgentId); [| discriminate].
  destruct (resolveTarget (registry rt) fromAgentId request)
    as [[routing target] |] eqn:R; [| discriminate].
  destruct (get (registry rt) target) eqn:T; [discriminate |].
  exfalso. unfold resolveTarget in R.
  destruct (truthy (req_toAgentId request)) as [t |].
  - destruct (get (registry rt) t) as [e |] eqn:E; [| discriminate].
    destruct (negb (acceptsMessages e)); [discriminate |].
    destruct (isOffline e); [discriminate |].
    injection R as _ <-. congruence.
  - destruct (truthy (req_toCapability request)) as [c |]; [| discriminate].
    destruct (findBestForCapability (registry rt) c (Some fromAgentId))
      as [best |] eqn:B; [| discriminate].
    injection R as _ <-.
    now apply (findBestForCapability_registered _ _ _ _ Hwf B).
Qed.

Lemma sendMessage_does_not_throw_witness :
  snd (sendMessage_start (newRouter scenario_registry) "A" (request_to_B 5000)
         "m1" "e1" 0 0)
  <> sendThrew.
Proof.
  apply sendMessage_does_not_throw.
  exact (applyOps_registry_wf
           [ op_register (fst (scenario_agent "A" idle 5))
                         (snd (scenario_agent "A" idle 5));
             op_register (fst (scenario_agent "B" working 10))
                         (snd (scenario_agent "B" working 10));
             op_register (fst (scenario_agent "C" idle 8))
                         (snd (scenario_agent "C" idle 8)) ]
           newRegistry newRegistry_wf).
Defined.

(* ------------------------------------------------------------------ *)
(** ** Router: scenarios of the specification *)

(** A sends [{toCapability: "testing", message: "run suite",
    expectsResponse: true, responseTimeout: 5000}] with B the only
    agent that has the capability; B answers "42 passed"; A's promise
    is resolved with [{ok: true, response: "42 passed",
    responseSuccess: true}], and nothing is pending any more. *)
Theorem capability_request_is_answered :
  promiseResult capability_scenario "m1"
  = Some {| ok := true; res_messageId := Some "m1"; res_targetAgentId := Some "B";
            res_error := None; res_response := Some "42 passed";
            res_responseData := None; res_responseSuccess := Some true;
            res_responseReceivedAt := Some 20 |}
  /\ getPendingCount capability_scenario = 0%nat
  /\ map fst (deliveries capability_scenario) = ["B"; "A"].
Proof. do 2 (split; [vm_compute; reflexivity |]). vm_compute. reflexivity. Qed.

(** [destroy] rejects every pending request and leaves none pending; a
    second [destroy] changes nothing. *)
Theorem destroy_is_idempotent :
  forall rt : Router,
    getPendingCount (destroy rt) = 0%nat
    /\ timeoutChecker (destroy rt) = false
    /\ destroy (destroy rt) = destroy rt.
Proof.
  intros rt. unfold destroy, clearPending, getPendingCount.
  cbn [pendingMessages with_pendingMessages with_timeoutChecker fold_left
       JSMap.size JSMap.empty List.length].
  split; [reflexivity |].
  assert (T : forall (l : list (string * PendingMessage)) r,
            timeoutChecker
              (fold_left (fun rt entry =>
                            PendingMessage_reject rt (pm_messageId (snd entry))
                              "Router cleared") l r)
            = timeoutChecker r).
  { induction l as [| e l IH]; intros r; [reflexivity |].
    cbn [fold_left]. rewrite IH.
    now destruct (reject_fields r (pm_messageId (snd e)) "Router cleared")
      as (_ & _ & _ & T & _). }
  split.
  - cbn [timeoutChecker with_pendingMessages]. now rewrite T.
  - match goal with
    | |- context [fold_left ?f (pendingMessages rt) ?r] =>
        pose proof (T (pendingMessages rt) r) as T';
        generalize dependent (fold_left f (pendingMessages rt) r)
    end.
    intros r T'. cbn [timeoutChecker with_timeoutChecker] in T'.
    destruct r. cbn in *. now subst.
Qed.

(* ------------------------------------------------------------------ *)
(** ** Registry: lookups after an update *)

Lemma notifyChange_get (r : AgentRegistry) (id : string) :
  get (notifyChange r) id = get r id.
Proof. reflexivity. Qed.

(** The registry is a map keyed by [agentId]: [register] and
    [registerFromSession] make their entry the one found under its id,
    [unregister] makes the id unknown and says whether it was known,
    [updateStatus] changes the status and the activity time of a known
    agent and nothing else; every other id is found as before. *)
Theorem registry_lookup_after_update :
  forall (r : AgentRegistry) (id : string),
    (forall request session,
       get (fst (register r request session)) id
       = if String.eqb (reg_agentId request) id
         then Some (snd (register r request session))
         else get r id)
    /\ (forall session,
          get (fst (registerFromSession r session)) id
          = if String.eqb (session_id session) id
            then Some (snd (registerFromSession r session))
            else get r id)
    /\ (forall x,
          get (fst (unregister r x)) id
          = (if String.eqb x id then None else get r id)
          /\ snd (unregister r x) = JSMap.has x (agents r))
    /\ (forall x st now,
          get (updateStatus r x st now) id
          = if String.eqb x id
            then option_map (fun e => withStatus e st now) (get r x)
            else get r id).
Proof.
  intros r id. unfold get. split; [| split; [| split]].
  - intros request session. unfold register. cbn [fst snd notifyChange agents with_agents].
    destruct (String.eqb (reg_agentId request) id) eqn:E.
    + apply String.eqb_eq in E. subst id. apply JSMap_get_set_eq.
    + apply String.eqb_neq in E. now apply JSMap_get_set_ne.
  - intros session. unfold registerFromSession.
    cbn [fst snd notifyChange agents with_agents].
    destruct (String.eqb (session_id session) id) eqn:E.
    + apply String.eqb_eq in E. subst id. apply JSMap_get_set_eq.
    + apply String.eqb_neq in E. now apply JSMap_get_set_ne.
  - intros x. unfold unregister.
    assert (G : JSMap.get id (JSMap.delete x (agents r))
                = if String.eqb x id then None else JSMap.get id (agents r)).
    { destruct (String.eqb x id) eqn:E.
      - apply String.eqb_eq in E. subst id. apply JSMap_get_delete_eq.
      - apply String.eqb_neq in E. now apply JSMap_get_delete_ne. }
    destruct (JSMap.has x (agents r)); cbn [fst snd notifyChange agents with_agents];
      split; (exact G || reflexivity).
  - intros x st now. unfold updateStatus.
    destruct (JSMap.get x (agents r)) as [e |] eqn:Hx;
      cbn [notifyChange agents with_agents option_map].
    + destruct (String.eqb x id) eqn:E.
      * apply String.eqb_eq in E. subst id. apply JSMap_get_set_eq.
      * apply String.eqb_neq in E. now apply JSMap_get_set_ne.
    + destruct (String.eqb x id) eqn:E; [| reflexivity].
      apply String.eqb_eq in E. now subst id.
Qed.

Lemma JSMap_set_length {V} (k : string) (v : V) (m : JSMap.t V) :
  List.length (JSMap.set k v m)
  = if JSMap.has k m then List.length m else S (List.length m).
Proof.
  unfold JSMap.has. induction m as [| [k' v'] m IH]; simpl; [reflexivity |].
  destruct (String.eqb k k'); simpl; [reflexivity |].
  rewrite IH. now destruct (JSMap.get k m).
Qed.

(** [updateFromSession] is an upsert.  For a registered session it
    takes the status, the activity time and the working directory
    from the session and keeps the entry's name, capabilities and
    [acceptsMessages], with no entry added; for an unknown one it does
    what [registerFromSession] does.  Either way the session is
    registered afterwards with the session's status. *)
Theorem updateFromSession_upserts :
  forall (r : AgentRegistry) (session : ManagedSession),
    let r' := updateFromSession r session in
    (forall e, get r (session_id session) = Some e ->
       get r' (session_id session) = Some (withSession e session)
       /\ List.length (getAll r') = List.length (getAll r))
    /\ (get r (session_id session) = None ->
        r' = fst (registerFromSession r session)
        /\ List.length (getAll r') = S (List.length (getAll r)))
    /\ option_map status (get r' (session_id session))
       = Some (session_status session)
    /\ forall id, id <> session_id session -> get r' id = get r id.
Proof.
  intros r session. cbv zeta. unfold updateFromSession, get, getAll, JSMap.values.
  destruct (JSMap.get (session_id session) (agents r)) as [e |] eqn:E.
  - cbn [notifyChange agents with_agents].
    split; [| split; [| split]].
    + intros e' [= <-]. split; [apply JSMap_get_set_eq |].
      rewrite !length_map, JSMap_set_length. unfold JSMap.has. now rewrite E.
    + discriminate.
    + now rewrite JSMap_get_set_eq.
    + intros id ne. apply JSMap_get_set_ne. congruence.
  - unfold registerFromSession. cbn [fst notifyChange agents with_agents].
    split; [| split; [| split]].
    + discriminate.
    + intros _. split; [reflexivity |].
      rewrite !length_map, JSMap_set_length. unfold JSMap.has. now rewrite E.
    + now rewrite JSMap_get_set_eq.
    + intros id ne. apply JSMap_get_set_ne. congruence.
Qed.

(* ------------------------------------------------------------------ *)
(** ** Registry: change notifications *)

Lemma applyOp_notifications (r : AgentRegistry) (op : RegistryOp) :
  notifications (applyOp r op)
  = (notifications r
     ++ if notifies r op
        then map (fun cb => (cb, getAll (applyOp r op))) (changeCallbacks r)
        else [])%list.
Proof.
  destruct op; cbn [applyOp notifies]; try reflexivity.
  - unfold unregister. destruct (JSMap.has agentId0 (agents r));
      cbn [fst notifications with_agents notifyChange];
      [reflexivity | now rewrite app_nil_r].
  - unfold updateStatus, JSMap.has.
    destruct (JSMap.get agentId0 (agents r)); [reflexivity | now rewrite app_nil_r].
  - unfold updateFromSession.
    destruct (JSMap.get (session_id session) (agents r)); reflexivity.
  - cbn. now rewrite app_nil_r.
Qed.

Lemma remove_first_absent (cb : CallbackId) (l : list CallbackId) :
  ~ In cb l -> remove_first cb l = l.
Proof.
  induction l as [| x l IH]; simpl; [reflexivity |]. intros H.
  destruct (Nat.eqb x cb) eqn:E.
  - apply Nat.eqb_eq in E. tauto.
  - rewrite IH; tauto.
Qed.

Lemma remove_first_app (cb : CallbackId) (l : list CallbackId) :
  ~ In cb l -> remove_first cb (l ++ [cb]) = l.
Proof.
  induction l as [| x l IH]; simpl; intros H.
  - now rewrite Nat.eqb_refl.
  - destruct (Nat.eqb x cb) eqn:E.
    + apply Nat.eqb_eq in E. tauto.
    + rewrite IH; tauto.
Qed.

Lemma applyOp_callbacks (r : AgentRegistry) (op : RegistryOp) :
  changeCallbacks (applyOp r op)
  = match op with
    | op_onChange cb => (changeCallbacks r ++ [cb])%list
    | _ => changeCallbacks r
    end.
Proof.
  destruct op; cbn [applyOp]; try reflexivity.
  - unfold unregister. now destruct (JSMap.has agentId0 (agents r)).
  - unfold updateStatus. now destruct (JSMap.get agentId0 (agents r)).
  - unfold updateFromSession.
    now destruct (JSMap.get (session_id session) (agents r)).
Qed.

(** Subscribing a callback that is not subscribed and calling the
    function [onChange] returned leaves the registry as it was, and the
    callback hears of no later change; calling that function for a
    callback that is not subscribed does nothing. *)
Theorem unsubscribe_undoes_onChange
    (r : AgentRegistry) (cb : CallbackId)
    (Hnew : ~ In cb (changeCallbacks r)) :
  unsubscribe (onChange r cb) cb = r
  /\ unsubscribe r cb = r
  /\ forall ops : list RegistryOp,
       ~ In (op_onChange cb) ops ->
       forall agents_seen,
         In (cb, agents_seen)
            (notifications (fold_left applyOp ops (unsubscribe (onChange r cb) cb))) ->
         In (cb, agents_seen) (notifications r).
Proof.
  assert (U1 : unsubscribe (onChange r cb) cb = r).
  { unfold unsubscribe, onChange. cbn. rewrite remove_first_app by exact Hnew.
    now destruct r. }
  assert (U2 : unsubscribe r cb = r).
  { unfold unsubscribe. rewrite remove_first_absent by exact Hnew. now destruct r. }
  split; [exact U1 |]. split; [exact U2 |].
  rewrite U1. intros ops. revert r Hnew U1 U2.
  induction ops as [| op ops IH]; intros r Hnew _ _ Hops seen Hin; [exact Hin |].
  cbn [fold_left] in Hin.
  assert (Hop : op <> op_onChange cb) by (intros ->; apply Hops; now left).
  assert (Hnew' : ~ In cb (changeCallbacks (applyOp r op))).
  { rewrite applyOp_callbacks. destruct op; try exact Hnew.
    rewrite in_app_iff. intros [H | [H | []]]; [tauto | congruence]. }
  assert (U1' : unsubscribe (onChange (applyOp r op) cb) cb = applyOp r op).
  { unfold unsubscribe, onChange. cbn. rewrite remove_first_app by exact Hnew'.
    now destruct (applyOp r op). }
  assert (U2' : unsubscribe (applyOp r op) cb = applyOp r op).
  { unfold unsubscribe. rewrite remove_first_absent by exact Hnew'.
    now destruct (applyOp r op). }
  specialize (IH (applyOp r op) Hnew' U1' U2'
                (fun H => Hops (or_intror H)) seen Hin).
  rewrite applyOp_notifications in IH.
  apply in_app_iff in IH. destruct IH as [H | H]; [exact H |].
  exfalso. destruct (notifies r op); [| exact H].
  apply in_map_iff in H. destruct H as (cb' & [= -> _] & Hcb). tauto.
Qed.

Lemma unsubscribe_undoes_onChange_witness :
  unsubscribe (onChange scenario_registry 7%nat) 7%nat = scenario_registry
  /\ unsubscribe scenario_registry 7%nat = scenario_registry
  /\ forall ops : list RegistryOp,
       ~ In (op_onChange 7%nat) ops ->
       forall agents_seen,
         In (7%nat, agents_seen)
            (notifications
               (fold_left applyOp ops
                  (unsubscribe (onChange scenario_registry 7%nat) 7%nat))) ->
         In (7%nat, agents_seen) (notifications scenario_registry).
Proof.
  apply (unsubscribe_undoes_onChange scenario_registry 7%nat).
  vm_compute. intros [].
Defined.

(* ------------------------------------------------------------------ *)
(** ** Registry and router: who can be a target *)

Lemma JSMap_NoDup_get {V} (k : string) (v : V) (m : JSMap.t V) :
  NoDup (JSMap.keys m) -> In (k, v) m -> JSMap.get k m = Some v.
Proof.
  unfold JSMap.keys. induction m as [| [k' v'] m IH]; simpl; [intros _ [] |].
  intros N H. inversion N as [| ? ? Hn Hd]; subst.
  destruct H as [[= -> ->] | H].
  - now rewrite String.eqb_refl.
  - destruct (String.eqb k k') eqn:E.
    + apply String.eqb_eq in E. subst k'. exfalso. apply Hn.
      apply in_map_iff. now exists (k, v).
    + now apply IH.
Qed.

Lemma registry_wf_get (r : AgentRegistry) (a : AgentRegistryEntry) :
  registry_wf r -> In a (getAll r) -> get r (agentId a) = Some a.
Proof.
  intros [N K] H. unfold getAll, JSMap.values in H. apply in_map_iff in H.
  destruct H as ([k e] & <- & Hin). cbn [snd]. rewrite (K k e Hin).
  now apply JSMap_NoDup_get.
Qed.

Lemma registry_wf_getAll (r : AgentRegistry) (id : string) (a : AgentRegistryEntry) :
  registry_wf r -> get r id = Some a -> In a (getAll r) /\ agentId a = id.
Proof.
  intros [_ K] H. apply JSMap_get_In in H. split; [| now apply K].
  unfold getAll, JSMap.values. apply in_map_iff. now exists (id, a).
Qed.

Lemma isOffline_status (a : AgentRegistryEntry) :
  isOffline a = false <-> status a <> offline.
Proof.
  unfold isOffline. destruct (status a); cbn; split; congruence.
Qed.

Lemma findBestForCapability_sound (r : AgentRegistry) (cap : AgentCapability)
    (ex : option string) (a : AgentRegistryEntry) :
  findBestForCapability r cap ex = Some a ->
  In a (getAll r)
  /\ In cap (capabilities a)
  /\ acceptsMessages a = true
  /\ status a <> offline
  /\ notExcluded ex a = true
  /\ forall b, In b (candidatesFor r cap ex) -> candidate_le a b.
Proof.
  intros H. rewrite findBestForCapability_hd in H.
  apply (array_sort_hd compareCandidates compareCandidates_trans
           compareCandidates_total) in H.
  destruct H as [Hin Hmin]. unfold candidatesFor, findByCapability in Hin.
  apply filter_In in Hin. destruct Hin as [Hin Hex].
  apply filter_In in Hin. destruct Hin as [Hall Hc].
  apply andb_true_iff in Hc. destruct Hc as [Hc Hoff].
  apply andb_true_iff in Hc. destruct Hc as [Hcap Hacc].
  apply negb_true_iff in Hoff.
  repeat split; try assumption.
  - now apply array_includes_In.
  - now apply isOffline_status.
  - intros b Hb. apply compareCandidates_le. now apply Hmin.
Qed.

(** On a registry with one entry per agent: an agent is listed by
    [getMessageableAgents] exactly when it is registered, accepts
    messages and [isOnline]; [findByCapability] lists exactly the
    messageable agents that have the capability; and the agent
    [findBestForCapability] returns is one of those, never the
    excluded one. *)
Theorem messageable_agents_are_online
    (r : AgentRegistry) (Hwf : registry_wf r) :
  (forall a,
     In a (getMessageableAgents r)
     <-> get r (agentId a) = Some a
         /\ acceptsMessages a = true
         /\ isOnline r (agentId a) = true)
  /\ (forall cap a,
        In a (findByCapability r cap)
        <-> In a (getMessageableAgents r) /\ In cap (capabilities a))
  /\ (forall cap ex a,
        findBestForCapability r cap ex = Some a ->
        In a (findByCapability r cap) /\ ex <> Some (agentId a)).
Proof.
  split; [| split].
  - intros a. unfold getMessageableAgents. rewrite filter_In, andb_true_iff.
    rewrite negb_true_iff. split.
    + intros (Hin & Hacc & Hoff).
      pose proof (registry_wf_get r a Hwf Hin) as G.
      repeat split; try assumption.
      unfold isOnline. unfold get in G. rewrite G. now rewrite Hoff.
    + intros (G & Hacc & Hon).
      split; [now apply (registry_wf_getAll r (agentId a) a Hwf) |].
      split; [exact Hacc |].
      unfold isOnline in Hon. unfold get in G. rewrite G in Hon.
      now apply negb_true_iff.
  - intros cap a. unfold findByCapability, getMessageableAgents.
    rewrite !filter_In, !andb_true_iff, array_includes_In. tauto.
  - intros cap ex a H.
    destruct (findBestForCapability_sound r cap ex a H)
      as (Hall & Hcap & Hacc & Hst & Hex & _).
    split.
    + unfold findByCapability. rewrite filter_In, !andb_true_iff.
      rewrite array_includes_In, negb_true_iff, isOffline_status. tauto.
    + intros ->. cbn in Hex. now rewrite String.eqb_refl in Hex.
Qed.

Lemma messageable_agents_are_online_witness :
  (forall a,
     In a (getMessageableAgents scenario_registry)
     <-> get scenario_registry (agentId a) = Some a
         /\ acceptsMessages a = true
         /\ isOnline scenario_registry (agentId a) = true)
  /\ (forall cap a,
        In a (findByCapability scenario_registry cap)
        <-> In a (getMessageableAgents scenario_registry) /\ In cap (capabilities a))
  /\ (forall cap ex a,
        findBestForCapability scenario_registry cap ex = Some a ->
        In a (findByCapability scenario_registry cap) /\ ex <> Some (agentId a)).
Proof.
  apply messageable_agents_are_online.
  exact (applyOps_registry_wf
           [ op_register (fst (scenario_agent "A" idle 5))
                         (snd (scenario_agent "A" idle 5));
             op_register (fst (scenario_agent "B" working 10))
                         (snd (scenario_agent "B" working 10));
             op_register (fst (scenario_agent "C" idle 8))
                         (snd (scenario_agent "C" idle 8)) ]
           newRegistry newRegistry_wf).
Defined.


Lemma sendMessage_start_inv
    (rt rt' : Router) (fromAgentId : string) (request : SendAgentMessageRequest)
    (messageId eventId started : string) (timestamp sentAt : Z) :
  sendMessage_start rt fromAgentId request messageId eventId timestamp sentAt
  = (rt', sendAwaitingDelivery started) ->
  started = messageId
  /\ exists fromAgent routing targetId targetAgent ev,
       get (registry rt) fromAgentId = Some fromAgent
       /\ resolveTarget (registry rt) fromAgentId request = inl (routing, targetId)
       /\ get (registry rt) targetId = Some targetAgent
       /\ msg_messageId ev = messageId
       /\ msg_fromAgentId ev = fromAgentId
       /\ msg_toAgentId ev = Some targetId
       /\ msg_routing ev = routing
       /\ msg_message ev = req_message request
       /\ msg_priority ev
          = match req_priority request with Some p => p | None => normal end
       /\ msg_responseTimeout ev = Some (timeoutOf request)
       /\ msg_expectsResponse ev = expectsResponse request
       /\ let rt0 :=
            broadcastEvent (addToHistory rt (agent_message ev)) (agent_message ev) in
          let rt1 :=
            if expectsResponse request then
              with_pendingMessages rt0
                (JSMap.set messageId
                   (pendingFor fromAgentId (name fromAgent) targetId
                      (name targetAgent) request messageId sentAt)
                   (pendingMessages rt0))
            else rt0 in
          rt' = startDelivery
                  (with_sendFrames rt1
                     (JSMap.set messageId
                        (frameAtAwait messageId targetId (expectsResponse request))
                        (sendFrames rt1)))
                  targetId (agent_message ev).
Proof.
  unfold sendMessage_start.
  destruct (get (registry rt) fromAgentId) as [fromAgent |] eqn:F;
    [| discriminate].
  destruct (resolveTarget (registry rt) fromAgentId request)
    as [[routing targetId] |] eqn:R; [| discriminate].
  destruct (get (registry rt) targetId) as [targetAgent |] eqn:T;
    [| discriminate].
  intros [= <- <-]. split; [reflexivity |].
  exists fromAgent, routing, targetId, targetAgent.
  exists {| msg_id := eventId;
            msg_timestamp := timestamp;
            msg_sessionId := fromAgentId;
            msg_cwd := match cwd fromAgent with Some d => d | None => "" end;
            msg_fromAgentId := fromAgentId;
            msg_fromAgentName := name fromAgent;
            msg_toAgentId := Some targetId;
            msg_toCapability := req_toCapability request;
            msg_routing := routing;
            msg_message := req_message request;
            msg_context := option_map callerContext (req_context request);
            msg_priority :=
              match req_priority request with Some p => p | None => normal end;
            msg_messageId := messageId;
            msg_expectsResponse := expectsResponse request;
            msg_responseTimeout := Some (timeoutOf request) |}.
  split; [reflexivity |]. split; [reflexivity |]. split; [exact T |].
  repeat (split; [reflexivity |]). reflexivity.
Qed.

(** A message is only ever sent to an agent that is registered, accepts
    messages and is not offline.  With [toAgentId] that agent is the
    one named; with [toCapability] it has the capability, is not the
    sender, and no other candidate is a better one.  The one delivery that is started goes to that agent
    and carries the request's [messageId]. *)
Theorem sendMessage_targets_a_reachable_agent
    (rt rt' : Router) (fromAgentId : string) (request : SendAgentMessageRequest)
    (messageId eventId started : string) (timestamp sentAt : Z)
    (Hwf : registry_wf (registry rt))
    (Hstart : sendMessage_start rt fromAgentId request messageId eventId
                timestamp sentAt
              = (rt', sendAwaitingDelivery started)) :
  started = messageId
  /\ exists target ev,
       get (registry rt) (agentId target) = Some target
       /\ acceptsMessages target = true
       /\ status target <> offline
       /\ deliveries rt' = (deliveries rt ++ [(agentId target, agent_message ev)])%list
       /\ msg_messageId ev = messageId
       /\ msg_fromAgentId ev = fromAgentId
       /\ msg_toAgentId ev = Some (agentId target)
       /\ (forall x, truthy (req_toAgentId request) = Some x ->
             agentId target = x /\ msg_routing ev = routing_direct)
       /\ (forall cap, truthy (req_toAgentId request) = None ->
             truthy (req_toCapability request) = Some cap ->
             agentId target <> fromAgentId
             /\ In cap (capabilities target)
             /\ msg_routing ev = routing_capability
             /\ forall b, In b (candidatesFor (registry rt) cap (Some fromAgentId)) ->
                          candidate_le target b).
Proof.
  destruct (sendMessage_start_inv _ _ _ _ _ _ _ _ _ Hstart)
    as (-> & fromAgent & routing & targetId & target & ev & _ & R & T
        & Hmid & Hfrom & Hto & Hrouting & _ & _ & _ & _ & Hrt).
  split; [reflexivity |].
  destruct (registry_wf_getAll _ _ _ Hwf T) as [Hall Hid].
  assert (D : deliveries rt'
              = (deliveries rt ++ [(targetId, agent_message ev)])%list).
  { cbv zeta in Hrt. rewrite Hrt. destruct (expectsResponse request); reflexivity. }
  exists target, ev. rewrite Hid.
  unfold resolveTarget in R.
  destruct (truthy (req_toAgentId request)) as [x |] eqn:Hx.
  - destruct (get (registry rt) x) as [t1 |] eqn:T1; [| discriminate].
    destruct (acceptsMessages t1) eqn:Hacc; [| discriminate].
    destruct (isOffline t1) eqn:Hoff; [discriminate |].
    cbn [negb] in R. injection R as <- <-.
    assert (t1 = target) as -> by congruence.
    split; [exact T |]. split; [exact Hacc |].
    split; [now apply isOffline_status |].
    split; [exact D |]. split; [exact Hmid |]. split; [exact Hfrom |].
    split; [exact Hto |]. split.
    + intros y [= <-]. now split.
    + discriminate.
  - destruct (truthy (req_toCapability request)) as [cap |] eqn:Hcap;
      [| discriminate].
    destruct (findBestForCapability (registry rt) cap (Some fromAgentId))
      as [best |] eqn:B; [| discriminate].
    injection R as <- <-.
    destruct (findBestForCapability_sound _ _ _ _ B)
      as (Ball & Bcap & Bacc & Bst & Bex & Bmin).
    pose proof (registry_wf_get _ _ Hwf Ball) as G.
    assert (best = target) as -> by congruence.
    split; [exact T |]. split; [exact Bacc |]. split; [exact Bst |].
    split; [exact D |]. split; [exact Hmid |]. split; [exact Hfrom |].
    split; [exact Hto |]. split; [discriminate |].
    intros cap' _ [= <-]. repeat split; try assumption.
    intros E. cbn in Bex. rewrite E, String.eqb_refl in Bex. discriminate.
Qed.

Lemma sendMessage_targets_a_reachable_agent_witness :
  "m1" = "m1"
  /\ exists target ev,
       get (registry (newRouter capability_registry)) (agentId target) = Some target
       /\ acceptsMessages target = true
       /\ status target <> offline
       /\ deliveries scenario_capability_sending
          = (deliveries (newRouter capability_registry)
             ++ [(agentId target, agent_message ev)])%list
       /\ msg_messageId ev = "m1"
       /\ msg_fromAgentId ev = "A"
       /\ msg_toAgentId ev = Some (agentId target)
       /\ (forall x, truthy (req_toAgentId request_testing) = Some x ->
             agentId target = x /\ msg_routing ev = routing_direct)
       /\ (forall cap, truthy (req_toAgentId request_testing) = None ->
             truthy (req_toCapability request_testing) = Some cap ->
             agentId target <> "A"
             /\ In cap (capabilities target)
             /\ msg_routing ev = routing_capability
             /\ forall b,
                  In b (candidatesFor (registry (newRouter capability_registry))
                          cap (Some "A")) ->
                  candidate_le target b).
Proof.
  apply (sendMessage_targets_a_reachable_agent
           (newRouter capability_registry) scenario_capability_sending
           "A" request_testing "m1" "e1" "m1" 0 0).
  - exact (applyOps_registry_wf
             [ op_register
                 {| reg_agentId := "A"; reg_name := "A";
                    reg_capabilities := ["general"];
                    reg_acceptsMessages := None; reg_metadata := None |}
                 {| session_id := "A"; session_name := "A"; session_backend := sdk;
                    session_status := working; session_lastActivity := 1;
                    session_cwd := None |};
               op_register (fst (scenario_agent "B" idle 2))
                           (snd (scenario_agent "B" idle 2)) ]
             newRegistry newRegistry_wf).
  - vm_compute. reflexivity.
Defined.

(* ------------------------------------------------------------------ *)
(** ** Router: the state between two segments *)

Lemma JSMap_delete_set {V} (k : string) (v : V) (m : JSMap.t V) :
  JSMap.delete k (JSMap.set k v m) = JSMap.delete k m.
Proof.
  unfold JSMap.delete. induction m as [| [k' v'] m IH]; simpl.
  - now rewrite String.eqb_refl.
  - destruct (String.eqb k k') eqn:E; simpl.
    + now rewrite String.eqb_refl.
    + rewrite E. simpl. now rewrite IH.
Qed.

Lemma JSMap_delete_delete {V} (k : string) (m : JSMap.t V) :
  JSMap.delete k (JSMap.delete k m) = JSMap.delete k m.
Proof.
  unfold JSMap.delete. induction m as [| [k' v'] m IH]; simpl; [reflexivity |].
  destruct (String.eqb k k') eqn:E; simpl; [exact IH |].
  rewrite E. simpl. now rewrite IH.
Qed.

Lemma JSMap_In_delete_iff {V} (k k0 : string) (v : V) (m : JSMap.t V) :
  In (k, v) (JSMap.delete k0 m) <-> In (k, v) m /\ k <> k0.
Proof.
  split; [apply JSMap_In_delete |].
  intros [H ne]. unfold JSMap.delete. apply filter_In. split; [exact H |].
  cbn [fst]. apply Bool.negb_true_iff, String.eqb_neq. congruence.
Qed.

Lemma resolve_pending_eq (rt : Router) (m : string) (result : SendAgentMessageResponse) :
  pendingMessages (PendingMessage_resolve rt m result)
  = JSMap.delete m (pendingMessages rt).
Proof.
  unfold PendingMessage_resolve. fields.
  match goal with
  | |- context [inFrame ?r m ?act] =>
      destruct (inFrame_fields r m act) as (P & _)
  end.
  rewrite P. fields.
  destruct (JSMap.get m (pendingMessages rt)); [apply JSMap_delete_set | reflexivity].
Qed.

Lemma reject_pending_eq (rt : Router) (m message : string) :
  pendingMessages (PendingMessage_reject rt m message)
  = JSMap.delete m (pendingMessages rt).
Proof. now destruct (reject_fields rt m message) as (_ & _ & _ & _ & P). Qed.

Lemma resolve_frame_eq (rt : Router) (m : string) (result : SendAgentMessageResponse) :
  JSMap.get m (sendFrames (PendingMessage_resolve rt m result))
  = option_map (fun f => callPromiseResolve f result)
               (JSMap.get m (sendFrames rt)).
Proof. unfold PendingMessage_resolve. fields. now rewrite inFrame_get_eq. Qed.

Lemma reject_frame_eq (rt : Router) (m message : string) :
  JSMap.get m (sendFrames (PendingMessage_reject rt m message))
  = option_map (fun f => callPromiseResolve f
                           (rejection m (sf_targetAgentId f) message))
               (JSMap.get m (sendFrames rt)).
Proof. unfold PendingMessage_reject. fields. now rewrite inFrame_get_eq. Qed.

Lemma callPromiseResolve_ok (k : string) (f : SendFrame)
    (result : SendAgentMessageResponse) :
  frame_ok k f -> res_messageId result = Some k ->
  frame_ok k (callPromiseResolve f result).
Proof.
  intros Hf Hr. unfold callPromiseResolve.
  destruct (pendingPromiseResolve f) eqn:W; [| exact Hf].
  destruct (sf_result f) eqn:S; [exact Hf |].
  destruct Hf as (Hid & Haw & Hres).
  split; [exact Hid |]. split.
  - cbn. intros A. destruct (Haw A). congruence.
  - cbn. now intros r [= <-].
Qed.

(** A change to the state that takes pending messages away and touches
    the frame of one message only. *)
Lemma router_wf_update (rt rt' : Router) (m : string) :
  router_wf rt ->
  NoDup (JSMap.keys (pendingMessages rt')) ->
  (forall k p, In (k, p) (pendingMessages rt') -> In (k, p) (pendingMessages rt)) ->
  (forall k, k <> m ->
             JSMap.get k (sendFrames rt') = JSMap.get k (sendFrames rt)) ->
  (forall f', JSMap.get m (sendFrames rt') = Some f' ->
              exists f, JSMap.get m (sendFrames rt) = Some f
                        /\ frame_ok m f'
                        /\ forall p, In (m, p) (pendingMessages rt') ->
                                     entry_ok p f -> entry_ok p f') ->
  (JSMap.get m (sendFrames rt) <> None -> JSMap.get m (sendFrames rt') <> None) ->
  (forall d f, JSMap.get d (responseFrames rt') = Some f ->
               rf_messageId f = pm_messageId (rf_pending f)) ->
  router_wf rt'.
Proof.
  intros (N & E & F & R) N' Hsub Hne Hm Hkeep R'.
  split; [exact N' |]. split; [| split; [| exact R']].
  - intros k p H. destruct (E k p (Hsub k p H)) as (Hid & f & Hf & Hok).
    split; [exact Hid |].
    destruct (string_dec k m) as [-> | ne].
    + destruct (JSMap.get m (sendFrames rt')) as [f' |] eqn:Hf'.
      * destruct (Hm f' eq_refl) as (f0 & Hf0 & _ & Hentry).
        exists f'. split; [reflexivity |]. apply Hentry; [exact H |].
        congruence.
      * exfalso. apply Hkeep; congruence.
    + exists f. now rewrite Hne.
  - intros k f Hf. destruct (string_dec k m) as [-> | ne].
    + now destruct (Hm f Hf) as (_ & _ & Hok & _).
    + apply F. now rewrite <- Hne.
Qed.

Lemma delete_NoDup_sub (rt rt' : Router) (m : string) :
  NoDup (JSMap.keys (pendingMessages rt)) ->
  pendingMessages rt' = JSMap.delete m (pendingMessages rt) ->
  NoDup (JSMap.keys (pendingMessages rt'))
  /\ (forall k p, In (k, p) (pendingMessages rt') -> In (k, p) (pendingMessages rt))
  /\ (forall p, ~ In (m, p) (pendingMessages rt')).
Proof.
  intros N ->. split; [now apply JSMap_keys_delete_NoDup |]. split.
  - intros k p H. now apply JSMap_In_delete in H.
  - intros p H. apply JSMap_In_delete in H. now destruct H.
Qed.

(** Calling a closure of the message [m] with a result that names [m]. *)
Lemma settle_wf (rt rt' : Router) (m : string)
    (result : SendFrame -> SendAgentMessageResponse) :
  router_wf rt ->
  pendingMessages rt' = JSMap.delete m (pendingMessages rt) ->
  (forall k, k <> m ->
             JSMap.get k (sendFrames rt') = JSMap.get k (sendFrames rt)) ->
  JSMap.get m (sendFrames rt')
  = option_map (fun f => callPromiseResolve f (result f))
               (JSMap.get m (sendFrames rt)) ->
  (forall f, res_messageId (result f) = Some m) ->
  (forall d f, JSMap.get d (responseFrames rt') = Some f ->
               rf_messageId f = pm_messageId (rf_pending f)) ->
  router_wf rt'.
Proof.
  intros W P Hne Hm Hres R'.
  destruct (delete_NoDup_sub rt rt' m (proj1 W) P) as (N' & Hsub & Hnone).
  apply (router_wf_update rt rt' m W N' Hsub Hne); [| | exact R'].
  - intros f' Hf'. rewrite Hm in Hf'.
    destruct (JSMap.get m (sendFrames rt)) as [f |] eqn:Hf; [| discriminate].
    injection Hf' as <-. exists f. split; [reflexivity |]. split.
    + apply callPromiseResolve_ok; [| apply Hres].
      now apply (proj1 (proj2 (proj2 W))).
    + intros p H. now elim (Hnone p).
  - rewrite Hm. now destruct (JSMap.get m (sendFrames rt)).
Qed.

Lemma reject_wf (rt : Router) (m message : string) :
  router_wf rt -> router_wf (PendingMessage_reject rt m message).
Proof.
  intros W.
  apply (settle_wf rt _ m (fun f => rejection m (sf_targetAgentId f) message) W).
  - apply reject_pending_eq.
  - intros k ne. apply reject_frame_ne. congruence.
  - apply reject_frame_eq.
  - reflexivity.
  - destruct (reject_fields rt m message) as (R & _). cbv zeta in R. rewrite R.
    apply W.
Qed.

Lemma resolve_wf (rt : Router) (m : string) (result : SendAgentMessageResponse) :
  router_wf rt -> res_messageId result = Some m ->
  router_wf (PendingMessage_resolve rt m result).
Proof.
  intros W Hr.
  apply (settle_wf rt _ m (fun _ => result) W).
  - apply resolve_pending_eq.
  - intros k ne. apply resolve_frame_ne. congruence.
  - apply resolve_frame_eq.
  - intros _. exact Hr.
  - destruct (resolve_fields rt m result) as (R & _). cbv zeta in R. rewrite R.
    apply W.
Qed.

(** A change that leaves the three maps alone. *)
Lemma same_maps_wf (rt rt' : Router) :
  pendingMessages rt' = pendingMessages rt ->
  sendFrames rt' = sendFrames rt ->
  responseFrames rt' = responseFrames rt ->
  router_wf rt -> router_wf rt'.
Proof. unfold router_wf. now intros -> -> ->. Qed.

Lemma router_wf_get (rt : Router) (k : string) (p : PendingMessage) :
  router_wf rt -> JSMap.get k (pendingMessages rt) = Some p ->
  pm_messageId p = k
  /\ exists f, JSMap.get k (sendFrames rt) = Some f /\ entry_ok p f /\ frame_ok k f.
Proof.
  intros W H. apply JSMap_get_In in H.
  destruct (proj1 (proj2 W) k p H) as (Hid & f & Hf & Hok).
  split; [exact Hid |]. exists f. repeat split; try apply Hok; try exact Hf.
  all: now apply (proj1 (proj2 (proj2 W)) k f Hf).
Qed.

Lemma sweepEntry_wf (now : Z) (rt : Router) (k : string) (p : PendingMessage) :
  pm_messageId p = k -> router_wf rt -> router_wf (sweepEntry now rt (k, p)).
Proof.
  intros Hk W. rewrite sweepEntry_eq.
  destruct (pm_timeout p <? now - pm_sentAt p); [| exact W].
  rewrite Hk.
  apply (same_maps_wf (PendingMessage_reject rt k (timeoutMessage (pm_timeout p))));
    fields; try reflexivity; [| now apply reject_wf].
  rewrite reject_pending_eq. apply JSMap_delete_delete.
Qed.

Lemma sweep_fold_wf (now : Z) (l : list (string * PendingMessage)) (rt : Router) :
  (forall k p, In (k, p) l -> pm_messageId p = k) ->
  router_wf rt -> router_wf (fold_left (sweepEntry now) l rt).
Proof.
  revert rt. induction l as [| [k p] l IH]; intros rt Hl W; [exact W |].
  cbn [fold_left]. apply IH.
  - intros k' p' H. apply Hl. now right.
  - apply sweepEntry_wf; [apply Hl; now left | exact W].
Qed.

Lemma clear_fold_wf (l : list (string * PendingMessage)) (rt : Router) :
  router_wf rt ->
  router_wf (fold_left (fun rt entry =>
                          PendingMessage_reject rt (pm_messageId (snd entry))
                            "Router cleared") l rt).
Proof.
  revert rt. induction l as [| e l IH]; intros rt W; [exact W |].
  cbn [fold_left]. apply IH. now apply reject_wf.
Qed.

Lemma clearPending_wf (rt : Router) : router_wf rt -> router_wf (clearPending rt).
Proof.
  intros W. unfold clearPending.
  pose proof (clear_fold_wf (pendingMessages rt) rt W) as (_ & _ & F & R).
  split; [constructor |]. split; [intros k p [] |]. split; [exact F | exact R].
Qed.

Lemma newRouter_router_wf (r : AgentRegistry) : router_wf (newRouter r).
Proof.
  split; [constructor |]. split; [intros k p [] |].
  split; intros k f H; discriminate H.
Qed.

Lemma inFrame_wf (rt : Router) (m : string) (act : SendFrame -> SendFrame)
    (f : SendFrame) :
  router_wf rt ->
  JSMap.get m (sendFrames rt) = Some f ->
  frame_ok m (act f) ->
  (forall p, In (m, p) (pendingMessages rt) -> entry_ok p f -> entry_ok p (act f)) ->
  router_wf (inFrame rt m act).
Proof.
  intros W Hf Hok Hentry.
  destruct (inFrame_fields rt m act) as (P & R & _).
  apply (router_wf_update rt _ m W).
  - rewrite P. apply W.
  - now rewrite P.
  - intros k ne. apply inFrame_get_ne. congruence.
  - rewrite inFrame_get_eq, Hf. cbn [option_map]. intros f' [= <-].
    exists f. split; [reflexivity |]. split; [exact Hok |].
    rewrite P. exact Hentry.
  - rewrite inFrame_get_eq, Hf. discriminate.
  - rewrite R. apply W.
Qed.

Lemma delete_wf (rt : Router) (m : string) :
  router_wf rt ->
  router_wf (with_pendingMessages rt (JSMap.delete m (pendingMessages rt))).
Proof.
  intros W.
  destruct (delete_NoDup_sub rt
              (with_pendingMessages rt (JSMap.delete m (pendingMessages rt))) m
              (proj1 W) eq_refl) as (N' & Hsub & Hnone).
  apply (router_wf_update rt _ m W N' Hsub); fields.
  - reflexivity.
  - intros f' Hf'. exists f'. split; [exact Hf' |].
    split; [now apply (proj1 (proj2 (proj2 W))) |]. intros p H. now elim (Hnone p).
  - trivial.
  - apply W.
Qed.

Lemma JSMap_get_delete_Some {V} (k k0 : string) (v : V) (m : JSMap.t V) :
  JSMap.get k (JSMap.delete k0 m) = Some v -> JSMap.get k m = Some v.
Proof.
  destruct (string_dec k0 k) as [-> | ne].
  - now rewrite JSMap_get_delete_eq.
  - now rewrite JSMap_get_delete_ne.
Qed.

Lemma sendMessage_start_cases
    (rt rt' : Router) (fromAgentId : string) (request : SendAgentMessageRequest)
    (messageId eventId : string) (timestamp sentAt : Z) (s : SendStarted) :
  sendMessage_start rt fromAgentId request messageId eventId timestamp sentAt
  = (rt', s) ->
  rt' = rt \/ s = sendAwaitingDelivery messageId.
Proof.
  unfold sendMessage_start.
  destruct (get (registry rt) fromAgentId); [| intros [= <- _]; now left].
  destruct (resolveTarget (registry rt) fromAgentId request) as [[routing target] |];
    [| intros [= <- _]; now left].
  destruct (get (registry rt) target); [| intros [= <- _]; now left].
  intros [= _ <-]. now right.
Qed.

Lemma sendMessage_start_wf
    (rt : Router) (fromAgentId : string) (request : SendAgentMessageRequest)
    (messageId eventId : string) (timestamp sentAt : Z) :
  router_wf rt ->
  JSMap.has messageId (sendFrames rt) = false ->
  router_wf (fst (sendMessage_start rt fromAgentId request messageId eventId
                    timestamp sentAt)).
Proof.
  intros W Hfresh.
  destruct (sendMessage_start rt fromAgentId request messageId eventId
              timestamp sentAt) as [rt' s] eqn:E.
  cbn [fst].
  destruct (sendMessage_start_cases _ _ _ _ _ _ _ _ _ E) as [-> | ->];
    [exact W |].
  destruct (sendMessage_start_inv _ _ _ _ _ _ _ _ _ E)
    as (_ & fromAgent & routing & targetId & target & ev & _ & _ & _
        & _ & _ & _ & _ & _ & _ & _ & _ & Hrt).
  cbv zeta in Hrt. subst rt'.
  destruct W as (N & En & F & R).
  assert (Hold : forall k p, In (k, p) (pendingMessages rt) -> k <> messageId).
  { intros k p H ->. destruct (En _ _ H) as (_ & f & Hf & _).
    unfold JSMap.has in Hfresh. now rewrite Hf in Hfresh. }
  assert (Hframe : frame_ok messageId
                     (frameAtAwait messageId targetId (expectsResponse request))).
  { split; [reflexivity |]. split; [now split | discriminate]. }
  destruct (expectsResponse request) eqn:X; unfold router_wf; fields.
  - split; [now apply JSMap_keys_set_NoDup |]. split; [| split; [| exact R]].
    + intros k p H. apply JSMap_In_set in H. destruct H as [[= -> ->] | H].
      * split; [reflexivity |]. eexists. rewrite JSMap_get_set_eq.
        split; [reflexivity |]. now repeat split.
      * destruct (En k p H) as (Hid & f & Hf & Hok). split; [exact Hid |].
        exists f. rewrite JSMap_get_set_ne; [now split |].
        intros <-. now apply (Hold _ _ H).
    + intros k f. destruct (string_dec messageId k) as [<- | ne].
      * rewrite JSMap_get_set_eq. now intros [= <-].
      * rewrite JSMap_get_set_ne by exact ne. apply F.
  - split; [exact N |]. split; [| split; [| exact R]].
    + intros k p H. destruct (En k p H) as (Hid & f & Hf & Hok). split; [exact Hid |].
      exists f. rewrite JSMap_get_set_ne; [now split |].
      intros <-. now apply (Hold _ _ H).
    + intros k f. destruct (string_dec messageId k) as [<- | ne].
      * rewrite JSMap_get_set_eq. now intros [= <-].
      * rewrite JSMap_get_set_ne by exact ne. apply F.
Qed.

Lemma sendMessage_delivered_wf (rt : Router) (messageId : string) :
  router_wf rt -> router_wf (sendMessage_delivered rt messageId).
Proof.
  intros W. unfold sendMessage_delivered.
  destruct (JSMap.get messageId (sendFrames rt)) as [f |] eqn:Hf; [| exact W].
  destruct (sf_awaitingDelivery f) eqn:A; [| exact W].
  destruct (proj1 (proj2 (proj2 W)) _ _ Hf) as (Hid & Haw & Hres).
  destruct (Haw A) as [Hw Hr].
  destruct (sf_expectsResponse f) eqn:X; cbn [negb].
  - match goal with
    | |- context [inFrame rt messageId ?act] =>
        assert (W' : router_wf (inFrame rt messageId act));
        [| generalize dependent (inFrame rt messageId act) ]
    end.
    + apply (inFrame_wf rt messageId _ f W Hf).
      * split; [exact Hid |]. split; [discriminate |]. cbn. intros r. congruence.
      * intros p _ (E1 & E2 & E3). now repeat split.
    + intros r W'.
      destruct (JSMap.get messageId (pendingMessages r)) as [p |];
        [now destruct (pm_responseReceived p) | exact W'].
  - apply (inFrame_wf rt messageId _ f W Hf).
    + split; [exact Hid |]. split; [discriminate |]. cbn. now intros r [= <-].
    + intros p _ (E1 & _). congruence.
Qed.

Lemma sendMessage_failed_wf (rt : Router) (messageId : string) (error : Thrown) :
  router_wf rt -> router_wf (sendMessage_failed rt messageId error).
Proof.
  intros W. unfold sendMessage_failed.
  destruct (JSMap.get messageId (sendFrames rt)) as [f |] eqn:Hf; [| exact W].
  destruct (sf_awaitingDelivery f) eqn:A; [| exact W].
  destruct (proj1 (proj2 (proj2 W)) _ _ Hf) as (Hid & _).
  apply (inFrame_wf _ messageId _ f (delete_wf rt messageId W)); fields.
  - exact Hf.
  - split; [exact Hid |]. split; [discriminate |]. cbn. now intros r [= <-].
  - intros p H. apply JSMap_In_delete in H. now destruct H.
Qed.

Lemma handleResponse_start_wf (rt : Router) (fromAgentId messageId response : string)
    (success : bool) (error : option string) (data : option JsonObject)
    (eventId deliveryId : string) (timestamp deliveryTimestamp : Z) :
  router_wf rt ->
  router_wf (fst (handleResponse_start rt fromAgentId messageId response success
                    error data eventId deliveryId timestamp deliveryTimestamp)).
Proof.
  intros W. unfold handleResponse_start.
  destruct (get (registry rt) fromAgentId); [| exact W].
  destruct (JSMap.get messageId (pendingMessages rt)) as [p |] eqn:Hp;
    [| now apply (same_maps_wf rt)].
  destruct (router_wf_get _ _ _ W Hp) as (Hid & _).
  destruct (get (registry rt) (pm_fromAgentId p)); cbn [fst].
  - destruct W as (N & En & F & R).
    split; [exact N |]. split; [exact En |]. split; [exact F |]. fields.
    intros d f. destruct (string_dec deliveryId d) as [<- | ne].
    + rewrite JSMap_get_set_eq. intros [= <-]. cbn. congruence.
    + rewrite JSMap_get_set_ne by exact ne. apply (R d).
  - now apply reject_wf.
Qed.

Lemma take_response_wf (rt : Router) (deliveryId : string) :
  router_wf rt ->
  router_wf (with_responseFrames rt (JSMap.delete deliveryId (responseFrames rt))).
Proof.
  intros (N & En & F & R). split; [exact N |]. split; [exact En |].
  split; [exact F |]. fields. intros d f H. apply JSMap_get_delete_Some in H.
  now apply (R d).
Qed.

Lemma handleResponse_delivered_wf (rt : Router) (deliveryId : string) (now : Z) :
  router_wf rt -> router_wf (fst (handleResponse_delivered rt deliveryId now)).
Proof.
  intros W. unfold handleResponse_delivered.
  destruct (JSMap.get deliveryId (responseFrames rt)) as [f |] eqn:Hf; [| exact W].
  cbn [fst]. apply resolve_wf; [now apply take_response_wf |].
  cbn. f_equal. now apply (proj2 (proj2 (proj2 W)) deliveryId).
Qed.

Lemma handleResponse_failed_wf (rt : Router) (deliveryId : string) (error : Thrown) :
  router_wf rt -> router_wf (fst (handleResponse_failed rt deliveryId error)).
Proof.
  intros W. unfold handleResponse_failed.
  destruct (JSMap.get deliveryId (responseFrames rt)) as [f |] eqn:Hf; [| exact W].
  cbn [fst]. apply resolve_wf; [now apply take_response_wf |].
  cbn. f_equal. now apply (proj2 (proj2 (proj2 W)) deliveryId).
Qed.

Lemma checkTimeouts_wf (rt : Router) (now : Z) :
  router_wf rt -> router_wf (checkTimeouts rt now).
Proof.
  intros W. apply sweep_fold_wf; [| exact W].
  intros k p H. now apply (proj1 (proj2 W)).
Qed.

Lemma step_router_wf (rt : Router) (a : Action) :
  router_wf rt -> router_wf (step rt a).
Proof.
  intros W. destruct a; cbn [step].
  - destruct (JSMap.has messageId (sendFrames rt)) eqn:Hfresh; [exact W |].
    now apply sendMessage_start_wf.
  - now apply sendMessage_delivered_wf.
  - now apply sendMessage_failed_wf.
  - destruct (JSMap.has deliveryId (responseFrames rt)); [exact W |].
    now apply handleResponse_start_wf.
  - now apply handleResponse_delivered_wf.
  - now apply handleResponse_failed_wf.
  - destruct (broadcast_fields rt fromAgentId channel message data eventId timestamp
                outcome random) as (P & F & R & _).
    now apply (same_maps_wf rt).
  - destruct (timeoutChecker rt); [now apply checkTimeouts_wf | exact W].
  - now apply clearPending_wf.
  - unfold destroy. apply clearPending_wf. now apply (same_maps_wf rt).
  - now apply (same_maps_wf rt).
Qed.

Lemma run_router_wf (actions : list Action) (rt : Router) :
  router_wf rt -> router_wf (run rt actions).
Proof.
  revert rt. induction actions as [| a actions IH]; intros rt W; [exact W |].
  apply IH, step_router_wf, W.
Qed.

(* ------------------------------------------------------------------ *)
(** ** Router: what the sweep takes and what it leaves *)

Lemma filter_filter_and {A} (f g : A -> bool) (l : list A) :
  filter f (filter g l) = filter (fun x => g x && f x) l.
Proof.
  induction l as [| x l IH]; simpl; [reflexivity |].
  destruct (g x); simpl; [destruct (f x) |]; now rewrite IH.
Qed.

Lemma sweep_fold_pending (now : Z) (l : list (string * PendingMessage)) (rt : Router) :
  (forall k p, In (k, p) l -> pm_messageId p = k) ->
  pendingMessages (fold_left (sweepEntry now) l rt)
  = fold_left (fun P e => if expired now (snd e) then JSMap.delete (fst e) P else P)
              l (pendingMessages rt).
Proof.
  revert rt. induction l as [| [k p] l IH]; intros rt Hl; [reflexivity |].
  cbn [fold_left fst snd]. rewrite IH by (intros k' p' H; apply Hl; now right).
  f_equal. rewrite sweepEntry_eq. unfold expired.
  destruct (pm_timeout p <? now - pm_sentAt p); [| reflexivity].
  fields. rewrite reject_pending_eq, (Hl k p) by now left.
  apply JSMap_delete_delete.
Qed.

Lemma fold_delete_filter (now : Z) (l P0 : list (string * PendingMessage)) :
  fold_left (fun P e => if expired now (snd e) then JSMap.delete (fst e) P else P)
            l P0
  = filter (fun e => negb (existsb (fun e' => String.eqb (fst e') (fst e)
                                              && expired now (snd e')) l))
           P0.
Proof.
  revert P0. induction l as [| [k p] l IH]; intros P0; cbn [fold_left existsb fst snd].
  - induction P0 as [| e P0 IHP]; simpl; [reflexivity | f_equal; exact IHP].
  - rewrite IH. destruct (expired now p).
    + unfold JSMap.delete. rewrite filter_filter_and. apply filter_ext.
      intros e. rewrite Bool.andb_true_r, Bool.negb_orb. reflexivity.
    + apply filter_ext. intros e. now rewrite Bool.andb_false_r.
Qed.

Lemma existsb_own_key (now : Z) (l : list (string * PendingMessage))
    (k : string) (p : PendingMessage) :
  NoDup (JSMap.keys l) -> In (k, p) l ->
  existsb (fun e' => String.eqb (fst e') k && expired now (snd e')) l
  = expired now p.
Proof.
  unfold JSMap.keys. induction l as [| [k' p'] l IH]; simpl; [intros _ [] |].
  intros N H. inversion N as [| ? ? Hn Hd]; subst.
  destruct H as [[= -> ->] | H].
  - rewrite String.eqb_refl. cbn [andb].
    destruct (expired now p); [reflexivity |]. cbn [orb].
    apply Bool.not_true_is_false. intros E. apply existsb_exists in E.
    destruct E as ([k2 p2] & Hin & E). cbn [fst snd] in E.
    apply andb_prop in E. destruct E as [E _]. apply String.eqb_eq in E. subst k2.
    apply Hn. apply in_map_iff. now exists (k, p2).
  - destruct (String.eqb k' k) eqn:E.
    + apply String.eqb_eq in E. subst k'. exfalso. apply Hn.
      apply in_map_iff. now exists (k, p).
    + cbn [andb orb]. now apply IH.
Qed.

Lemma checkTimeouts_pending (rt : Router) (now : Z) :
  router_wf rt ->
  pendingMessages (checkTimeouts rt now)
  = filter (fun e => negb (expired now (snd e))) (pendingMessages rt).
Proof.
  intros W. unfold checkTimeouts.
  rewrite sweep_fold_pending by (intros k p H; now apply (proj1 (proj2 W))).
  rewrite fold_delete_filter. apply filter_ext_in. intros [k p] H. cbn [fst snd].
  f_equal. apply existsb_own_key; [apply W | exact H].
Qed.

(** In every state a router reaches, one run of the sweep at [now]
    takes away exactly the pending messages that have waited longer
    than their timeout and leaves the others as they are and in their
    order; a message that has waited exactly its timeout stays.
    [getPendingDetails] then shows no message overdue. *)
Theorem checkTimeouts_takes_exactly_the_overdue :
  forall (r : AgentRegistry) (actions : list Action) (now : Z),
    let rt := run (newRouter r) actions in
    pendingMessages (checkTimeouts rt now)
    = filter (fun e => negb (pm_timeout (snd e) <? now - pm_sentAt (snd e)))
             (pendingMessages rt)
    /\ (forall k p, JSMap.get k (pendingMessages rt) = Some p ->
          JSMap.get k (pendingMessages (checkTimeouts rt now))
          = if now - pm_sentAt p <=? pm_timeout p then Some p else None)
    /\ (forall d, In d (getPendingDetails (checkTimeouts rt now) now) ->
          pd_waitingFor d <= pd_timeout d).
Proof.
  intros r actions now rt.
  assert (W : router_wf rt) by apply run_router_wf, newRouter_router_wf.
  pose proof (checkTimeouts_pending rt now W) as E. unfold expired in E.
  split; [exact E |]. split.
  - intros k p H. rewrite E.
    assert (N : NoDup (JSMap.keys
                         (filter (fun e => negb (pm_timeout (snd e)
                                                 <? now - pm_sentAt (snd e)))
                                 (pendingMessages rt)))).
    { unfold JSMap.keys. destruct W as (N & _). unfold JSMap.keys in N.
      revert N. generalize (pendingMessages rt). intros l.
      induction l as [| [k' p'] l IH]; simpl; intros N; [constructor |].
      inversion N as [| ? ? Hn Hd]; subst.
      destruct (negb (pm_timeout p' <? now - pm_sentAt p')); simpl;
        [| now apply IH].
      constructor; [| now apply IH]. intros Hin. apply Hn.
      apply in_map_iff in Hin. destruct Hin as (e & <- & Hin).
      apply filter_In in Hin. apply in_map. now destruct Hin. }
    apply JSMap_get_In in H.
    destruct (now - pm_sentAt p <=? pm_timeout p) eqn:L.
    + apply JSMap_NoDup_get; [exact N |]. apply filter_In. split; [exact H |].
      cbn [snd]. apply Bool.negb_true_iff, Z.ltb_ge. now apply Z.leb_le.
    + destruct (JSMap.get k _) as [q |] eqn:G; [| reflexivity].
      apply JSMap_get_In, filter_In in G. destruct G as [G1 G2].
      cbn [snd] in G2.
      assert (q = p) as ->.
      { apply (JSMap_NoDup_get k q) in G1; [| apply W].
        apply (JSMap_NoDup_get k p) in H; [| apply W]. congruence. }
      apply Bool.negb_true_iff, Z.ltb_ge in G2. apply Z.leb_gt in L. lia.
  - intros d H. unfold getPendingDetails, JSMap.values in H.
    rewrite E in H. apply in_map_iff in H. destruct H as (p & <- & H).
    apply in_map_iff in H. destruct H as ([k q] & <- & H).
    apply filter_In in H. destruct H as [_ H]. cbn [snd] in *.
    cbn [pd_waitingFor pd_timeout].
    apply Bool.negb_true_iff, Z.ltb_ge in H. exact H.
Qed.

(* ------------------------------------------------------------------ *)
(** ** Router: delivery with retry, in general *)

(** [deliverWithRetry] stops at the first invocation of the delivery
    callback that succeeds, among at most three: it has then invoked
    the callback for the attempts before it and waited once after each
    of them, and its promise is fulfilled.  It is rejected only when
    all three invocations fail, and then with the failure of the
    third.  No wait is shorter than 1000 ms or longer than 3000 ms. *)
Theorem deliverWithRetry_stops_at_first_success
    (outcome : nat -> option Thrown) (random : nat -> Q)
    (Hrandom : forall n, (0 <= random n < 1)%Q) :
  let run := deliverWithRetry outcome random 1 in
  (forall n, (1 <= n <= 3)%nat -> outcome n = None ->
             (forall m, (1 <= m < n)%nat -> outcome m <> None) ->
             thrown run = None
             /\ invocations run = seq 1 n
             /\ List.length (delays run) = (n - 1)%nat)
  /\ (forall e, thrown run = Some e ->
                outcome 3%nat = Some e
                /\ invocations run = [1; 2; 3]%nat
                /\ forall n, (1 <= n <= 3)%nat -> outcome n <> None)
  /\ (forall d, In d (delays run) -> (1000 <= d <= 3000)%Q).
Proof.
  cbv zeta.
  rewrite (deliverWithRetry_body _ _ 1).
  destruct (outcome 1%nat) as [e1 |] eqn:O1.
  2:{ cbn. split; [| split].
      - intros n Hn On Hbefore.
        destruct n as [| [| n]]; [lia | now repeat split |].
        exfalso. apply (Hbefore 1%nat); [lia | exact O1].
      - discriminate.
      - intros d []. }
  cbn [le_lt_dec]. cbn.
  rewrite (deliverWithRetry_body _ _ 2).
  destruct (outcome 2%nat) as [e2 |] eqn:O2.
  2:{ cbn. split; [| split].
      - intros n Hn On Hbefore.
        destruct n as [| [| [| n]]]; [lia | congruence | now repeat split |].
        exfalso. apply (Hbefore 2%nat); [lia | exact O2].
      - discriminate.
      - intros d [<- | []].
        destruct (retryDelay_1 (random 1%nat) (Hrandom 1%nat)) as (_ & L & U).
        split; [exact L | lra]. }
  cbn.
  rewrite (deliverWithRetry_body _ _ 3).
  assert (D : forall d,
            d = retryDelay 1 (random 1%nat) \/ d = retryDelay 2 (random 2%nat) ->
            (1000 <= d <= 3000)%Q).
  { intros d [-> | ->].
    - destruct (retryDelay_1 (random 1%nat) (Hrandom 1%nat)) as (_ & L & U).
      split; [exact L | lra].
    - destruct (retryDelay_2 (random 2%nat) (Hrandom 2%nat)) as (_ & L & U).
      split; [lra | exact U]. }
  destruct (outcome 3%nat) as [e3 |] eqn:O3.
  - cbn. split; [| split].
    + intros n Hn On Hbefore.
      destruct n as [| [| [| [| n]]]]; [lia | congruence | congruence | congruence | lia].
    + intros e [= <-]. split; [reflexivity |]. split; [reflexivity |].
      intros n Hn. destruct n as [| [| [| [| n]]]]; [lia | congruence.. | lia].
    + intros d [<- | [<- | []]]; apply D; auto.
  - cbn. split; [| split].
    + intros n Hn On Hbefore.
      destruct n as [| [| [| [| n]]]]; [lia | congruence | congruence | now repeat split | lia].
    + discriminate.
    + intros d [<- | [<- | []]]; apply D; auto.
Qed.

Lemma deliverWithRetry_stops_at_first_success_witness :
  let outcome := fun n : nat => if (n <? 2)%nat then Some thrownOther else None in
  let run := deliverWithRetry outcome (fun _ => (1 # 2)%Q) 1 in
  (forall n, (1 <= n <= 3)%nat -> outcome n = None ->
             (forall m, (1 <= m < n)%nat -> outcome m <> None) ->
             thrown run = None
             /\ invocations run = seq 1 n
             /\ List.length (delays run) = (n - 1)%nat)
  /\ (forall e, thrown run = Some e ->
                outcome 3%nat = Some e
                /\ invocations run = [1; 2; 3]%nat
                /\ forall n, (1 <= n <= 3)%nat -> outcome n <> None)
  /\ (forall d, In d (delays run) -> (1000 <= d <= 3000)%Q).
Proof.
  apply (deliverWithRetry_stops_at_first_success
           (fun n : nat => if (n <? 2)%nat then Some thrownOther else None)
           (fun _ => (1 # 2)%Q)).
  intros n. split; [discriminate | reflexivity].
Defined.

(* ------------------------------------------------------------------ *)
(** ** Router: how a call of [sendMessage] ends *)

Lemma promiseResult_inFrame (rt : Router) (m : string) (act : SendFrame -> SendFrame) :
  promiseResult (inFrame rt m act) m
  = match JSMap.get m (sendFrames rt) with
    | Some f => sf_result (act f)
    | None => None
    end.
Proof.
  unfold promiseResult. rewrite inFrame_get_eq.
  now destruct (JSMap.get m (sendFrames rt)).
Qed.

(** The state [sendMessage] leaves at its [await]. *)
Lemma sendMessage_start_maps
    (rt rt1 : Router) (fromAgentId : string) (request : SendAgentMessageRequest)
    (messageId eventId started : string) (timestamp sentAt : Z) :
  sendMessage_start rt fromAgentId request messageId eventId timestamp sentAt
  = (rt1, sendAwaitingDelivery started) ->
  exists sender routing targetId target ev,
    get (registry rt) fromAgentId = Some sender
    /\ resolveTarget (registry rt) fromAgentId request = inl (routing, targetId)
    /\ get (registry rt) targetId = Some target
    /\ msg_messageId ev = messageId
    /\ JSMap.get messageId (sendFrames rt1)
       = Some (frameAtAwait messageId targetId (expectsResponse request))
    /\ pendingMessages rt1
       = (if expectsResponse request
          then JSMap.set messageId
                 (pendingFor fromAgentId (name sender) targetId (name target)
                    request messageId sentAt)
                 (pendingMessages rt)
          else pendingMessages rt)
    /\ broadcasted rt1 = (broadcasted rt ++ [agent_message ev])%list
    /\ registry rt1 = registry rt
    /\ responseFrames rt1 = responseFrames rt.
Proof.
  intros Hstart.
  destruct (sendMessage_start_inv _ _ _ _ _ _ _ _ _ Hstart)
    as (_ & sender & routing & targetId & target & ev & F & R & T
        & Hmid & _ & _ & _ & _ & _ & _ & _ & Hrt).
  exists sender, routing, targetId, target, ev.
  do 4 (split; [assumption |]). cbv zeta in Hrt. subst rt1.
  destruct (expectsResponse request); fields; rewrite JSMap_get_set_eq;
    now repeat split.
Qed.



(* ------------------------------------------------------------------ *)
(** ** Router: pending messages and their callers *)

(** In every state a router reaches, no two pending messages share a
    message id; each is stored under its own id and belongs to a call
    of [sendMessage] that asked for a response, sent it to the agent
    the entry names, and has no result yet.  A result, once a caller
    has one, names the caller's own message, and nothing is pending
    for that message any more. *)
Theorem pending_messages_have_open_callers :
  forall (r : AgentRegistry) (actions : list Action),
    let rt := run (newRouter r) actions in
    NoDup (JSMap.keys (pendingMessages rt))
    /\ (forall k p, JSMap.get k (pendingMessages rt) = Some p ->
          pm_messageId p = k
          /\ promiseResult rt k = None
          /\ exists f, JSMap.get k (sendFrames rt) = Some f
                       /\ sf_expectsResponse f = true
                       /\ sf_targetAgentId f = pm_toAgentId p)
    /\ (forall k result, promiseResult rt k = Some result ->
          res_messageId result = Some k
          /\ JSMap.get k (pendingMessages rt) = None).
Proof.
  intros r actions rt.
  assert (W : router_wf rt) by apply run_router_wf, newRouter_router_wf.
  split; [apply W |]. split.
  - intros k p H.
    destruct (router_wf_get _ _ _ W H) as (Hid & f & Hf & (E1 & E2 & E3) & _).
    split; [exact Hid |]. split.
    + unfold promiseResult. now rewrite Hf.
    + now exists f.
  - intros k result H. unfold promiseResult in H.
    destruct (JSMap.get k (sendFrames rt)) as [f |] eqn:Hf; [| discriminate].
    destruct (proj1 (proj2 (proj2 W)) _ _ Hf) as (_ & _ & Hres).
    split; [now apply Hres |].
    destruct (JSMap.get k (pendingMessages rt)) as [p |] eqn:Hp; [| reflexivity].
    destruct (router_wf_get _ _ _ W Hp) as (_ & f' & Hf' & (_ & E2 & _) & _).
    congruence.
Qed.

(* ------------------------------------------------------------------ *)
(** ** Router: a response for a sender that waits *)

Lemma resolve_waiting (rt : Router) (m : string) (result : SendAgentMessageResponse) :
  senderWaits rt m ->
  promiseResult (PendingMessage_resolve rt m result) m = Some result
  /\ JSMap.get m (pendingMessages (PendingMessage_resolve rt m result)) = None.
Proof.
  intros (f & Hf & Hw & Hr). split.
  - unfold promiseResult. rewrite resolve_frame_eq, Hf. cbn [option_map].
    unfold callPromiseResolve. now rewrite Hw, Hr.
  - rewrite resolve_pending_eq. apply JSMap_get_delete_eq.
Qed.

Lemma reject_waiting (rt : Router) (m message : string) (f : SendFrame) :
  JSMap.get m (sendFrames rt) = Some f ->
  pendingPromiseResolve f = true -> sf_result f = None ->
  promiseResult (PendingMessage_reject rt m message) m
  = Some (rejection m (sf_targetAgentId f) message)
  /\ JSMap.get m (pendingMessages (PendingMessage_reject rt m message)) = None.
Proof.
  intros Hf Hw Hr. split.
  - unfold promiseResult. rewrite reject_frame_eq, Hf. cbn [option_map].
    unfold callPromiseResolve. now rewrite Hw, Hr.
  - rewrite reject_pending_eq. apply JSMap_get_delete_eq.
Qed.

(** A response for a pending message whose original sender has left
    the registry is not delivered and not shown to the observers: the
    call returns [{delivered: false, error: "Original sender no longer
    available"}], the pending message is removed, and a sender that
    waits on its promise is resolved with that error. *)
Theorem handleResponse_for_a_sender_that_left
    (rt : Router) (fromAgentId messageId response : string) (success : bool)
    (error : option string) (data : option JsonObject)
    (eventId deliveryId : string) (timestamp deliveryTimestamp : Z)
    (p : PendingMessage) (responder : AgentRegistryEntry)
    (Hwf : router_wf rt)
    (Hp : JSMap.get messageId (pendingMessages rt) = Some p)
    (Hresponder : get (registry rt) fromAgentId = Some responder)
    (Hgone : get (registry rt) (pm_fromAgentId p) = None)
    (Hwaits : senderWaits rt messageId) :
  let started :=
    handleResponse_start rt fromAgentId messageId response success error data
      eventId deliveryId timestamp deliveryTimestamp in
  snd started
  = responseReturned
      {| delivered := false;
         rr_error := Some "Original sender no longer available" |}
  /\ promiseResult (fst started) messageId
     = Some {| ok := false; res_messageId := Some messageId;
               res_targetAgentId := Some (pm_toAgentId p);
               res_error := Some "Original sender no longer available";
               res_response := None; res_responseData := None;
               res_responseSuccess := None; res_responseReceivedAt := None |}
  /\ JSMap.get messageId (pendingMessages (fst started)) = None
  /\ deliveries (fst started) = deliveries rt
  /\ broadcasted (fst started) = broadcasted rt
  /\ getHistory (fst started) = getHistory rt.
Proof.
  cbv zeta.
  destruct (router_wf_get _ _ _ Hwf Hp) as (Hid & f0 & Hf0 & (_ & _ & Ht) & _).
  destruct Hwaits as (f & Hf & Hw & Hr).
  assert (f0 = f) as -> by congruence.
  unfold handleResponse_start. rewrite Hresponder, Hp, Hgone. cbn [fst snd].
  split; [reflexivity |]. rewrite Hid.
  destruct (reject_waiting rt messageId "Original sender no longer available"
              f Hf Hw Hr) as [R G].
  split; [rewrite R; unfold rejection; now rewrite Ht |]. split; [exact G |].
  unfold PendingMessage_reject, getHistory. fields.
  unfold inFrame. fields. now destruct (JSMap.get messageId (sendFrames rt)).
Qed.

Lemma handleResponse_for_a_sender_that_left_witness :
  let started :=
    handleResponse_start scenario_sender_gone "B" "m1" "42 passed" true None None
      "e2" "d1" 10 11 in
  snd started
  = responseReturned
      {| delivered := false;
         rr_error := Some "Original sender no longer available" |}
  /\ promiseResult (fst started) "m1"
     = Some {| ok := false; res_messageId := Some "m1";
               res_targetAgentId := Some "B";
               res_error := Some "Original sender no longer available";
               res_response := None; res_responseData := None;
               res_responseSuccess := None; res_responseReceivedAt := None |}
  /\ JSMap.get "m1" (pendingMessages (fst started)) = None
  /\ deliveries (fst started) = deliveries scenario_sender_gone
  /\ broadcasted (fst started) = broadcasted scenario_sender_gone
  /\ getHistory (fst started) = getHistory scenario_sender_gone.
Proof.
  apply (handleResponse_for_a_sender_that_left
           scenario_sender_gone "B" "m1" "42 passed" true None None
           "e2" "d1" 10 11
           (pendingFor "A" "A" "B" "B" (request_to_B 5000) "m1" 0)
           (snd (register newRegistry (fst (scenario_agent "B" working 10))
                   (snd (scenario_agent "B" working 10))))).
  - apply run_router_wf, newRouter_router_wf.
  - vm_compute. reflexivity.
  - vm_compute. reflexivity.
  - vm_compute. reflexivity.
  - eexists. split; [vm_compute; reflexivity |]. split; reflexivity.
Defined.

(* ------------------------------------------------------------------ *)
(** ** Router: clearing *)

Lemma clear_fold_settled (mid : string) (f : SendFrame)
    (result : SendAgentMessageResponse) (l : list (string * PendingMessage))
    (rt : Router) :
  JSMap.get mid (sendFrames rt) = Some f -> sf_result f = Some result ->
  JSMap.get mid
    (sendFrames (fold_left (fun rt entry =>
                              PendingMessage_reject rt (pm_messageId (snd entry))
                                "Router cleared") l rt))
  = Some f.
Proof.
  revert rt. induction l as [| e l IH]; intros rt Hf Hr; [exact Hf |].
  cbn [fold_left]. apply IH; [| exact Hr].
  now apply (reject_frame_settled rt _ _ mid f result).
Qed.

Lemma clear_fold_resolves (mid : string) (p : PendingMessage) (f : SendFrame)
    (l : list (string * PendingMessage)) (rt : Router) :
  (forall k q, In (k, q) l -> pm_messageId q = k) ->
  In (mid, p) l ->
  JSMap.get mid (sendFrames rt) = Some f ->
  pendingPromiseResolve f = true -> sf_result f = None ->
  promiseResult (fold_left (fun rt entry =>
                              PendingMessage_reject rt (pm_messageId (snd entry))
                                "Router cleared") l rt) mid
  = Some (rejection mid (sf_targetAgentId f) "Router cleared").
Proof.
  revert rt. induction l as [| [k q] l IH]; intros rt Hl Hin Hf Hw Hr; [elim Hin |].
  assert (Hk : pm_messageId q = k) by (apply Hl; now left).
  assert (Hl' : forall k q, In (k, q) l -> pm_messageId q = k).
  { intros k' q' H. apply Hl. now right. }
  cbn [fold_left snd]. rewrite Hk.
  destruct (string_dec k mid) as [-> | ne].
  - unfold promiseResult.
    rewrite (clear_fold_settled mid
               (settled f (rejection mid (sf_targetAgentId f) "Router cleared"))
               (rejection mid (sf_targetAgentId f) "Router cleared"));
      [reflexivity | | reflexivity].
    rewrite reject_frame_eq, Hf. cbn [option_map]. unfold callPromiseResolve.
    now rewrite Hw, Hr.
  - destruct Hin as [[= E _] | Hin]; [congruence |].
    apply IH; try assumption. now rewrite reject_frame_ne.
Qed.

(** [clearPending] empties the pending map, and every sender that
    waits on its promise for a pending message is resolved with
    [{ok: false, messageId, targetAgentId, error: "Router cleared"}];
    so does [destroy]. *)
Theorem clearPending_resolves_every_waiting_sender
    (rt : Router) (messageId : string) (p : PendingMessage)
    (Hwf : router_wf rt)
    (Hp : JSMap.get messageId (pendingMessages rt) = Some p)
    (Hwaits : senderWaits rt messageId) :
  let cleared :=
    Some {| ok := false; res_messageId := Some messageId;
            res_targetAgentId := Some (pm_toAgentId p);
            res_error := Some "Router cleared";
            res_response := None; res_responseData := None;
            res_responseSuccess := None; res_responseReceivedAt := None |} in
  promiseResult (clearPending rt) messageId = cleared
  /\ promiseResult (destroy rt) messageId = cleared
  /\ getPendingCount (clearPending rt) = 0%nat.
Proof.
  cbv zeta.
  destruct (router_wf_get _ _ _ Hwf Hp) as (Hid & f0 & Hf0 & (_ & _ & Ht) & _).
  destruct Hwaits as (f & Hf & Hw & Hr).
  assert (f0 = f) as -> by congruence.
  assert (Hl : forall k q, In (k, q) (pendingMessages rt) -> pm_messageId q = k).
  { intros k q H. now apply (proj1 (proj2 Hwf)). }
  apply JSMap_get_In in Hp. rewrite <- Ht.
  split; [| split; [| reflexivity]].
  - unfold clearPending, promiseResult. fields.
    apply (clear_fold_resolves messageId p f (pendingMessages rt) rt Hl Hp Hf Hw Hr).
  - unfold destroy, clearPending, promiseResult. fields.
    apply (clear_fold_resolves messageId p f (pendingMessages rt)
             (with_timeoutChecker rt false) Hl Hp Hf Hw Hr).
Qed.

Lemma clearPending_resolves_every_waiting_sender_witness :
  let cleared :=
    Some {| ok := false; res_messageId := Some "m1";
            res_targetAgentId := Some "B";
            res_error := Some "Router cleared";
            res_response := None; res_responseData := None;
            res_responseSuccess := None; res_responseReceivedAt := None |} in
  promiseResult (clearPending scenario_waiting) "m1" = cleared
  /\ promiseResult (destroy scenario_waiting) "m1" = cleared
  /\ getPendingCount (clearPending scenario_waiting) = 0%nat.
Proof.
  apply (clearPending_resolves_every_waiting_sender scenario_waiting "m1"
           (pendingFor "A" "A" "B" "B" (request_to_B 100) "m1" 0)).
  - exact (run_router_wf
             [call_sendMessage "A" (request_to_B 100) "m1" "e1" 0 0;
              send_delivered "m1"]
             (newRouter scenario_registry)
             (newRouter_router_wf scenario_registry)).
  - vm_compute. reflexivity.
  - eexists. split; [vm_compute; reflexivity |]. split; reflexivity.
Defined.

(* ------------------------------------------------------------------ *)
(** ** Router: the history *)

Lemma tl_skipn {A} (k : nat) (l : list A) : tl (skipn k l) = skipn (S k) l.
Proof.
  revert l. induction k as [| k IH]; intros [| x l]; try reflexivity.
  cbn [skipn]. rewrite IH. now destruct l.
Qed.

(** Recording an event: [addToHistory], then [broadcastEvent]. *)
Lemma record_history (rt : Router) (event : RouterEvent) :
  history_inv rt ->
  history_inv (broadcastEvent (addToHistory rt event) event).
Proof.
  unfold history_inv, lastn. intros H.
  cbn [messageHistory addToHistory broadcasted broadcastEvent]. rewrite H.
  set (l := broadcasted rt). set (n := maxHistorySize).
  assert (S : (skipn (List.length l - n) l ++ [event])%list
              = skipn (List.length l - n) (l ++ [event])).
  { rewrite skipn_app.
    now replace (List.length l - n - List.length l)%nat with 0%nat by lia. }
  rewrite !length_app, length_skipn. cbn [List.length].
  destruct (Nat.ltb n (List.length l - (List.length l - n) + 1)) eqn:E.
  - apply Nat.ltb_lt in E.
    replace (List.length l + 1 - n)%nat with (Datatypes.S (List.length l - n)) by lia.
    rewrite S. apply tl_skipn.
  - apply Nat.ltb_ge in E.
    replace (List.length l + 1 - n)%nat with 0%nat by lia.
    replace (List.length l - n)%nat with 0%nat by lia. reflexivity.
Qed.

Lemma same_history (rt rt' : Router) :
  messageHistory rt' = messageHistory rt -> broadcasted rt' = broadcasted rt ->
  history_inv rt -> history_inv rt'.
Proof. unfold history_inv. now intros -> ->. Qed.

Lemma inFrame_history (rt : Router) (m : string) (act : SendFrame -> SendFrame) :
  messageHistory (inFrame rt m act) = messageHistory rt
  /\ broadcasted (inFrame rt m act) = broadcasted rt.
Proof. unfold inFrame. now destruct (JSMap.get m (sendFrames rt)). Qed.

Lemma reject_history (rt : Router) (m message : string) :
  messageHistory (PendingMessage_reject rt m message) = messageHistory rt
  /\ broadcasted (PendingMessage_reject rt m message) = broadcasted rt.
Proof.
  unfold PendingMessage_reject. fields.
  match goal with
  | |- context [inFrame ?r m ?act] => destruct (inFrame_history r m act) as [H B]
  end.
  now rewrite H, B.
Qed.

Lemma resolve_history (rt : Router) (m : string) (result : SendAgentMessageResponse) :
  messageHistory (PendingMessage_resolve rt m result) = messageHistory rt
  /\ broadcasted (PendingMessage_resolve rt m result) = broadcasted rt.
Proof.
  unfold PendingMessage_resolve. fields.
  match goal with
  | |- context [inFrame ?r m ?act] => destruct (inFrame_history r m act) as [H B]
  end.
  now rewrite H, B.
Qed.

Lemma sweep_fold_history (now : Z) (l : list (string * PendingMessage)) (rt : Router) :
  messageHistory (fold_left (sweepEntry now) l rt) = messageHistory rt
  /\ broadcasted (fold_left (sweepEntry now) l rt) = broadcasted rt.
Proof.
  revert rt. induction l as [| [k p] l IH]; intros rt; [now split |].
  cbn [fold_left]. destruct (IH (sweepEntry now rt (k, p))) as [H B].
  rewrite H, B, sweepEntry_eq.
  destruct (pm_timeout p <? now - pm_sentAt p); [| now split].
  fields. apply reject_history.
Qed.

Lemma clear_fold_history (l : list (string * PendingMessage)) (rt : Router) :
  let rt' :=
    fold_left (fun rt entry =>
                 PendingMessage_reject rt (pm_messageId (snd entry)) "Router cleared")
              l rt in
  messageHistory rt' = messageHistory rt /\ broadcasted rt' = broadcasted rt.
Proof.
  cbv zeta. revert rt. induction l as [| e l IH]; intros rt; [now split |].
  cbn [fold_left].
  destruct (IH (PendingMessage_reject rt (pm_messageId (snd e)) "Router cleared"))
    as [H B].
  rewrite H, B. apply reject_history.
Qed.

Lemma startDelivery_fold_history (message : RouterEvent)
    (targets : list AgentRegistryEntry) (rt : Router) :
  let rt' :=
    fold_left (fun rt target => startDelivery rt (agentId target) message) targets rt in
  messageHistory rt' = messageHistory rt /\ broadcasted rt' = broadcasted rt.
Proof.
  cbv zeta. revert rt. induction targets as [| t ts IH]; intros rt; cbn [fold_left].
  - now split.
  - destruct (IH (startDelivery rt (agentId t) message)) as (H & B).
    rewrite H, B. now split.
Qed.

Lemma step_history (rt : Router) (a : Action) : history_inv rt -> history_inv (step rt a).
Proof.
  intros W. destruct a; cbn [step].
  - destruct (JSMap.has messageId (sendFrames rt)); [exact W |].
    destruct (sendMessage_start rt fromAgentId request messageId eventId
                timestamp sentAt) as [rt' s] eqn:E.
    cbn [fst].
    destruct (sendMessage_start_cases _ _ _ _ _ _ _ _ _ E) as [-> | ->];
      [exact W |].
    destruct (sendMessage_start_inv _ _ _ _ _ _ _ _ _ E)
      as (_ & fromAgent & routing & targetId & target & ev & _ & _ & _
          & _ & _ & _ & _ & _ & _ & _ & _ & Hrt).
    cbv zeta in Hrt. subst rt'.
    apply (same_history (broadcastEvent (addToHistory rt (agent_message ev))
                           (agent_message ev)));
      [| | now apply record_history];
      destruct (expectsResponse request); reflexivity.
  - unfold sendMessage_delivered.
    destruct (JSMap.get messageId (sendFrames rt)) as [f |]; [| exact W].
    destruct (sf_awaitingDelivery f); [| exact W].
    destruct (negb (sf_expectsResponse f)).
    + match goal with
      | |- context [inFrame rt messageId ?act] =>
          destruct (inFrame_history rt messageId act) as [H B]
      end.
      now apply (same_history rt).
    + match goal with
      | |- context [inFrame rt messageId ?act] =>
          destruct (inFrame_history rt messageId act) as [H B];
          generalize dependent (inFrame rt messageId act)
      end.
      intros r H B.
      assert (G : match JSMap.get messageId (pendingMessages r) with
                  | Some pending => if pm_responseReceived pending then r else r
                  | None => r
                  end = r).
      { destruct (JSMap.get messageId (pendingMessages r)) as [p |];
          [now destruct (pm_responseReceived p) | reflexivity]. }
      rewrite G. now apply (same_history rt).
  - unfold sendMessage_failed.
    destruct (JSMap.get messageId (sendFrames rt)) as [f |]; [| exact W].
    destruct (sf_awaitingDelivery f); [| exact W].
    match goal with
    | |- context [inFrame ?r messageId ?act] =>
        destruct (inFrame_history r messageId act) as [H B]
    end.
    now apply (same_history rt).
  - destruct (JSMap.has deliveryId (responseFrames rt)); [exact W |].
    unfold handleResponse_start.
    destruct (get (registry rt) fromAgentId); [| exact W].
    destruct (JSMap.get messageId (pendingMessages rt)) as [p |]; cbn [fst].
    + destruct (get (registry rt) (pm_fromAgentId p)).
      * match goal with
        | |- history_inv (fst (startDelivery (with_responseFrames
                 (broadcastEvent (addToHistory rt ?e) ?e) _) _ _, _)) =>
            apply (same_history (broadcastEvent (addToHistory rt e) e));
            [reflexivity | reflexivity | now apply record_history]
        end.
      * cbn [fst].
        destruct (reject_history rt (pm_messageId p)
                    "Original sender no longer available") as [H B].
        now apply (same_history rt).
    + now apply record_history.
  - unfold handleResponse_delivered.
    destruct (JSMap.get deliveryId (responseFrames rt)) as [f |]; [| exact W].
    cbn [fst].
    match goal with
    | |- history_inv (PendingMessage_resolve ?r ?m ?res) =>
        destruct (resolve_history r m res) as [H B]
    end.
    now apply (same_history rt).
  - unfold handleResponse_failed.
    destruct (JSMap.get deliveryId (responseFrames rt)) as [f |]; [| exact W].
    cbn [fst].
    match goal with
    | |- history_inv (PendingMessage_resolve ?r ?m ?res) =>
        destruct (resolve_history r m res) as [H B]
    end.
    now apply (same_history rt).
  - unfold broadcast.
    destruct (get (registry rt) fromAgentId) as [fromAgent |]; [| exact W].
    cbn [fst].
    match goal with
    | |- history_inv (fold_left _ ?targets (broadcastEvent (addToHistory rt ?e) ?e)) =>
        destruct (startDelivery_fold_history e targets
                    (broadcastEvent (addToHistory rt e) e)) as [H B];
        apply (same_history (broadcastEvent (addToHistory rt e) e));
        [exact H | exact B | now apply record_history]
    end.
  - destruct (timeoutChecker rt); [| exact W].
    destruct (sweep_fold_history now (pendingMessages rt) rt) as [H B].
    now apply (same_history rt).
  - unfold clearPending.
    destruct (clear_fold_history (pendingMessages rt) rt) as [H B].
    cbv zeta in H, B. now apply (same_history rt).
  - unfold destroy, clearPending.
    destruct (clear_fold_history (pendingMessages rt) (with_timeoutChecker rt false))
      as [H B].
    cbv zeta in H, B. now apply (same_history rt).
  - exact W.
Qed.

(** In every state a router reaches, [getHistory] returns the last 100
    of the events the router has sent to its observers, oldest first:
    all of them while there are at most 100, never more than 100. *)
Theorem getHistory_is_the_last_100_events :
  forall (r : AgentRegistry) (actions : list Action),
    let rt := run (newRouter r) actions in
    getHistory rt
    = skipn (List.length (broadcasted rt) - 100) (broadcasted rt)
    /\ (List.length (getHistory rt) <= 100)%nat
    /\ ((List.length (broadcasted rt) <= 100)%nat ->
        getHistory rt = broadcasted rt).
Proof.
  intros r actions rt.
  assert (W : history_inv rt).
  { subst rt. generalize (newRouter r), (eq_refl : history_inv (newRouter r)).
    induction actions as [| a actions IH]; intros rt0 W0; [exact W0 |].
    cbn [run fold_left]. apply IH. now apply step_history. }
  unfold history_inv, lastn, maxHistorySize in W. unfold getHistory. rewrite W.
  split; [reflexivity |]. split.
  - rewrite length_skipn. lia.
  - intros L. now replace (List.length (broadcasted rt) - 100)%nat with 0%nat by lia.
Qed.

(* ------------------------------------------------------------------ *)
(** ** The server: synchronising the registry with the sessions *)

Lemma updateFromSession_callbacks (r : AgentRegistry) (session : ManagedSession) :
  changeCallbacks (updateFromSession r session) = changeCallbacks r
  /\ List.length (notifications (updateFromSession r session))
     = (List.length (notifications r) + List.length (changeCallbacks r))%nat.
Proof.
  unfold updateFromSession, registerFromSession.
  destruct (JSMap.get (session_id session) (agents r));
    cbn [fst notifyChange changeCallbacks notifications with_agents];
    now rewrite length_app, length_map.
Qed.

Lemma updateFromSession_entry (r : AgentRegistry) (session : ManagedSession) :
  exists e, get (updateFromSession r session) (session_id session) = Some e
            /\ status e = session_status session
            /\ lastActivity e = session_lastActivity session
            /\ cwd e = session_cwd session.
Proof.
  unfold updateFromSession, registerFromSession, get.
  destruct (JSMap.get (session_id session) (agents r));
    cbn [fst notifyChange agents with_agents]; rewrite JSMap_get_set_eq;
    eexists; now repeat split.
Qed.

Lemma updateFromSession_other (r : AgentRegistry) (session : ManagedSession)
    (id : string) :
  id <> session_id session -> get (updateFromSession r session) id = get r id.
Proof.
  intros ne. unfold updateFromSession, registerFromSession, get.
  destruct (JSMap.get (session_id session) (agents r));
    cbn [fst notifyChange agents with_agents]; apply JSMap_get_set_ne; congruence.
Qed.

Lemma sync_fold_other (l : list ManagedSession) (r : AgentRegistry) (id : string) :
  (forall s, In s l -> session_id s <> id) ->
  get (fold_left updateFromSession l r) id = get r id.
Proof.
  revert r. induction l as [| s l IH]; intros r H; [reflexivity |].
  cbn [fold_left]. rewrite IH by (intros s' Hs; apply H; now right).
  apply updateFromSession_other. intros E. apply (H s); [now left | congruence].
Qed.

(** [syncAgentRegistry] over sessions with distinct ids: afterwards
    every session has an agent whose status, last activity and working
    directory are the session's; an agent without a session stays as
    it is, also when its session is gone: the synchronisation never
    unregisters. *)
Theorem syncAgentRegistry_mirrors_the_sessions
    (managedSessions : JSMap.t ManagedSession) (r : AgentRegistry)
    (Hids : NoDup (map session_id (JSMap.values managedSessions))) :
  let r' := syncAgentRegistry managedSessions r in
  (forall s, In s (JSMap.values managedSessions) ->
     exists e, get r' (session_id s) = Some e
               /\ status e = session_status s
               /\ lastActivity e = session_lastActivity s
               /\ cwd e = session_cwd s)
  /\ (forall id, (forall s, In s (JSMap.values managedSessions) ->
                            session_id s <> id) ->
                 get r' id = get r id).
Proof.
  cbv zeta. unfold syncAgentRegistry.
  revert r Hids. generalize (JSMap.values managedSessions). intros l.
  induction l as [| s l IH]; intros r Hids.
  - cbn. split; [intros s [] | reflexivity].
  - cbn [fold_left]. inversion Hids as [| ? ? Hn Hd]; subst.
    destruct (IH (updateFromSession r s) Hd) as (E & O).
    split.
    + intros s' [<- | Hs']; [| now apply E].
      rewrite O; [apply updateFromSession_entry |].
      intros s' Hs' Eq. apply Hn. rewrite <- Eq. now apply in_map.
    + intros id H. rewrite O by (intros s' Hs'; apply H; now right).
      apply updateFromSession_other. intros Eq. apply (H s); [now left | congruence].
Qed.

Lemma syncAgentRegistry_mirrors_the_sessions_witness :
  let r' := syncAgentRegistry scenario_sessions scenario_registry in
  (forall s, In s (JSMap.values scenario_sessions) ->
     exists e, get r' (session_id s) = Some e
               /\ status e = session_status s
               /\ lastActivity e = session_lastActivity s
               /\ cwd e = session_cwd s)
  /\ (forall id, (forall s, In s (JSMap.values scenario_sessions) ->
                            session_id s <> id) ->
                 get r' id = get scenario_registry id).
Proof.
  apply (syncAgentRegistry_mirrors_the_sessions scenario_sessions scenario_registry).
  cbn. constructor; [intros [H | []]; discriminate H |].
  constructor; [intros [] | constructor].
Defined.

(* ------------------------------------------------------------------ *)
(** ** The server: delivering to an agent that has no session *)

(** A message for an agent that is in the registry but has no managed
    session at any of the three attempts: the delivery callback is
    invoked three times, with the two waits between, every invocation
    throws "Session not found: <id>" before any prompt is handed over,
    and the sender is resolved with [{ok: false, messageId, error:
    "Session not found: <id>"}], nothing staying pending. *)
Theorem message_for_an_agent_without_session
    (rt rt1 : Router) (fromAgentId : string) (request : SendAgentMessageRequest)
    (messageId eventId started : string) (timestamp sentAt : Z)
    (managedSessions : nat -> JSMap.t DeliverySession) (sdkManager : bool)
    (handover : nat -> option Thrown) (random : nat -> Q)
    (targetId : string)
    (Hstart : sendMessage_start rt fromAgentId request messageId eventId
                timestamp sentAt
              = (rt1, sendAwaitingDelivery started))
    (Hdelivery : map fst (deliveries rt1)
                 = (map fst (deliveries rt) ++ [targetId])%list)
    (Hnone : forall n, JSMap.get targetId (managedSessions n) = None) :
  let run :=
    deliverWithRetry (deliveryOutcome managedSessions sdkManager targetId handover)
      random 1 in
  thrown run = Some (thrownError ("Session not found: " ++ targetId))
  /\ invocations run = [1; 2; 3]%nat
  /\ List.length (delays run) = 2%nat
  /\ (forall n, deliverAgentMessage (managedSessions n) sdkManager targetId
                = inl (thrownError ("Session not found: " ++ targetId)))
  /\ forall error, thrown run = Some error ->
       let rt2 := sendMessage_failed rt1 messageId error in
       promiseResult rt2 messageId
       = Some {| ok := false; res_messageId := Some messageId;
                 res_targetAgentId := None;
                 res_error := Some ("Session not found: " ++ targetId);
                 res_response := None; res_responseData := None;
                 res_responseSuccess := None; res_responseReceivedAt := None |}
       /\ JSMap.get messageId (pendingMessages rt2) = None.
Proof.
  cbv zeta.
  assert (D : forall n, deliverAgentMessage (managedSessions n) sdkManager targetId
                        = inl (thrownError ("Session not found: " ++ targetId))).
  { intros n. unfold deliverAgentMessage. now rewrite Hnone. }
  assert (O : forall n, deliveryOutcome managedSessions sdkManager targetId handover n
                        = Some (thrownError ("Session not found: " ++ targetId))).
  { intros n. unfold deliveryOutcome. now rewrite D. }
  assert (T : thrown (deliverWithRetry
                        (deliveryOutcome managedSessions sdkManager targetId handover)
                        random 1)
              = Some (thrownError ("Session not found: " ++ targetId))
              /\ steps (deliverWithRetry
                          (deliveryOutcome managedSessions sdkManager targetId handover)
                          random 1)
                 = [invoke 1; sleep (retryDelay 1 (random 1%nat));
                    invoke 2; sleep (retryDelay 2 (random 2%nat)); invoke 3]).
  { rewrite (deliverWithRetry_body _ _ 1), O. cbn.
    rewrite (deliverWithRetry_body _ _ 2), O. cbn.
    rewrite (deliverWithRetry_body _ _ 3), O. cbn. now split. }
  destruct T as [T S].
  split; [exact T |]. unfold invocations, delays. rewrite S.
  split; [reflexivity |]. split; [reflexivity |]. split; [exact D |].
  intros error He. rewrite T in He. injection He as <-.
  destruct (sendMessage_start_maps _ _ _ _ _ _ _ _ _ Hstart)
    as (sender & routing & tid & target & ev & _ & _ & _ & _ & F & P & _).
  unfold sendMessage_failed. rewrite F. cbn [frameAtAwait sf_awaitingDelivery].
  split.
  - rewrite promiseResult_inFrame. fields. now rewrite F.
  - match goal with
    | |- context [inFrame ?r messageId ?act] =>
        destruct (inFrame_fields r messageId act) as (P' & _)
    end.
    rewrite P'. fields. apply JSMap_get_delete_eq.
Qed.

Lemma message_for_an_agent_without_session_witness :
  let run :=
    deliverWithRetry (deliveryOutcome (fun _ => []) true "B" (fun _ => None))
      (fun _ => (1 # 2)%Q) 1 in
  thrown run = Some (thrownError ("Session not found: " ++ "B"))
  /\ invocations run = [1; 2; 3]%nat
  /\ List.length (delays run) = 2%nat
  /\ (forall n : nat, deliverAgentMessage [] true "B"
                = inl (thrownError ("Session not found: " ++ "B")))
  /\ forall error, thrown run = Some error ->
       let rt2 := sendMessage_failed scenario_sending "m1" error in
       promiseResult rt2 "m1"
       = Some {| ok := false; res_messageId := Some "m1";
                 res_targetAgentId := None;
                 res_error := Some ("Session not found: " ++ "B");
                 res_response := None; res_responseData := None;
                 res_responseSuccess := None; res_responseReceivedAt := None |}
       /\ JSMap.get "m1" (pendingMessages rt2) = None.
Proof.
  apply (message_for_an_agent_without_session
           (newRouter scenario_registry) scenario_sending "A" (request_to_B 5000)
           "m1" "e1" "m1" 0 0 (fun _ => []) true (fun _ => None)
           (fun _ => (1 # 2)%Q) "B").
  - vm_compute. reflexivity.
  - vm_compute. reflexivity.
  - reflexivity.
Defined.

(* ------------------------------------------------------------------ *)
(** ** Router: two responses for one message *)

Lemma handleResponse_start_awaits
    (rt : Router) (fromAgentId messageId response : string) (success : bool)
    (error : option string) (data : option JsonObject)
    (eventId deliveryId : string) (timestamp deliveryTimestamp : Z)
    (p : PendingMessage) (responder sender : AgentRegistryEntry) :
  JSMap.get messageId (pendingMessages rt) = Some p ->
  get (registry rt) fromAgentId = Some responder ->
  get (registry rt) (pm_fromAgentId p) = Some sender ->
  let started :=
    handleResponse_start rt fromAgentId messageId response success error data
      eventId deliveryId timestamp deliveryTimestamp in
  snd started = responseAwaitingDelivery deliveryId
  /\ registry (fst started) = registry rt
  /\ pendingMessages (fst started) = pendingMessages rt
  /\ sendFrames (fst started) = sendFrames rt
  /\ responseFrames (fst started)
     = JSMap.set deliveryId
         {| rf_pending := p; rf_fromAgentId := fromAgentId;
            rf_fromAgentName := name responder;
            rf_originalSenderName := name sender;
            rf_messageId := messageId; rf_response := response;
            rf_success := success; rf_error := error; rf_data := data |}
         (responseFrames rt)
  /\ map fst (deliveries (fst started))
     = (map fst (deliveries rt) ++ [pm_fromAgentId p])%list.
Proof.
  intros Hp Hr Hs. cbv zeta. unfold handleResponse_start. rewrite Hr, Hp, Hs.
  fields. do 5 (split; [reflexivity |]). now rewrite map_app.
Qed.

Lemma handleResponse_delivered_eq (rt : Router) (deliveryId : string) (now : Z)
    (f : ResponseFrame) :
  JSMap.get deliveryId (responseFrames rt) = Some f ->
  handleResponse_delivered rt deliveryId now
  = (PendingMessage_resolve
       (with_responseFrames rt (JSMap.delete deliveryId (responseFrames rt)))
       (pm_messageId (rf_pending f))
       {| ok := true; res_messageId := Some (rf_messageId f);
          res_targetAgentId := Some (pm_toAgentId (rf_pending f));
          res_error := rf_error f;
          res_response := Some (rf_response f);
          res_responseData := rf_data f;
          res_responseSuccess := Some (rf_success f);
          res_responseReceivedAt := Some now |},
     Some {| delivered := true; rr_error := None |}).
Proof. intros H. unfold handleResponse_delivered. now rewrite H. Qed.

(** The pending message stays in the map while a response is on its
    way to the sender, and [handleResponse] never looks whether one
    is: a second response for the same message is sent to the sender
    as well.  The sender's promise takes the response whose delivery
    ends first; the other call still returns [{delivered: true}], and
    the result of the promise stays as it is. *)
Theorem second_response_is_delivered_too
    (rt : Router) (messageId : string) (p : PendingMessage)
    (sender responder1 responder2 : AgentRegistryEntry)
    (from1 from2 response1 response2 : string) (success1 success2 : bool)
    (error1 error2 : option string) (data1 data2 : option JsonObject)
    (event1 delivery1 event2 delivery2 : string) (t1 t1' t2 t2' now1 now2 : Z)
    (Hwf : router_wf rt)
    (Hp : JSMap.get messageId (pendingMessages rt) = Some p)
    (Hresponder1 : get (registry rt) from1 = Some responder1)
    (Hresponder2 : get (registry rt) from2 = Some responder2)
    (Hsender : get (registry rt) (pm_fromAgentId p) = Some sender)
    (Hwaits : senderWaits rt messageId)
    (Hids : delivery1 <> delivery2) :
  let started1 :=
    handleResponse_start rt from1 messageId response1 success1 error1 data1
      event1 delivery1 t1 t1' in
  let started2 :=
    handleResponse_start (fst started1) from2 messageId response2 success2 error2
      data2 event2 delivery2 t2 t2' in
  let done2 := handleResponse_delivered (fst started2) delivery2 now2 in
  let done1 := handleResponse_delivered (fst done2) delivery1 now1 in
  snd started2 = responseAwaitingDelivery delivery2
  /\ map fst (deliveries (fst started2))
     = (map fst (deliveries rt) ++ [pm_fromAgentId p; pm_fromAgentId p])%list
  /\ promiseResult (fst done2) messageId
     = Some {| ok := true; res_messageId := Some messageId;
               res_targetAgentId := Some (pm_toAgentId p);
               res_error := error2;
               res_response := Some response2;
               res_responseData := data2;
               res_responseSuccess := Some success2;
               res_responseReceivedAt := Some now2 |}
  /\ snd done1 = Some {| delivered := true; rr_error := None |}
  /\ promiseResult (fst done1) messageId = promiseResult (fst done2) messageId.
Proof.
  cbv zeta.
  destruct (router_wf_get _ _ _ Hwf Hp) as (Hid & _).
  destruct (handleResponse_start_awaits rt from1 messageId response1 success1 error1
              data1 event1 delivery1 t1 t1' p responder1 sender
              Hp Hresponder1 Hsender) as (_ & G1 & P1 & F1 & R1 & D1).
  cbv zeta in G1, P1, F1, R1, D1.
  set (rt1 := fst (handleResponse_start rt from1 messageId response1 success1 error1
                     data1 event1 delivery1 t1 t1')) in *.
  assert (Hp1 : JSMap.get messageId (pendingMessages rt1) = Some p) by now rewrite P1.
  assert (Hr2 : get (registry rt1) from2 = Some responder2) by now rewrite G1.
  assert (Hs1 : get (registry rt1) (pm_fromAgentId p) = Some sender) by now rewrite G1.
  destruct (handleResponse_start_awaits rt1 from2 messageId response2 success2 error2
              data2 event2 delivery2 t2 t2' p responder2 sender
              Hp1 Hr2 Hs1) as (S2 & _ & _ & F2 & R2 & D2).
  cbv zeta in S2, F2, R2, D2.
  set (rt2 := fst (handleResponse_start rt1 from2 messageId response2 success2 error2
                     data2 event2 delivery2 t2 t2')) in *.
  split; [exact S2 |]. split; [now rewrite D2, D1, <- app_assoc |].
  assert (G2 : JSMap.get delivery2 (responseFrames rt2)
               = Some {| rf_pending := p; rf_fromAgentId := from2;
                         rf_fromAgentName := name responder2;
                         rf_originalSenderName := name sender;
                         rf_messageId := messageId; rf_response := response2;
                         rf_success := success2; rf_error := error2;
                         rf_data := data2 |})
    by (rewrite R2; apply JSMap_get_set_eq).
  rewrite (handleResponse_delivered_eq rt2 delivery2 now2 _ G2).
  cbn [fst snd rf_pending rf_messageId rf_error rf_response rf_data rf_success].
  rewrite Hid.
  assert (W2 : senderWaits
                 (with_responseFrames rt2
                    (JSMap.delete delivery2 (responseFrames rt2))) messageId).
  { destruct Hwaits as (f & Hf & Hw & Hr). exists f. fields.
    rewrite F2, F1. now repeat split. }
  match goal with
  | |- context [PendingMessage_resolve ?r messageId ?res] =>
      pose proof (proj1 (resolve_waiting r messageId res W2)) as Hres;
      pose proof (proj1 (resolve_fields r messageId res)) as R3;
      remember (PendingMessage_resolve r messageId res) as rt3 eqn:E3
  end.
  cbv zeta in R3. fields. clear E3.
  split; [exact Hres |].
  assert (G1' : JSMap.get delivery1 (responseFrames rt3)
                = Some {| rf_pending := p; rf_fromAgentId := from1;
                          rf_fromAgentName := name responder1;
                          rf_originalSenderName := name sender;
                          rf_messageId := messageId; rf_response := response1;
                          rf_success := success1; rf_error := error1;
                          rf_data := data1 |}).
  { rewrite R3, JSMap_get_delete_ne by congruence.
    rewrite R2, JSMap_get_set_ne by congruence. rewrite R1.
    apply JSMap_get_set_eq. }
  rewrite (handleResponse_delivered_eq rt3 delivery1 now1 _ G1').
  cbn [fst snd rf_pending rf_messageId rf_error rf_response rf_data rf_success].
  split; [reflexivity |]. rewrite Hid.
  unfold promiseResult in *. rewrite resolve_frame_eq. fields.
  destruct (JSMap.get messageId (sendFrames rt3)) as [f3 |]; [| discriminate].
  cbn [option_map]. unfold callPromiseResolve. rewrite Hres.
  now destruct (pendingPromiseResolve f3).
Qed.

Lemma second_response_is_delivered_too_witness :
  let started1 :=
    handleResponse_start scenario_waiting "B" "m1" "42 passed" true None None
      "e2" "d1" 10 11 in
  let started2 :=
    handleResponse_start (fst started1) "C" "m1" "none passed" false None None
      "e3" "d2" 12 13 in
  let done2 := handleResponse_delivered (fst started2) "d2" 21 in
  let done1 := handleResponse_delivered (fst done2) "d1" 22 in
  snd started2 = responseAwaitingDelivery "d2"
  /\ map fst (deliveries (fst started2))
     = (map fst (deliveries scenario_waiting) ++ ["A"; "A"])%list
  /\ promiseResult (fst done2) "m1"
     = Some {| ok := true; res_messageId := Some "m1";
               res_targetAgentId := Some "B";
               res_error := None;
               res_response := Some "none passed";
               res_responseData := None;
               res_responseSuccess := Some false;
               res_responseReceivedAt := Some 21 |}
  /\ snd done1 = Some {| delivered := true; rr_error := None |}
  /\ promiseResult (fst done1) "m1" = promiseResult (fst done2) "m1".
Proof.
  apply (second_response_is_delivered_too
           scenario_waiting "m1"
           (pendingFor "A" "A" "B" "B" (request_to_B 100) "m1" 0)
           (snd (register newRegistry (fst (scenario_agent "A" idle 5))
                   (snd (scenario_agent "A" idle 5))))
           (snd (register newRegistry (fst (scenario_agent "B" working 10))
                   (snd (scenario_agent "B" working 10))))
           (snd (register newRegistry (fst (scenario_agent "C" idle 8))
                   (snd (scenario_agent "C" idle 8))))
           "B" "C" "42 passed" "none passed" true false None None None None
           "e2" "d1" "e3" "d2" 10 11 12 13 22 21).
  - exact (run_router_wf
             [call_sendMessage "A" (request_to_B 100) "m1" "e1" 0 0;
              send_delivered "m1"]
             (newRouter scenario_registry)
             (newRouter_router_wf scenario_registry)).
  - vm_compute. reflexivity.
  - vm_compute. reflexivity.
  - vm_compute. reflexivity.
  - vm_compute. reflexivity.
  - eexists. split; [vm_compute; reflexivity |]. split; reflexivity.
  - discriminate.
Defined.

(* ------------------------------------------------------------------ *)
(** ** Router: how a pending request is consumed *)

Lemma JSMap_get_notin {V} (k : string) (m : JSMap.t V) :
  ~ In k (JSMap.keys m) -> JSMap.get k m = None.
Proof.
  intros H. destruct (JSMap.get k m) as [v |] eqn:E; [| reflexivity].
  exfalso. apply H. apply JSMap_get_In in E. unfold JSMap.keys.
  apply in_map_iff. now exists (k, v).
Qed.

Lemma JSMap_get_filter {V} (f : string * V -> bool) (m : JSMap.t V) (k : string) :
  NoDup (JSMap.keys m) ->
  JSMap.get k (filter f m)
  = match JSMap.get k m with
    | Some v => if f (k, v) then Some v else None
    | None => None
    end.
Proof.
  induction m as [| [k' v'] m IH]; intros N; [reflexivity |].
  inversion N as [| ? ? Hn Hd]; subst. cbn [filter JSMap.get].
  destruct (String.eqb k k') eqn:E.
  - apply String.eqb_eq in E. subst k'.
    destruct (f (k, v')); cbn [JSMap.get].
    + now rewrite String.eqb_refl.
    + rewrite (IH Hd). now rewrite (JSMap_get_notin k m Hn).
  - destruct (f (k', v')); cbn [JSMap.get]; rewrite ?E; now apply IH.
Qed.

Lemma JSMap_has_delete {V} (k k0 : string) (m : JSMap.t V) :
  JSMap.has k (JSMap.delete k0 m)
  = if String.eqb k0 k then false else JSMap.has k m.
Proof.
  unfold JSMap.has. destruct (String.eqb k0 k) eqn:E.
  - apply String.eqb_eq in E. subst. now rewrite JSMap_get_delete_eq.
  - apply String.eqb_neq in E. now rewrite JSMap_get_delete_ne.
Qed.

(** An action takes the pending message away exactly when it is one of
    the consuming events. *)
Lemma step_consumes (rt : Router) (a : Action) (mid : string) :
  router_wf rt ->
  JSMap.has mid (pendingMessages rt) = true ->
  JSMap.has mid (pendingMessages (step rt a)) = false <-> consumingEvent rt mid a.
Proof.
  intros W Hin.
  assert (Hsame : forall rt', pendingMessages rt' = pendingMessages rt ->
                              JSMap.has mid (pendingMessages rt') = false <-> False).
  { intros rt' E. rewrite E, Hin. split; [discriminate | contradiction]. }
  assert (Hdel : forall rt' m,
            pendingMessages rt' = JSMap.delete m (pendingMessages rt) ->
            JSMap.has mid (pendingMessages rt') = false <-> m = mid).
  { intros rt' m E. rewrite E, JSMap_has_delete.
    destruct (String.eqb m mid) eqn:Em.
    - apply String.eqb_eq in Em. now split.
    - apply String.eqb_neq in Em. rewrite Hin. split; [discriminate | congruence]. }
  destruct a; cbn [step consumingEvent].
  - (* sendMessage *)
    destruct (JSMap.has messageId (sendFrames rt)); [now apply Hsame |].
    destruct (sendMessage_start_effect rt fromAgentId request messageId eventId
                timestamp sentAt) as [E | (_ & _ & _ & [P | (p & _ & P)])];
      cbv zeta in *.
    + rewrite E. now apply Hsame.
    + now apply Hsame.
    + rewrite P. rewrite (JSMap_has_set mid messageId p _ Hin).
      split; [discriminate | contradiction].
  - (* the delivery is fulfilled *)
    destruct (sendMessage_delivered_fields rt messageId) as (P & _).
    now apply Hsame.
  - (* the delivery fails *)
    unfold sendMessage_failed.
    destruct (JSMap.get messageId (sendFrames rt)) as [f |] eqn:Hf.
    + destruct (sf_awaitingDelivery f) eqn:A.
      * match goal with
        | |- context [inFrame ?r messageId ?act] =>
            destruct (inFrame_fields r messageId act) as (P & _)
        end.
        fields. rewrite (Hdel _ messageId P). split.
        -- intros ->. split; [reflexivity |]. now exists f.
        -- now intros [-> _].
      * rewrite (Hsame rt eq_refl). split; [contradiction |].
        intros [-> (f' & Hf' & A')]. congruence.
    + rewrite (Hsame rt eq_refl). split; [contradiction |].
      intros [-> (f' & Hf' & _)]. congruence.
  - (* a response arrives *)
    destruct (JSMap.has deliveryId (responseFrames rt)) eqn:Hd.
    { rewrite (Hsame rt eq_refl). split; [contradiction |].
      intros (_ & C & _). discriminate C. }
    unfold handleResponse_start.
    destruct (get (registry rt) fromAgentId) as [fromAgent |] eqn:Hfrom.
    2:{ cbn [fst]. rewrite (Hsame rt eq_refl). split; [contradiction |].
        intros (_ & _ & C & _). now elim C. }
    destruct (JSMap.get messageId (pendingMessages rt)) as [p |] eqn:Hp.
    2:{ cbn [fst]. rewrite Hsame by reflexivity. split; [contradiction |].
        intros (-> & _ & _ & p & Hp' & _). congruence. }
    destruct (router_wf_get _ _ _ W Hp) as (Hid & _).
    destruct (get (registry rt) (pm_fromAgentId p)) as [sender |] eqn:Hs; cbn [fst].
    + rewrite Hsame by reflexivity. split; [contradiction |].
      intros (-> & _ & _ & p' & Hp' & C). congruence.
    + rewrite (Hdel _ (pm_messageId p) (reject_pending_eq _ _ _)), Hid. split.
      * intros ->. repeat split; try congruence. now exists p.
      * now intros [-> _].
  - (* the delivery of a response is fulfilled *)
    unfold handleResponse_delivered.
    destruct (JSMap.get deliveryId (responseFrames rt)) as [f |] eqn:Hf; cbn [fst].
    + rewrite (Hdel _ (pm_messageId (rf_pending f)))
        by (rewrite resolve_pending_eq; reflexivity).
      rewrite <- (proj2 (proj2 (proj2 W)) _ _ Hf). split.
      * intros E. now exists f.
      * intros (f' & Hf' & E). congruence.
    + rewrite (Hsame rt eq_refl). split; [contradiction |].
      intros (f' & Hf' & _). discriminate Hf'.
  - (* the delivery of a response fails *)
    unfold handleResponse_failed.
    destruct (JSMap.get deliveryId (responseFrames rt)) as [f |] eqn:Hf; cbn [fst].
    + rewrite (Hdel _ (pm_messageId (rf_pending f)))
        by (rewrite resolve_pending_eq; reflexivity).
      rewrite <- (proj2 (proj2 (proj2 W)) _ _ Hf). split.
      * intros E. now exists f.
      * intros (f' & Hf' & E). congruence.
    + rewrite (Hsame rt eq_refl). split; [contradiction |].
      intros (f' & Hf' & _). discriminate Hf'.
  - (* broadcast *)
    destruct (broadcast_fields rt fromAgentId channel message data eventId timestamp
                outcome random) as (P & _).
    now apply Hsame.
  - (* the sweep *)
    destruct (timeoutChecker rt).
    + rewrite (checkTimeouts_pending rt now W). unfold JSMap.has.
      rewrite (JSMap_get_filter _ _ mid (proj1 W)). cbn [snd]. unfold expired.
      unfold JSMap.has in Hin.
      destruct (JSMap.get mid (pendingMessages rt)) as [p |]; [| discriminate].
      destruct (pm_timeout p <? now - pm_sentAt p) eqn:L; cbn [negb].
      * apply Z.ltb_lt in L. split; [| reflexivity].
        intros _. split; [reflexivity |]. now exists p.
      * apply Z.ltb_ge in L. split; [discriminate |].
        intros (_ & p' & [= <-] & L'). lia.
    + rewrite (Hsame rt eq_refl). split; [contradiction |].
      intros (C & _). discriminate C.
  - now split.
  - now split.
  - now apply Hsame.
Qed.

(** C3, as the code has it.  While a message is pending, in any state
    a router reaches, an action takes its entry out of the map exactly
    when it is one of the consuming events: the end of the delivery of
    a response, the sweep after the timeout, a shutdown, the failure
    of its own delivery, a response that finds the original sender
    gone.  The first of them to happen consumes it.  Every one of them
    calls a closure of the pending message, except the failed
    delivery, where [sendMessage] deletes the entry itself and calls
    none.  From then on the map never holds an entry for that
    [messageId] again: every later event finds none. *)
Theorem pending_entry_is_consumed_once
    (r : AgentRegistry) (history : list Action) (mid : string)
    (Hin : JSMap.has mid (pendingMessages (run (newRouter r) history)) = true) :
  let rt := run (newRouter r) history in
  forall a,
    (JSMap.has mid (pendingMessages (step rt a)) = false
     <-> consumingEvent rt mid a)
    /\ (consumingEvent rt mid a ->
        ((exists c, In (mid, c) (closuresCalledBy rt a))
         \/ (exists e, a = send_failed mid e))
        /\ forall later,
             JSMap.get mid (pendingMessages (run (step rt a) later)) = None).
Proof.
  intros rt a.
  assert (W : router_wf rt) by apply run_router_wf, newRouter_router_wf.
  assert (W' : pending_wf rt) by apply run_wf, newRouter_wf.
  pose proof (step_consumes rt a mid W Hin) as C.
  split; [exact C |].
  intros Hc. apply C in Hc. split; [now apply step_removal |].
  intros later. apply run_absent.
  - now apply step_wf.
  - apply step_has_frame; [exact W' |].
    apply JSMap_has_true in Hin. destruct Hin as [p Hp].
    apply JSMap_get_In in Hp. now apply (proj2 W' mid p).
  - now apply JSMap_has_get.
Qed.

Lemma pending_entry_is_consumed_once_witness :
  let rt :=
    run (newRouter scenario_registry)
      [call_sendMessage "A" (request_to_B 5000) "m1" "e1" 0 0;
       send_delivered "m1"] in
  let a := sweep 6000 in
  (JSMap.has "m1" (pendingMessages (step rt a)) = false
   <-> consumingEvent rt "m1" a)
  /\ (consumingEvent rt "m1" a ->
      ((exists c, In ("m1", c) (closuresCalledBy rt a))
       \/ (exists e, a = send_failed "m1" e))
      /\ forall later,
           JSMap.get "m1" (pendingMessages (run (step rt a) later)) = None).
Proof.
  assert (Hin : JSMap.has "m1"
                  (pendingMessages
                     (run (newRouter scenario_registry)
                        [call_sendMessage "A" (request_to_B 5000) "m1" "e1" 0 0;
                         send_delivered "m1"]))
                = true)
    by (vm_compute; reflexivity).
  exact (pending_entry_is_consumed_once scenario_registry
           [call_sendMessage "A" (request_to_B 5000) "m1" "e1" 0 0;
            send_delivered "m1"]
           "m1" Hin (sweep 6000)).
Defined.

(* ------------------------------------------------------------------ *)
(** ** Router: what the other segments leave of an activation *)

Lemma frameAdvances_refl (f : SendFrame) : frameAdvances f f.
Proof. repeat split; auto. Qed.

Lemma frameAdvances_trans (f g h : SendFrame) :
  frameAdvances f g -> frameAdvances g h -> frameAdvances f h.
Proof.
  intros (T1 & E1 & W1 & R1 & A1) (T2 & E2 & W2 & R2 & A2).
  repeat split; try congruence; auto.
  intros A. rewrite (A1 A) in *. now apply A2.
Qed.

Lemma callPromiseResolve_advances (k : string) (f : SendFrame)
    (result : SendAgentMessageResponse) :
  frame_ok k f -> frameAdvances f (callPromiseResolve f result).
Proof.
  intros (_ & Haw & _). unfold callPromiseResolve.
  destruct (pendingPromiseResolve f) eqn:W; [| apply frameAdvances_refl].
  destruct (sf_result f) eqn:S; [apply frameAdvances_refl |].
  unfold frameAdvances. cbn.
  repeat split; try congruence.
  intros A. destruct (Haw A). congruence.
Qed.

(** A call of a closure of the message [m]. *)
Lemma closure_frame (rt rt' : Router) (m k : string) (f : SendFrame)
    (result : SendFrame -> SendAgentMessageResponse) :
  router_wf rt ->
  (forall k', k' <> m ->
              JSMap.get k' (sendFrames rt') = JSMap.get k' (sendFrames rt)) ->
  JSMap.get m (sendFrames rt')
  = option_map (fun f => callPromiseResolve f (result f))
               (JSMap.get m (sendFrames rt)) ->
  JSMap.get k (sendFrames rt) = Some f ->
  exists f', JSMap.get k (sendFrames rt') = Some f' /\ frameAdvances f f'.
Proof.
  intros W Hne Hm Hf. destruct (string_dec k m) as [-> | ne].
  - rewrite Hm, Hf. cbn [option_map]. eexists. split; [reflexivity |].
    apply (callPromiseResolve_advances m).
    now apply (proj1 (proj2 (proj2 W))).
  - exists f. rewrite (Hne k ne). split; [exact Hf | apply frameAdvances_refl].
Qed.

Lemma reject_frame (rt : Router) (m message k : string) (f : SendFrame) :
  router_wf rt -> JSMap.get k (sendFrames rt) = Some f ->
  exists f', JSMap.get k (sendFrames (PendingMessage_reject rt m message)) = Some f'
             /\ frameAdvances f f'.
Proof.
  intros W Hf.
  apply (closure_frame rt _ m k f
           (fun f => rejection m (sf_targetAgentId f) message) W).
  - intros k' ne. apply reject_frame_ne. congruence.
  - apply reject_frame_eq.
  - exact Hf.
Qed.

Lemma resolve_frame (rt : Router) (m k : string) (result : SendAgentMessageResponse)
    (f : SendFrame) :
  router_wf rt -> JSMap.get k (sendFrames rt) = Some f ->
  exists f', JSMap.get k (sendFrames (PendingMessage_resolve rt m result)) = Some f'
             /\ frameAdvances f f'.
Proof.
  intros W Hf.
  apply (closure_frame rt _ m k f (fun _ => result) W).
  - intros k' ne. apply resolve_frame_ne. congruence.
  - apply resolve_frame_eq.
  - exact Hf.
Qed.

Lemma sweep_fold_frame (now : Z) (l : list (string * PendingMessage)) (rt : Router)
    (k : string) (f : SendFrame) :
  (forall k' p, In (k', p) l -> pm_messageId p = k') ->
  router_wf rt -> JSMap.get k (sendFrames rt) = Some f ->
  exists f', JSMap.get k (sendFrames (fold_left (sweepEntry now) l rt)) = Some f'
             /\ frameAdvances f f'.
Proof.
  revert rt f. induction l as [| [k0 p] l IH]; intros rt f Hl W Hf.
  - exists f. split; [exact Hf | apply frameAdvances_refl].
  - cbn [fold_left].
    assert (Hk : pm_messageId p = k0) by (apply Hl; now left).
    assert (Hl' : forall k' p, In (k', p) l -> pm_messageId p = k').
    { intros k' p' H. apply Hl. now right. }
    pose proof (sweepEntry_wf now rt k0 p Hk W) as W1.
    assert (H1 : exists f1, JSMap.get k (sendFrames (sweepEntry now rt (k0, p)))
                            = Some f1 /\ frameAdvances f f1).
    { rewrite sweepEntry_eq.
      destruct (pm_timeout p <? now - pm_sentAt p).
      - fields. now apply reject_frame.
      - exists f. split; [exact Hf | apply frameAdvances_refl]. }
    destruct H1 as (f1 & Hf1 & A1).
    destruct (IH _ f1 Hl' W1 Hf1) as (f' & Hf' & A').
    exists f'. split; [exact Hf' |]. eapply frameAdvances_trans; eassumption.
Qed.

Lemma clear_fold_frame (l : list (string * PendingMessage)) (rt : Router)
    (k : string) (f : SendFrame) :
  router_wf rt -> JSMap.get k (sendFrames rt) = Some f ->
  exists f',
    JSMap.get k
      (sendFrames (fold_left (fun rt entry =>
                                PendingMessage_reject rt (pm_messageId (snd entry))
                                  "Router cleared") l rt))
    = Some f'
    /\ frameAdvances f f'.
Proof.
  revert rt f. induction l as [| e l IH]; intros rt f W Hf.
  - exists f. split; [exact Hf | apply frameAdvances_refl].
  - cbn [fold_left].
    destruct (reject_frame rt (pm_messageId (snd e)) "Router cleared" k f W Hf)
      as (f1 & Hf1 & A1).
    destruct (IH _ f1 (reject_wf _ _ _ W) Hf1) as (f' & Hf' & A').
    exists f'. split; [exact Hf' |]. eapply frameAdvances_trans; eassumption.
Qed.

(** One action and the frame of the activation [k]: the frame
    advances, and stays as it is while the activation awaits its
    delivery, unless the action is the end of that delivery. *)
Lemma step_frame (rt : Router) (a : Action) (k : string) (f : SendFrame) :
  router_wf rt -> JSMap.get k (sendFrames rt) = Some f ->
  (exists f', JSMap.get k (sendFrames (step rt a)) = Some f' /\ frameAdvances f f')
  \/ (sf_awaitingDelivery f = true
      /\ (a = send_delivered k \/ exists e, a = send_failed k e)).
Proof.
  intros W Hf.
  assert (Hsame : forall rt', sendFrames rt' = sendFrames rt ->
            exists f', JSMap.get k (sendFrames rt') = Some f' /\ frameAdvances f f').
  { intros rt' E. exists f. rewrite E. split; [exact Hf | apply frameAdvances_refl]. }
  destruct a; cbn [step].
  - left. destruct (JSMap.has messageId (sendFrames rt)) eqn:Hfresh;
      [now apply Hsame |].
    destruct (sendMessage_start_effect rt fromAgentId request messageId eventId
                timestamp sentAt) as [E | (_ & _ & (frame & F) & _)];
      cbv zeta in *.
    + rewrite E. now apply Hsame.
    + exists f. rewrite F. split; [| apply frameAdvances_refl].
      rewrite JSMap_get_set_ne; [exact Hf |].
      intros <-. unfold JSMap.has in Hfresh. now rewrite Hf in Hfresh.
  - (* the delivery is fulfilled *)
    destruct (string_dec messageId k) as [-> | ne].
    + destruct (sf_awaitingDelivery f) eqn:A; [right; split; [reflexivity | now left] |].
      left. unfold sendMessage_delivered. rewrite Hf, A. now apply Hsame.
    + left. exists f. split; [| apply frameAdvances_refl].
      unfold sendMessage_delivered.
      destruct (JSMap.get messageId (sendFrames rt)) as [g |]; [| exact Hf].
      destruct (sf_awaitingDelivery g); [| exact Hf].
      destruct (negb (sf_expectsResponse g)).
      * now rewrite inFrame_get_ne.
      * match goal with
        | |- context [inFrame rt messageId ?act] =>
            pose proof (inFrame_get_ne rt messageId k act ne) as G;
            generalize dependent (inFrame rt messageId act)
        end.
        intros r G.
        destruct (JSMap.get messageId (pendingMessages r)) as [p |];
          [destruct (pm_responseReceived p) |]; congruence.
  - (* the delivery fails *)
    destruct (string_dec messageId k) as [-> | ne].
    + destruct (sf_awaitingDelivery f) eqn:A;
        [right; split; [reflexivity | right; now exists error] |].
      left. unfold sendMessage_failed. rewrite Hf, A. now apply Hsame.
    + left. exists f. split; [| apply frameAdvances_refl].
      unfold sendMessage_failed.
      destruct (JSMap.get messageId (sendFrames rt)) as [g |]; [| exact Hf].
      destruct (sf_awaitingDelivery g); [| exact Hf].
      now rewrite inFrame_get_ne.
  - left. destruct (JSMap.has deliveryId (responseFrames rt)); [now apply Hsame |].
    unfold handleResponse_start.
    destruct (get (registry rt) fromAgentId); [| now apply Hsame].
    destruct (JSMap.get messageId (pendingMessages rt)) as [p |];
      [| now apply Hsame].
    destruct (get (registry rt) (pm_fromAgentId p)); cbn [fst].
    + now apply Hsame.
    + now apply reject_frame.
  - left. unfold handleResponse_delivered.
    destruct (JSMap.get deliveryId (responseFrames rt)) as [g |];
      [| now apply Hsame].
    cbn [fst]. apply resolve_frame; [now apply take_response_wf | exact Hf].
  - left. unfold handleResponse_failed.
    destruct (JSMap.get deliveryId (responseFrames rt)) as [g |];
      [| now apply Hsame].
    cbn [fst]. apply resolve_frame; [now apply take_response_wf | exact Hf].
  - left.
    destruct (broadcast_fields rt fromAgentId channel message data eventId timestamp
                outcome random) as (_ & F & _).
    now apply Hsame.
  - left. destruct (timeoutChecker rt); [| now apply Hsame].
    apply sweep_fold_frame; [| exact W | exact Hf].
    intros k' p H. now apply (proj1 (proj2 W)).
  - left. unfold clearPending. fields. now apply clear_fold_frame.
  - left. unfold destroy, clearPending. fields.
    apply clear_fold_frame; [| exact Hf]. now apply (same_maps_wf rt).
  - left. now apply Hsame.
Qed.

Lemma run_frame (actions : list Action) (rt : Router) (k : string) (f : SendFrame) :
  router_wf rt -> JSMap.get k (sendFrames rt) = Some f ->
  (forall a, In a actions ->
             a <> send_delivered k /\ forall e, a <> send_failed k e) ->
  exists f', JSMap.get k (sendFrames (run rt actions)) = Some f'
             /\ frameAdvances f f'.
Proof.
  revert rt f. induction actions as [| a actions IH]; intros rt f W Hf Hno.
  - exists f. split; [exact Hf | apply frameAdvances_refl].
  - unfold run. cbn [fold_left].
    destruct (step_frame rt a k f W Hf) as [(f1 & Hf1 & A1) | (_ & [E | (e & E)])].
    + destruct (IH (step rt a) f1 (step_router_wf rt a W) Hf1) as (f' & Hf' & A').
      { intros b Hb. apply Hno. now right. }
      exists f'. split; [exact Hf' |]. eapply frameAdvances_trans; eassumption.
    + now elim (proj1 (Hno a (or_introl eq_refl))).
    + now elim (proj2 (Hno a (or_introl eq_refl)) e).
Qed.

(** A resolver that is assigned stays assigned, and a result stays,
    whatever happens. *)
Lemma run_frame_waiting (actions : list Action) (rt : Router) (k : string)
    (f : SendFrame) :
  router_wf rt -> JSMap.get k (sendFrames rt) = Some f ->
  pendingPromiseResolve f = true ->
  exists f', JSMap.get k (sendFrames (run rt actions)) = Some f'
             /\ frameAdvances f f'.
Proof.
  revert rt f. induction actions as [| a actions IH]; intros rt f W Hf Hw.
  - exists f. split; [exact Hf | apply frameAdvances_refl].
  - unfold run. cbn [fold_left].
    destruct (step_frame rt a k f W Hf) as [(f1 & Hf1 & A1) | (A & _)].
    + destruct (IH (step rt a) f1 (step_router_wf rt a W) Hf1) as (f' & Hf' & A').
      { now apply A1. }
      exists f'. split; [exact Hf' |]. eapply frameAdvances_trans; eassumption.
    + destruct (proj1 (proj2 (proj1 (proj2 (proj2 W)) _ _ Hf)) A). congruence.
Qed.

Lemma sweep_fold_responseFrames (now : Z) (l : list (string * PendingMessage))
    (rt : Router) :
  responseFrames (fold_left (sweepEntry now) l rt) = responseFrames rt.
Proof.
  revert rt. induction l as [| [k p] l IH]; intros rt; [reflexivity |].
  cbn [fold_left]. rewrite IH, sweepEntry_eq.
  destruct (pm_timeout p <? now - pm_sentAt p); [| reflexivity].
  fields. now destruct (reject_fields rt (pm_messageId p)
                          (timeoutMessage (pm_timeout p))) as (R & _).
Qed.

Lemma clear_fold_responseFrames (l : list (string * PendingMessage)) (rt : Router) :
  responseFrames (fold_left (fun rt entry =>
                               PendingMessage_reject rt (pm_messageId (snd entry))
                                 "Router cleared") l rt)
  = responseFrames rt.
Proof.
  revert rt. induction l as [| e l IH]; intros rt; [reflexivity |].
  cbn [fold_left]. rewrite IH.
  now destruct (reject_fields rt (pm_messageId (snd e)) "Router cleared") as (R & _).
Qed.

(** The frame of a call of [handleResponse] that awaits its delivery
    stays as it is until that delivery ends. *)
Lemma step_response_frame (rt : Router) (a : Action) (d : string)
    (fr : ResponseFrame) :
  JSMap.get d (responseFrames rt) = Some fr ->
  (forall now, a <> response_delivered d now) ->
  (forall e, a <> response_failed d e) ->
  JSMap.get d (responseFrames (step rt a)) = Some fr.
Proof.
  intros Hfr Hd Hx.
  assert (Hsame : forall rt', responseFrames rt' = responseFrames rt ->
                              JSMap.get d (responseFrames rt') = Some fr).
  { intros rt' E. now rewrite E. }
  destruct a; cbn [step].
  - destruct (JSMap.has messageId (sendFrames rt)); [exact Hfr |].
    destruct (sendMessage_start_effect rt fromAgentId request messageId eventId
                timestamp sentAt) as [E | (_ & R & _)]; cbv zeta in *.
    + now rewrite E.
    + now apply Hsame.
  - destruct (sendMessage_delivered_fields rt messageId) as (_ & _ & R & _).
    now apply Hsame.
  - unfold sendMessage_failed.
    destruct (JSMap.get messageId (sendFrames rt)) as [g |]; [| exact Hfr].
    destruct (sf_awaitingDelivery g); [| exact Hfr].
    match goal with
    | |- context [inFrame ?r messageId ?act] =>
        destruct (inFrame_fields r messageId act) as (_ & R & _)
    end.
    now apply Hsame.
  - destruct (JSMap.has deliveryId (responseFrames rt)) eqn:Hhas; [exact Hfr |].
    assert (ne : deliveryId <> d).
    { intros ->. unfold JSMap.has in Hhas. now rewrite Hfr in Hhas. }
    unfold handleResponse_start.
    destruct (get (registry rt) fromAgentId); [| exact Hfr].
    destruct (JSMap.get messageId (pendingMessages rt)) as [p |];
      [| now apply Hsame].
    destruct (get (registry rt) (pm_fromAgentId p)); cbn [fst].
    + fields. now rewrite JSMap_get_set_ne.
    + apply Hsame.
      now destruct (reject_fields rt (pm_messageId p)
                      "Original sender no longer available") as (R & _).
  - assert (ne : deliveryId <> d) by (intros ->; now elim (Hd now)).
    unfold handleResponse_delivered.
    destruct (JSMap.get deliveryId (responseFrames rt)) as [g |]; [| exact Hfr].
    cbn [fst].
    match goal with
    | |- context [PendingMessage_resolve ?r ?m ?res] =>
        destruct (resolve_fields r m res) as (R & _)
    end.
    cbv zeta in R. rewrite R. fields. now rewrite JSMap_get_delete_ne.
  - assert (ne : deliveryId <> d) by (intros ->; now elim (Hx error)).
    unfold handleResponse_failed.
    destruct (JSMap.get deliveryId (responseFrames rt)) as [g |]; [| exact Hfr].
    cbn [fst].
    match goal with
    | |- context [PendingMessage_resolve ?r ?m ?res] =>
        destruct (resolve_fields r m res) as (R & _)
    end.
    cbv zeta in R. rewrite R. fields. now rewrite JSMap_get_delete_ne.
  - destruct (broadcast_fields rt fromAgentId channel message data eventId timestamp
                outcome random) as (_ & _ & R & _).
    now apply Hsame.
  - destruct (timeoutChecker rt); [| exact Hfr].
    apply Hsame. apply sweep_fold_responseFrames.
  - apply Hsame. unfold clearPending. fields. apply clear_fold_responseFrames.
  - apply Hsame. unfold destroy, clearPending. fields.
    now rewrite clear_fold_responseFrames.
  - exact Hfr.
Qed.

Lemma run_response_frame (actions : list Action) (rt : Router) (d : string)
    (fr : ResponseFrame) :
  JSMap.get d (responseFrames rt) = Some fr ->
  (forall a, In a actions ->
             (forall now, a <> response_delivered d now)
             /\ (forall e, a <> response_failed d e)) ->
  JSMap.get d (responseFrames (run rt actions)) = Some fr.
Proof.
  revert rt. induction actions as [| a actions IH]; intros rt Hfr Hno; [exact Hfr |].
  unfold run. cbn [fold_left]. apply IH.
  - destruct (Hno a (or_introl eq_refl)). now apply step_response_frame.
  - intros b Hb. apply Hno. now right.
Qed.

(* ------------------------------------------------------------------ *)
(** ** Router: a fulfilled delivery, in any order with the rest *)

(** A call of [sendMessage], with a fresh message id, that
    reaches its [await], then anything else the router does while the
    delivery is awaited ([during]: other calls, responses, sweeps,
    [clearPending], [destroy], registry changes), then the delivery is
    fulfilled.  The continuation leaves the pending map as it finds
    it.  A caller that asked for no response is resolved with
    [{ok: true, messageId, targetAgentId}]; nothing is pending for it,
    and the call never touched the pending map.  A caller that asked
    for one has no result yet and waits on its promise; its message
    was put into the pending map before the delivery began, under
    [messageId], with the names of both agents, the time it was sent
    and the timeout of the request, 300000 ms when the request gives
    none.  Whether it is still there once the delivery is fulfilled
    depends on [during] alone. *)
Theorem sendMessage_acknowledges_or_waits
    (rt rt1 : Router) (fromAgentId : string) (request : SendAgentMessageRequest)
    (messageId eventId started : string) (timestamp sentAt : Z)
    (during : list Action)
    (Hwf : router_wf rt)
    (Hfresh : JSMap.has messageId (sendFrames rt) = false)
    (Hstart : sendMessage_start rt fromAgentId request messageId eventId
                timestamp sentAt
              = (rt1, sendAwaitingDelivery started))
    (Hduring : forall a, In a during ->
                 a <> send_delivered messageId
                 /\ forall e, a <> send_failed messageId e) :
  let rt2 := run rt1 during in
  let rt3 := sendMessage_delivered rt2 messageId in
  exists sender routing targetId target,
    get (registry rt) fromAgentId = Some sender
    /\ resolveTarget (registry rt) fromAgentId request = inl (routing, targetId)
    /\ get (registry rt) targetId = Some target
    /\ pendingMessages rt3 = pendingMessages rt2
    /\ (req_expectsResponse request = Some true ->
        promiseResult rt3 messageId = None
        /\ senderWaits rt3 messageId
        /\ JSMap.get messageId (pendingMessages rt1)
           = Some {| pm_messageId := messageId;
                     pm_fromAgentId := fromAgentId;
                     pm_fromAgentName := name sender;
                     pm_toAgentId := targetId;
                     pm_toAgentName := name target;
                     pm_sentAt := sentAt;
                     pm_timeout :=
                       match req_responseTimeout request with
                       | Some t => t
                       | None => 300000
                       end;
                     pm_originalMessage := req_message request;
                     pm_deliveryAttempts := 1;
                     pm_responseReceived := false |})
    /\ (req_expectsResponse request <> Some true ->
        promiseResult rt3 messageId
        = Some {| ok := true; res_messageId := Some messageId;
                  res_targetAgentId := Some targetId;
                  res_error := None; res_response := None;
                  res_responseData := None; res_responseSuccess := None;
                  res_responseReceivedAt := None |}
        /\ JSMap.get messageId (pendingMessages rt3) = None
        /\ pendingMessages rt1 = pendingMessages rt).
Proof.
  cbv zeta.
  destruct (sendMessage_start_maps _ _ _ _ _ _ _ _ _ Hstart)
    as (sender & routing & targetId & target & ev & Hs & R & T & _ & F & P & _).
  exists sender, routing, targetId, target. do 3 (split; [assumption |]).
  assert (W1 : router_wf rt1).
  { pose proof (sendMessage_start_wf rt fromAgentId request messageId eventId
                  timestamp sentAt Hwf Hfresh) as W1.
    now rewrite Hstart in W1. }
  assert (W2 : router_wf (run rt1 during)) by now apply run_router_wf.
  destruct (run_frame during rt1 messageId _ W1 F Hduring)
    as (f2 & F2 & (_ & _ & _ & _ & Same)).
  rewrite (Same eq_refl) in F2. clear f2 Same.
  remember (run rt1 during) as rt2 eqn:E2. clear E2.
  split.
  { now destruct (sendMessage_delivered_fields rt2 messageId) as (P' & _). }
  unfold sendMessage_delivered. rewrite F2.
  cbn [frameAtAwait sf_awaitingDelivery sf_expectsResponse].
  split.
  - intros X. unfold expectsResponse in *. rewrite X in *. cbn [negb].
    match goal with
    | |- context [inFrame rt2 messageId ?act] =>
        pose proof (promiseResult_inFrame rt2 messageId act) as Hres;
        pose proof (inFrame_get_eq rt2 messageId act) as Hget;
        generalize dependent (inFrame rt2 messageId act)
    end.
    intros r Hres Hget.
    assert (G : match JSMap.get messageId (pendingMessages r) with
                | Some pending => if pm_responseReceived pending then r else r
                | None => r
                end = r).
    { destruct (JSMap.get messageId (pendingMessages r)) as [p |];
        [now destruct (pm_responseReceived p) | reflexivity]. }
    rewrite G. rewrite F2 in Hres, Hget. cbn in Hres, Hget.
    split; [exact Hres |]. split.
    + eexists. split; [exact Hget |]. now split.
    + rewrite P. now rewrite JSMap_get_set_eq.
  - intros X.
    assert (X' : expectsResponse request = false).
    { unfold expectsResponse. destruct (req_expectsResponse request) as [[|] |];
        congruence. }
    rewrite X' in *. cbn [negb].
    rewrite promiseResult_inFrame, F2. cbn [sf_result sf_targetAgentId].
    split; [reflexivity |]. split; [| exact P].
    match goal with
    | |- context [inFrame rt2 messageId ?act] =>
        destruct (inFrame_fields rt2 messageId act) as (P' & _)
    end.
    rewrite P'.
    destruct (JSMap.get messageId (pendingMessages rt2)) as [p |] eqn:Hp;
      [| reflexivity].
    destruct (router_wf_get _ _ _ W2 Hp) as (_ & f & Hf & (E & _) & _).
    rewrite F2 in Hf. injection Hf as <-. discriminate E.
Qed.

Lemma sendMessage_acknowledges_or_waits_witness :
  let rt2 := run scenario_sending
               [call_handleResponse "B" "m1" "42 passed" true None None
                  "e2" "d1" 10 10;
                response_delivered "d1" 20] in
  let rt3 := sendMessage_delivered rt2 "m1" in
  exists sender routing targetId target,
    get (registry (newRouter scenario_registry)) "A" = Some sender
    /\ resolveTarget (registry (newRouter scenario_registry)) "A" (request_to_B 5000)
       = inl (routing, targetId)
    /\ get (registry (newRouter scenario_registry)) targetId = Some target
    /\ pendingMessages rt3 = pendingMessages rt2
    /\ (req_expectsResponse (request_to_B 5000) = Some true ->
        promiseResult rt3 "m1" = None
        /\ senderWaits rt3 "m1"
        /\ JSMap.get "m1" (pendingMessages scenario_sending)
           = Some {| pm_messageId := "m1";
                     pm_fromAgentId := "A";
                     pm_fromAgentName := name sender;
                     pm_toAgentId := targetId;
                     pm_toAgentName := name target;
                     pm_sentAt := 0;
                     pm_timeout :=
                       match req_responseTimeout (request_to_B 5000) with
                       | Some t => t
                       | None => 300000
                       end;
                     pm_originalMessage := req_message (request_to_B 5000);
                     pm_deliveryAttempts := 1;
                     pm_responseReceived := false |})
    /\ (req_expectsResponse (request_to_B 5000) <> Some true ->
        promiseResult rt3 "m1"
        = Some {| ok := true; res_messageId := Some "m1";
                  res_targetAgentId := Some targetId;
                  res_error := None; res_response := None;
                  res_responseData := None; res_responseSuccess := None;
                  res_responseReceivedAt := None |}
        /\ JSMap.get "m1" (pendingMessages rt3) = None
        /\ pendingMessages scenario_sending
           = pendingMessages (newRouter scenario_registry)).
Proof.
  apply (sendMessage_acknowledges_or_waits
           (newRouter scenario_registry) scenario_sending "A" (request_to_B 5000)
           "m1" "e1" "m1" 0 0).
  - apply newRouter_router_wf.
  - reflexivity.
  - vm_compute. reflexivity.
  - intros a [<- | [<- | []]]; split; try discriminate; intros e; discriminate.
Defined.

(* ------------------------------------------------------------------ *)
(** ** Router: a response for a sender that waits, in any order with the rest *)

Lemma handleResponse_failed_eq (rt : Router) (deliveryId : string) (e : Thrown)
    (f : ResponseFrame) :
  JSMap.get deliveryId (responseFrames rt) = Some f ->
  handleResponse_failed rt deliveryId e
  = (PendingMessage_resolve
       (with_responseFrames rt (JSMap.delete deliveryId (responseFrames rt)))
       (pm_messageId (rf_pending f))
       {| ok := false; res_messageId := Some (rf_messageId f);
          res_targetAgentId := Some (pm_toAgentId (rf_pending f));
          res_error := Some ("Response received but delivery failed: "
                             ++ deliveryErrorMessage e);
          res_response := Some (rf_response f);
          res_responseData := rf_data f;
          res_responseSuccess := Some (rf_success f);
          res_responseReceivedAt := None |},
     Some {| delivered := false; rr_error := Some (deliveryErrorMessage e) |}).
Proof. intros H. unfold handleResponse_failed. now rewrite H. Qed.

(** The promise of a sender whose resolver is assigned takes a result
    unless it has one. *)
Lemma resolve_assigned (rt : Router) (m : string) (result : SendAgentMessageResponse)
    (f : SendFrame) :
  JSMap.get m (sendFrames rt) = Some f -> pendingPromiseResolve f = true ->
  promiseResult (PendingMessage_resolve rt m result) m
  = Some match promiseResult rt m with
         | Some earlier => earlier
         | None => result
         end
  /\ JSMap.get m (pendingMessages (PendingMessage_resolve rt m result)) = None.
Proof.
  intros Hf Hw. split.
  - unfold promiseResult. rewrite resolve_frame_eq, Hf. cbn [option_map].
    unfold callPromiseResolve. rewrite Hw.
    destruct (sf_result f) eqn:S; [exact S | reflexivity].
  - rewrite resolve_pending_eq. apply JSMap_get_delete_eq.
Qed.

(** A response for a pending message whose sender waits on its
    promise, from any registered agent: [handleResponse] does not
    compare the responder with the agent the message was sent to.  The
    response is sent to the original sender as a high-priority message
    with the original [messageId] that expects no response, the
    pending message staying in the map when the call reaches its
    [await].  Then anything else the router does while that delivery
    is awaited ([during]: other calls and responses, sweeps,
    [clearPending], [destroy], registry changes), then the delivery
    ends.  When it is fulfilled the call returns [{delivered: true}]
    and the sender's promise, unless [during] has resolved it, is
    resolved with [ok: true], the response, its data,
    [responseSuccess] and the error of the responder, also when
    [success] is false; when it fails, with [ok: false], the response
    all the same, and the error "Response received but delivery
    failed: ..." .  A promise [during] has resolved keeps its result.
    Either way nothing is pending for the message afterwards. *)
Theorem handleResponse_resolves_the_waiting_sender
    (rt : Router) (fromAgentId messageId response : string) (success : bool)
    (error : option string) (data : option JsonObject)
    (eventId deliveryId : string) (timestamp deliveryTimestamp : Z)
    (p : PendingMessage) (responder sender : AgentRegistryEntry)
    (during : list Action)
    (Hwf : router_wf rt)
    (Hp : JSMap.get messageId (pendingMessages rt) = Some p)
    (Hresponder : get (registry rt) fromAgentId = Some responder)
    (Hsender : get (registry rt) (pm_fromAgentId p) = Some sender)
    (Hwaits : senderWaits rt messageId)
    (Hduring : forall a, In a during ->
                 (forall now, a <> response_delivered deliveryId now)
                 /\ (forall e, a <> response_failed deliveryId e)) :
  exists rt1 ev,
    handleResponse_start rt fromAgentId messageId response success error data
      eventId deliveryId timestamp deliveryTimestamp
    = (rt1, responseAwaitingDelivery deliveryId)
    /\ deliveries rt1
       = (deliveries rt ++ [(pm_fromAgentId p, agent_message ev)])%list
    /\ msg_message ev
       = formatResponseForDelivery response (name responder) messageId success error
    /\ msg_messageId ev = messageId
    /\ msg_fromAgentId ev = fromAgentId
    /\ msg_priority ev = high
    /\ msg_expectsResponse ev = false
    /\ JSMap.get messageId (pendingMessages rt1) = Some p
    /\ promiseResult rt1 messageId = None
    /\ let rt2 := run rt1 during in
       (forall now,
          let done := handleResponse_delivered rt2 deliveryId now in
          snd done = Some {| delivered := true; rr_error := None |}
          /\ promiseResult (fst done) messageId
             = Some match promiseResult rt2 messageId with
                    | Some earlier => earlier
                    | None =>
                        {| ok := true; res_messageId := Some messageId;
                           res_targetAgentId := Some (pm_toAgentId p);
                           res_error := error;
                           res_response := Some response;
                           res_responseData := data;
                           res_responseSuccess := Some success;
                           res_responseReceivedAt := Some now |}
                    end
          /\ JSMap.get messageId (pendingMessages (fst done)) = None)
       /\ (forall deliveryError,
             let done := handleResponse_failed rt2 deliveryId deliveryError in
             snd done
             = Some {| delivered := false;
                       rr_error := Some (deliveryErrorMessage deliveryError) |}
             /\ promiseResult (fst done) messageId
                = Some match promiseResult rt2 messageId with
                       | Some earlier => earlier
                       | None =>
                           {| ok := false; res_messageId := Some messageId;
                              res_targetAgentId := Some (pm_toAgentId p);
                              res_error :=
                                Some ("Response received but delivery failed: "
                                      ++ deliveryErrorMessage deliveryError);
                              res_response := Some response;
                              res_responseData := data;
                              res_responseSuccess := Some success;
                              res_responseReceivedAt := None |}
                       end
             /\ JSMap.get messageId (pendingMessages (fst done)) = None).
Proof.
  destruct (router_wf_get _ _ _ Hwf Hp) as (Hid & _).
  pose proof (handleResponse_start_wf rt fromAgentId messageId response success
                error data eventId deliveryId timestamp deliveryTimestamp Hwf) as W1.
  revert W1.
  unfold handleResponse_start. rewrite Hresponder, Hp, Hsender. cbn [fst].
  intros W1.
  eexists _, _. split; [reflexivity |]. fields.
  do 6 (split; [reflexivity |]). split; [exact Hp |].
  destruct Hwaits as (f & Hf & Hw & Hr).
  split. { unfold promiseResult. fields. now rewrite Hf. }
  match goal with
  | |- context [run ?r during] =>
      assert (W2 : router_wf (run r during)) by (now apply run_router_wf);
      assert (Fr : exists fr, JSMap.get deliveryId (responseFrames (run r during))
                              = Some fr
                              /\ rf_pending fr = p /\ rf_messageId fr = messageId
                              /\ rf_response fr = response /\ rf_success fr = success
                              /\ rf_error fr = error /\ rf_data fr = data);
      [ eexists; split;
        [ apply run_response_frame;
          [fields; apply JSMap_get_set_eq | exact Hduring]
        | now repeat split ]
      | destruct (run_frame_waiting during r messageId f W1) as (f2 & F2 & A2);
        [fields; exact Hf | exact Hw |];
        remember (run r during) as rt2 eqn:E2; clear E2 ]
  end.
  destruct Fr as (fr & Hfr & <- & <- & <- & <- & <- & <-).
  destruct A2 as (_ & _ & Hw2 & _). specialize (Hw2 Hw).
  cbv zeta. split.
  - intros now. rewrite (handleResponse_delivered_eq _ _ _ _ Hfr). cbn [fst snd].
    split; [reflexivity |]. rewrite Hid.
    match goal with
    | |- context [PendingMessage_resolve ?r ?m ?res] =>
        destruct (resolve_assigned r m res f2) as (H1 & H2);
        [fields; exact F2 | exact Hw2 |]
    end.
    split; [| exact H2]. rewrite H1. unfold promiseResult. now fields.
  - intros deliveryError. rewrite (handleResponse_failed_eq _ _ _ _ Hfr).
    cbn [fst snd]. split; [reflexivity |]. rewrite Hid.
    match goal with
    | |- context [PendingMessage_resolve ?r ?m ?res] =>
        destruct (resolve_assigned r m res f2) as (H1 & H2);
        [fields; exact F2 | exact Hw2 |]
    end.
    split; [| exact H2]. rewrite H1. unfold promiseResult. now fields.
Qed.

Lemma handleResponse_resolves_the_waiting_sender_witness :
  exists rt1 ev,
    handleResponse_start scenario_waiting "C" "m1" "42 passed" false
      (Some "3 failed") None "e2" "d1" 10 11
    = (rt1, responseAwaitingDelivery "d1")
    /\ deliveries rt1
       = (deliveries scenario_waiting ++ [("A", agent_message ev)])%list
    /\ msg_message ev
       = formatResponseForDelivery "42 passed" "C" "m1" false (Some "3 failed")
    /\ msg_messageId ev = "m1"
    /\ msg_fromAgentId ev = "C"
    /\ msg_priority ev = high
    /\ msg_expectsResponse ev = false
    /\ JSMap.get "m1" (pendingMessages rt1)
       = Some (pendingFor "A" "A" "B" "B" (request_to_B 100) "m1" 0)
    /\ promiseResult rt1 "m1" = None
    /\ let rt2 := run rt1 [sweep 5000] in
       (forall now,
          let done := handleResponse_delivered rt2 "d1" now in
          snd done = Some {| delivered := true; rr_error := None |}
          /\ promiseResult (fst done) "m1"
             = Some match promiseResult rt2 "m1" with
                    | Some earlier => earlier
                    | None =>
                        {| ok := true; res_messageId := Some "m1";
                           res_targetAgentId := Some "B";
                           res_error := Some "3 failed";
                           res_response := Some "42 passed";
                           res_responseData := None;
                           res_responseSuccess := Some false;
                           res_responseReceivedAt := Some now |}
                    end
          /\ JSMap.get "m1" (pendingMessages (fst done)) = None)
       /\ (forall deliveryError,
             let done := handleResponse_failed rt2 "d1" deliveryError in
             snd done
             = Some {| delivered := false;
                       rr_error := Some (deliveryErrorMessage deliveryError) |}
             /\ promiseResult (fst done) "m1"
                = Some match promiseResult rt2 "m1" with
                       | Some earlier => earlier
                       | None =>
                           {| ok := false; res_messageId := Some "m1";
                              res_targetAgentId := Some "B";
                              res_error :=
                                Some ("Response received but delivery failed: "
                                      ++ deliveryErrorMessage deliveryError);
                              res_response := Some "42 passed";
                              res_responseData := None;
                              res_responseSuccess := Some false;
                              res_responseReceivedAt := None |}
                       end
             /\ JSMap.get "m1" (pendingMessages (fst done)) = None).
Proof.
  apply (handleResponse_resolves_the_waiting_sender
           scenario_waiting "C" "m1" "42 passed" false (Some "3 failed") None
           "e2" "d1" 10 11
           (pendingFor "A" "A" "B" "B" (request_to_B 100) "m1" 0)
           (snd (register newRegistry (fst (scenario_agent "C" idle 8))
                   (snd (scenario_agent "C" idle 8))))
           (snd (register newRegistry (fst (scenario_agent "A" idle 5))
                   (snd (scenario_agent "A" idle 5))))
           [sweep 5000]).
  - exact (run_router_wf
             [call_sendMessage "A" (request_to_B 100) "m1" "e1" 0 0;
              send_delivered "m1"]
             (newRouter scenario_registry)
             (newRouter_router_wf scenario_registry)).
  - vm_compute. reflexivity.
  - vm_compute. reflexivity.
  - vm_compute. reflexivity.
  - eexists. split; [vm_compute; reflexivity |]. split; reflexivity.
  - intros a [<- | []]; split; intros; discriminate.
Defined.

(** With nothing in between, the response is what the sender gets. *)
Example response_reaches_the_waiting_sender :
  let rt1 :=
    fst (handleResponse_start scenario_waiting "C" "m1" "42 passed" false
           (Some "3 failed") None "e2" "d1" 10 11) in
  promiseResult (fst (handleResponse_delivered rt1 "d1" 20)) "m1"
  = Some {| ok := true; res_messageId := Some "m1";
            res_targetAgentId := Some "B";
            res_error := Some "3 failed";
            res_response := Some "42 passed";
            res_responseData := None;
            res_responseSuccess := Some false;
            res_responseReceivedAt := Some 20 |}
  /\ promiseResult
       (fst (handleResponse_delivered (run rt1 [sweep 5000]) "d1" 20)) "m1"
     = Some (rejection "m1" "B" (timeoutMessage 100)).
Proof. vm_compute. split; reflexivity. Qed.
